(** * heyman: the query orchestration pipeline, embedded and verified

    A shallow embedding of the core of [alecf/heyman]: the cache store
    ([internal/cache]), the response parser ([internal/parser]), the
    prompt builder ([internal/prompt]), the provider abstraction and its
    Ollama adapter ([internal/llm]), and the orchestration in
    [internal/cli] ([queryWithCache], [ExecuteQuery], [parseAndValidate]).

    Go strings are byte sequences: they are modelled by [string], whose
    characters are the 256 byte values.  Go's [int] is a 64-bit integer,
    modelled in [Z] with the wrap-around written out where the code does
    arithmetic on it.  Effects (files, clock, provider calls, standard
    output, spinner) are threaded through a state monad over a record of
    the outside world; a provider is a function of the request and of the
    calls made before.  Contexts and their cancellation, file
    permissions and the rendering of output are left out. *)

From Stdlib Require Import ZArith Lia Bool List Ascii String Floats DecimalString.
From stdpp Require Import base option gmap strings.

Local Open Scope string_scope.
Local Open Scope Z_scope.

(* ===================================================================== *)
(** * Go's [strings] package, on byte strings *)
(* ===================================================================== *)

Module strings.

(** [len(s)], in bytes. *)
Definition len (s : string) : nat := String.length s.

(** [strings.HasPrefix(s, prefix)]. *)
Fixpoint HasPrefix (s prefix : string) : bool :=
  match prefix, s with
  | EmptyString, _ => true
  | String p prefix', String c s' => Ascii.eqb c p && HasPrefix s' prefix'
  | String _ _, EmptyString => false
  end.

(** [strings.HasSuffix(s, suffix)]. *)
Definition HasSuffix (s suffix : string) : bool :=
  HasPrefix (String.rev s) (String.rev suffix).

(** [strings.Contains(s, substr)]: [substr] occurs at some offset of [s]. *)
Fixpoint Contains (s substr : string) : bool :=
  HasPrefix s substr ||
  match s with
  | EmptyString => false
  | String _ s' => Contains s' substr
  end.

(** [s[n:]] for [n <= len(s)]. *)
Fixpoint drop (n : nat) (s : string) : string :=
  match n, s with
  | O, _ => s
  | S n', String _ s' => drop n' s'
  | S _, EmptyString => EmptyString
  end.

(** [strings.TrimPrefix(s, prefix)]: one occurrence is removed. *)
Definition TrimPrefix (s prefix : string) : string :=
  if HasPrefix s prefix then drop (len prefix) s else s.

(** [strings.TrimSuffix(s, suffix)]. *)
Definition TrimSuffix (s suffix : string) : string :=
  String.rev (TrimPrefix (String.rev s) (String.rev suffix)).

Definition LF : ascii := "010"%char.

(** [strings.Split(s, "\n")]: the pieces between line feeds; a string
    without a line feed (the empty one too) gives one piece. *)
Fixpoint SplitLines (s : string) : list string :=
  match s with
  | EmptyString => [EmptyString]
  | String c s' =>
      if Ascii.eqb c LF then EmptyString :: SplitLines s'
      else match SplitLines s' with
           | l :: ls => String c l :: ls
           | [] => [String c EmptyString]
           end
  end.

(** [strings.Join(elems, sep)]. *)
Fixpoint Join (elems : list string) (sep : string) : string :=
  match elems with
  | [] => EmptyString
  | [e] => e
  | e :: rest => e +:+ sep +:+ Join rest sep
  end.

(** ** White space

    [strings.TrimSpace] and [strings.Fields] cut at the runes for which
    [unicode.IsSpace] holds.  A rune is a white space exactly when the
    bytes at that offset are the UTF-8 encoding of one of
    U+0009..U+000D, U+0020, U+0085, U+00A0, U+1680, U+2000..U+200A,
    U+2028, U+2029, U+202F, U+205F, U+3000; every such encoding begins
    with a byte that cannot occur inside another rune, so the offsets at
    which an encoding occurs are rune boundaries. *)

Definition byteval (c : ascii) : N := N_of_ascii c.

(** The table [asciiSpace] of package [strings]. *)
Definition asciiSpace (c : ascii) : bool :=
  let b := byteval c in ((9 <=? b) && (b <=? 13) || (b =? 32))%N.

(** U+0085 (C2 85) and U+00A0 (C2 A0). *)
Definition space2 (c1 c2 : ascii) : bool :=
  ((byteval c1 =? 194) && ((byteval c2 =? 133) || (byteval c2 =? 160)))%N.

(** U+1680 (E1 9A 80), U+2000..U+200A (E2 80 80..8A), U+2028, U+2029
    (E2 80 A8, A9), U+202F (E2 80 AF), U+205F (E2 81 9F), U+3000 (E3 80 80). *)
Definition space3 (c1 c2 c3 : ascii) : bool :=
  let b1 := byteval c1 in let b2 := byteval c2 in let b3 := byteval c3 in
  ((b1 =? 225) && (b2 =? 154) && (b3 =? 128)
   || (b1 =? 226) && (b2 =? 128) &&
        ((128 <=? b3) && (b3 <=? 138) || (b3 =? 168) || (b3 =? 169) || (b3 =? 175))
   || (b1 =? 226) && (b2 =? 129) && (b3 =? 159)
   || (b1 =? 227) && (b2 =? 128) && (b3 =? 128))%N.

(** Number of bytes of the white-space rune at the head of [s], 0 when
    [s] does not begin with one. *)
Definition spaceLen (s : string) : nat :=
  match s with
  | EmptyString => 0
  | String c1 s1 =>
      if asciiSpace c1 then 1%nat
      else match s1 with
           | EmptyString => 0
           | String c2 s2 =>
               if space2 c1 c2 then 2%nat
               else match s2 with
                    | EmptyString => 0
                    | String c3 _ => if space3 c1 c2 c3 then 3%nat else 0%nat
                    end
           end
  end.

(** [strings.TrimLeftFunc(s, unicode.IsSpace)]. *)
Fixpoint TrimLeftSpace (s : string) : string :=
  match s with
  | EmptyString => EmptyString
  | String c1 s1 =>
      if asciiSpace c1 then TrimLeftSpace s1
      else match s1 with
           | EmptyString => s
           | String c2 s2 =>
               if space2 c1 c2 then TrimLeftSpace s2
               else match s2 with
                    | EmptyString => s
                    | String c3 s3 =>
                        if space3 c1 c2 c3 then TrimLeftSpace s3 else s
                    end
           end
  end.

(** The same scan on the reversed string, for the right end: the last
    rune is a white space exactly when the string ends with one of the
    encodings. *)
Fixpoint TrimLeftSpaceRev (r : string) : string :=
  match r with
  | EmptyString => EmptyString
  | String c1 r1 =>
      if asciiSpace c1 then TrimLeftSpaceRev r1
      else match r1 with
           | EmptyString => r
           | String c2 r2 =>
               if space2 c2 c1 then TrimLeftSpaceRev r2
               else match r2 with
                    | EmptyString => r
                    | String c3 r3 =>
                        if space3 c3 c2 c1 then TrimLeftSpaceRev r3 else r
                    end
           end
  end.

(** [strings.TrimRightFunc(s, unicode.IsSpace)]. *)
Definition TrimRightSpace (s : string) : string :=
  String.rev (TrimLeftSpaceRev (String.rev s)).

(** [strings.TrimSpace(s)]. *)
Definition TrimSpace (s : string) : string :=
  TrimRightSpace (TrimLeftSpace s).

(** [strings.Fields(s)]: the maximal runs of bytes between white-space
    runes.  [cur] is the field being read, reversed; [skip] counts the
    bytes of a white-space rune still to be passed over. *)
Fixpoint FieldsFrom (skip : nat) (cur : string) (s : string) : list string :=
  let flush := match cur with
               | EmptyString => []
               | _ => [String.rev cur]
               end in
  match s with
  | EmptyString => flush
  | String c s' =>
      match skip with
      | S k => FieldsFrom k cur s'
      | O =>
          match spaceLen s with
          | O => FieldsFrom 0 (String c cur) s'
          | S k => flush ++ FieldsFrom k EmptyString s'
          end
      end
  end.

Definition Fields (s : string) : list string := FieldsFrom 0 EmptyString s.

End strings.

(* ===================================================================== *)
(** * [crypto/sha256]: SHA-256 (FIPS 180-4) on 32-bit words in [Z] *)
(* ===================================================================== *)

Module sha256.

Definition mask32 : Z := 4294967295.

(** Addition of 32-bit words wraps around. *)
Definition add32 (a b : Z) : Z := (a + b) mod 4294967296.

Definition rotr (n x : Z) : Z :=
  Z.lor (Z.shiftr x n) (Z.land (Z.shiftl x (32 - n)) mask32).

Definition not32 (x : Z) : Z := Z.lxor x mask32.

Definition Ch (x y z : Z) : Z := Z.lxor (Z.land x y) (Z.land (not32 x) z).

Definition Maj (x y z : Z) : Z :=
  Z.lxor (Z.lxor (Z.land x y) (Z.land x z)) (Z.land y z).

Definition bsig0 (x : Z) : Z := Z.lxor (Z.lxor (rotr 2 x) (rotr 13 x)) (rotr 22 x).
Definition bsig1 (x : Z) : Z := Z.lxor (Z.lxor (rotr 6 x) (rotr 11 x)) (rotr 25 x).
Definition ssig0 (x : Z) : Z := Z.lxor (Z.lxor (rotr 7 x) (rotr 18 x)) (Z.shiftr x 3).
Definition ssig1 (x : Z) : Z := Z.lxor (Z.lxor (rotr 17 x) (rotr 19 x)) (Z.shiftr x 10).

(** The first 64 primes. *)
Definition primes : list Z :=
  [ 2; 3; 5; 7; 11; 13; 17; 19; 23; 29; 31; 37; 41; 43; 47; 53;
    59; 61; 67; 71; 73; 79; 83; 89; 97; 101; 103; 107; 109; 113; 127; 131;
    137; 139; 149; 151; 157; 163; 167; 173; 179; 181; 191; 193; 197; 199; 211; 223;
    227; 229; 233; 239; 241; 251; 257; 263; 269; 271; 277; 281; 283; 293; 307; 311 ].

(** The integer cube root, one bit after the other from the top. *)
Fixpoint cbrtBits (bits : nat) (n r : Z) : Z :=
  match bits with
  | O => r
  | S b =>
      let c := r + 2 ^ Z.of_nat b in
      if c * c * c <=? n then cbrtBits b n c else cbrtBits b n r
  end.

(** The first 32 bits of the fractional part of the cube root of [p]. *)
Definition fracCbrt (p : Z) : Z := cbrtBits 48 (p * 2 ^ 96) 0 mod 4294967296.

(** The first 32 bits of the fractional part of the square root of [p]. *)
Definition fracSqrt (p : Z) : Z := Z.sqrt (p * 2 ^ 64) mod 4294967296.

(** The round constants: from the cube roots of the first 64 primes. *)
Definition K : list Z := Eval vm_compute in map fracCbrt primes.

(** The initial hash value: from the square roots of the first 8 primes. *)
Definition H0 : list Z := Eval vm_compute in map fracSqrt (firstn 8 primes).

(** The message, one 1 bit, zero bits up to 56 modulo 64 bytes, and the
    length in bits as a 64-bit big-endian integer. *)
Definition be_bytes (n : nat) (x : Z) : list Z :=
  map (fun i => Z.land (Z.shiftr x (8 * Z.of_nat i)) 255) (rev (seq 0 n)).

Definition pad (msg : list Z) : list Z :=
  let l := Z.of_nat (List.length msg) in
  msg ++ [128] ++ repeat 0 (Z.to_nat ((55 - l) mod 64))
      ++ be_bytes 8 ((8 * l) mod 18446744073709551616).

(** Big-endian 32-bit words of a byte sequence. *)
Fixpoint words (bs : list Z) : list Z :=
  match bs with
  | b0 :: b1 :: b2 :: b3 :: rest =>
      (Z.lor (Z.shiftl b0 24) (Z.lor (Z.shiftl b1 16) (Z.lor (Z.shiftl b2 8) b3)))
      :: words rest
  | _ => []
  end.

(** The message schedule, most recent word first: [W t] is computed from
    [W (t-2)], [W (t-7)], [W (t-15)] and [W (t-16)]. *)
Fixpoint schedule (n : nat) (rw : list Z) : list Z :=
  match n with
  | O => rw
  | S n' =>
      let w := add32 (add32 (ssig1 (nth 1 rw 0)) (nth 6 rw 0))
                     (add32 (ssig0 (nth 14 rw 0)) (nth 15 rw 0)) in
      schedule n' (w :: rw)
  end.

Definition round (st : list Z) (kw : Z * Z) : list Z :=
  match st with
  | [a; b; c; d; e; f; g; h] =>
      let t1 := add32 (add32 (add32 h (bsig1 e)) (add32 (Ch e f g) (fst kw))) (snd kw) in
      let t2 := add32 (bsig0 a) (Maj a b c) in
      [add32 t1 t2; a; b; c; add32 d t1; e; f; g]
  | _ => st
  end.

Definition block (h : list Z) (w16 : list Z) : list Z :=
  let w := rev (schedule 48 (rev w16)) in
  let st := fold_left round (combine K w) h in
  map (fun p => add32 (fst p) (snd p)) (combine h st).

(** The 16-word blocks of the padded message, folded into the state. *)
Fixpoint blocks (n : nat) (h : list Z) (ws : list Z) : list Z :=
  match n with
  | O => h
  | S n' => blocks n' (block h (firstn 16 ws)) (skipn 16 ws)
  end.

Definition bytes_of_string (s : string) : list Z :=
  map (fun c => Z.of_N (N_of_ascii c)) (list_ascii_of_string s).

(** [sha256.Sum256(data)]: the 32 bytes of the digest. *)
Definition Sum256 (data : string) : list Z :=
  let ws := words (pad (bytes_of_string data)) in
  concat (map (be_bytes 4) (blocks (List.length ws / 16) H0 ws)).

End sha256.

(* ===================================================================== *)
(** * [fmt]: the verbs the core uses *)
(* ===================================================================== *)

Module fmt.

Definition hexdigit (d : Z) : ascii :=
  if d <? 10 then ascii_of_N (Z.to_N (48 + d)) else ascii_of_N (Z.to_N (87 + d)).

(** [fmt.Sprintf("%x", hash)] for a byte array: two lower-case
    hexadecimal digits for every byte. *)
Fixpoint Sprintf_x (bs : list Z) : string :=
  match bs with
  | [] => EmptyString
  | b :: rest => String (hexdigit (b / 16)) (String (hexdigit (b mod 16)) (Sprintf_x rest))
  end.

(** [%d]: an integer in decimal. *)
Definition Sprintf_d (n : Z) : string :=
  NilEmpty.string_of_int (Z.to_int n).

End fmt.

(** Go's [error] values are modelled by their message; [nil] is [None]. *)
Definition error : Type := string.

Inductive result (A : Type) : Type :=
| Ok (a : A)
| Err (e : error).
Arguments Ok {A} a.
Arguments Err {A} e.

(** Go's [int] and [time.Duration] are 64-bit: results wrap around. *)
Definition wrap64 (x : Z) : Z :=
  (x + 9223372036854775808) mod 18446744073709551616 - 9223372036854775808.

(* ===================================================================== *)
(** * [internal/llm]: requests, responses, chunks (provider.go) *)
(* ===================================================================== *)

Module llm.

Module QueryRequest.
Record t : Type := mk {
  Model : string;
  SystemPrompt : string;
  UserPrompt : string;
  MaxTokens : Z;
  Temperature : float;
  ContextWindow : Z;          (* Max context window in tokens *)
  StopSequences : list string
}.
End QueryRequest.

Module QueryResponse.
Record t : Type := mk {
  Content : string;
  TokensInput : Z;
  TokensOutput : Z;
  Model : string;
  Provider : string;
  Cached : bool               (* Whether this was served from cache *)
}.

(** [response.Cached = true]. *)
Definition setCached (r : t) : t :=
  mk (Content r) (TokensInput r) (TokensOutput r) (Model r) (Provider r) true.
End QueryResponse.

Module StreamChunk.
Record t : Type := mk {
  Content : string;
  IsComplete : bool;
  TokensInput : Z;            (* Only populated on completion *)
  TokensOutput : Z            (* Only populated on completion *)
}.
End StreamChunk.

(** What [StreamQuery] hands back: a chunk channel and an error channel,
    fed by one goroutine.  The goroutine sends [chunks] in order on the
    unbuffered chunk channel, then puts [failure] (if any) on the error
    channel, and closes both channels when it returns. *)
Record Stream : Type := mkStream {
  chunks : list StreamChunk.t;
  failure : option error
}.

(** A call that reached a provider. *)
Inductive Call : Type :=
| CallQuery (req : QueryRequest.t)
| CallStreamQuery (req : QueryRequest.t).

(** The [Provider] interface.  A backend is outside the program: what it
    answers may depend on the request and on the calls made before. *)
Record Provider : Type := mkProvider {
  Query : list Call -> QueryRequest.t -> result QueryResponse.t;
  StreamQuery : list Call -> QueryRequest.t -> Stream;
  Name : string;
  SupportsStreaming : bool
}.

End llm.

(* ===================================================================== *)
(** * The world the program runs in *)
(* ===================================================================== *)

Module cache_types.

(** [cache.Entry]; [Response] is a pointer and may be [nil]. Times are
    instants in nanoseconds. *)
Record Entry : Type := mkEntry {
  Key : string;
  Command : string;
  Question : string;
  Model : string;
  Response : option llm.QueryResponse.t;
  CreatedAt : Z;
  AccessedAt : Z;
  AccessCount : Z
}.

End cache_types.

Module os.

(** The bytes of a file, read the way [json.Unmarshal(data, &entry)]
    reads them: bytes that are not the JSON of an [Entry] (the call
    returns an error), or JSON text that decodes to the entry [e]. *)
Inductive FileData : Type :=
| Garbage (bytes : string)
| EntryJSON (e : cache_types.Entry).

(** The program's view of the outside: the files by path, whether
    creating directories, writing and removing files fail (and with
    which error), the readings [time.Now()] returns, the provider calls
    made so far, what was printed on standard output, the spinner's
    messages, which ready case [select] takes when two are ready, and
    what [config.GetCacheDir()] returns. Two more fields say how the
    file system fails: [torn] is what a write that fails leaves in the
    file ([None] when the file could not be opened and is as it was;
    the bytes written before the failure when it was opened, which
    truncates it: a part of the JSON text, which does not decode);
    [readDirErr] is the failure of reading a directory (no permission,
    for one). *)
Record World : Type := mkWorld {
  files : gmap string FileData;
  mkdirErr : option error;
  writeErr : option error;
  removeErr : option error;
  clock : nat -> Z;
  ticks : nat;
  calls : list llm.Call;
  stdout : list string;
  spinner : list string;
  selectErrFirst : bool;
  cacheDirEnv : string;
  torn : option string;
  readDirErr : option error
}.

Definition withFiles (w : World) (fs : gmap string FileData) : World :=
  mkWorld fs (mkdirErr w) (writeErr w) (removeErr w) (clock w) (ticks w)
          (calls w) (stdout w) (spinner w) (selectErrFirst w) (cacheDirEnv w)
          (torn w) (readDirErr w).

Definition withTicks (w : World) (n : nat) : World :=
  mkWorld (files w) (mkdirErr w) (writeErr w) (removeErr w) (clock w) n
          (calls w) (stdout w) (spinner w) (selectErrFirst w) (cacheDirEnv w)
          (torn w) (readDirErr w).

Definition withCalls (w : World) (cs : list llm.Call) : World :=
  mkWorld (files w) (mkdirErr w) (writeErr w) (removeErr w) (clock w) (ticks w)
          cs (stdout w) (spinner w) (selectErrFirst w) (cacheDirEnv w)
          (torn w) (readDirErr w).

Definition withStdout (w : World) (out : list string) : World :=
  mkWorld (files w) (mkdirErr w) (writeErr w) (removeErr w) (clock w) (ticks w)
          (calls w) out (spinner w) (selectErrFirst w) (cacheDirEnv w)
          (torn w) (readDirErr w).

Definition withSpinner (w : World) (sp : list string) : World :=
  mkWorld (files w) (mkdirErr w) (writeErr w) (removeErr w) (clock w) (ticks w)
          (calls w) (stdout w) sp (selectErrFirst w) (cacheDirEnv w)
          (torn w) (readDirErr w).

(** ** The state monad of effectful code *)

Definition M (A : Type) : Type := World -> A * World.

Definition ret {A : Type} (a : A) : M A := fun w => (a, w).

Definition bind {A B : Type} (m : M A) (k : A -> M B) : M B :=
  fun w => let (a, w') := m w in k a w'.

Definition when (b : bool) (m : M unit) : M unit :=
  if b then m else ret tt.

(** [os.ReadFile(path)]. *)
Definition ReadFile (path : string) : M (result FileData) :=
  fun w => match files w !! path with
           | Some d => (Ok d, w)
           | None => (Err ("open " +:+ path +:+ ": no such file or directory"), w)
           end.

(** [os.WriteFile(path, data, 0600)]: the file is opened (created, or
    truncated when it is there), written and closed. A call that fails
    leaves the file as it was when it could not be opened, and holding
    what was written before the failure when it could. *)
Definition WriteFile (path : string) (data : FileData) : M (option error) :=
  fun w => match writeErr w with
           | Some e =>
               match torn w with
               | Some bytes => (Some e, withFiles w (<[path := Garbage bytes]> (files w)))
               | None => (Some e, w)
               end
           | None => (None, withFiles w (<[path := data]> (files w)))
           end.

(** [os.MkdirAll(dir, 0700)]. *)
Definition MkdirAll (dir : string) : M (option error) :=
  fun w => (mkdirErr w, w).

(** [os.Remove(path)]. *)
Definition Remove (path : string) : M (option error) :=
  fun w => match files w !! path with
           | None => (Some ("remove " +:+ path +:+ ": no such file or directory"), w)
           | Some _ =>
               match removeErr w with
               | Some e => (Some e, w)
               | None => (None, withFiles w (delete path (files w)))
               end
           end.

(** [time.Now()]: the next reading of the clock. *)
Definition Now : M Z :=
  fun w => (clock w (ticks w), withTicks w (S (ticks w))).

(** [fmt.Println] and [fmt.Printf] on standard output: one more line. *)
Definition Printf (line : string) : M unit :=
  fun w => (tt, withStdout w (stdout w ++ [line])).

(** [filepath.Join(dir, name)] for a clean [dir] and a file name. *)
Definition Join (dir name : string) : string :=
  match dir with
  | EmptyString => name
  | _ => dir +:+ "/" +:+ name
  end.

End os.

Notation "'let*' x := m 'in' k" := (os.bind m (fun x => k))
  (at level 10, x name, m at level 100, k at level 200).
Notation "'run*' m 'in' k" := (os.bind m (fun _ => k))
  (at level 10, m at level 100, k at level 200).

(* ===================================================================== *)
(** * [encoding/json], as the cache uses it *)
(* ===================================================================== *)

Module json.
Import cache_types.

Definition between (lo hi b : N) : bool := ((lo <=? b) && (b <=? hi))%N.

(** [utf8.DecodeRuneInString]: the number of bytes of the well-formed
    UTF-8 encoding at the head of [s]; 0 when the first byte starts none
    (the decoder then returns [RuneError] with size 1). *)
Definition runeLen (s : string) : nat :=
  match s with
  | EmptyString => 0
  | String c0 s1 =>
      let b0 := N_of_ascii c0 in
      if (b0 <? 128)%N then 1%nat
      else match s1 with
      | EmptyString => 0
      | String c1 s2 =>
          let b1 := N_of_ascii c1 in
          if between 194 223 b0 then (if between 128 191 b1 then 2 else 0)%nat
          else match s2 with
          | EmptyString => 0
          | String c2 s3 =>
              let b2 := N_of_ascii c2 in
              let second3 :=
                if (b0 =? 224)%N then between 160 191 b1
                else if (b0 =? 237)%N then between 128 159 b1
                else between 128 191 b1 in
              if between 224 239 b0
              then (if second3 && between 128 191 b2 then 3 else 0)%nat
              else match s3 with
              | EmptyString => 0
              | String c3 _ =>
                  let b3 := N_of_ascii c3 in
                  let second4 :=
                    if (b0 =? 240)%N then between 144 191 b1
                    else if (b0 =? 244)%N then between 128 143 b1
                    else between 128 191 b1 in
                  if between 240 244 b0 && second4
                     && between 128 191 b2 && between 128 191 b3
                  then 4%nat else 0%nat
              end
          end
      end
  end.

(** U+FFFD, the replacement rune: EF BF BD. *)
Definition replacement : string :=
  String "239"%char (String "191"%char (String "189"%char EmptyString)).

(** A Go string written by the encoder and read back by the decoder:
    every byte that is not part of well-formed UTF-8 comes back as
    U+FFFD; all other bytes (escaped or not in the file) come back as
    they were. [skip] counts the remaining bytes of the rune being
    copied. *)
Fixpoint coerceFrom (skip : nat) (s : string) : string :=
  match s with
  | EmptyString => EmptyString
  | String c s' =>
      match skip with
      | S k => String c (coerceFrom k s')
      | O =>
          match runeLen s with
          | O => replacement +:+ coerceFrom 0 s'
          | S k => String c (coerceFrom k s')
          end
      end
  end.

Definition coerce (s : string) : string := coerceFrom 0 s.

(** [utf8.ValidString(s)]. *)
Fixpoint validFrom (skip : nat) (s : string) : bool :=
  match s with
  | EmptyString => true
  | String c s' =>
      match skip with
      | S k => validFrom k s'
      | O =>
          match runeLen s with
          | O => false
          | S k => validFrom k s'
          end
      end
  end.

Definition ValidString (s : string) : bool := validFrom 0 s.

Definition coerceResponse (r : llm.QueryResponse.t) : llm.QueryResponse.t :=
  llm.QueryResponse.mk
    (coerce (llm.QueryResponse.Content r))
    (llm.QueryResponse.TokensInput r)
    (llm.QueryResponse.TokensOutput r)
    (coerce (llm.QueryResponse.Model r))
    (coerce (llm.QueryResponse.Provider r))
    (llm.QueryResponse.Cached r).

(** [json.MarshalIndent(entry, "", "  ")]: the JSON text of the entry.
    Integers, booleans and instants are written exactly.  String values
    are encoded as JSON strings coerced to valid UTF-8, each invalid
    byte replaced by the Unicode replacement rune (the documentation of
    [json.Marshal]). *)
Definition MarshalIndent (entry : Entry) : os.FileData :=
  os.EntryJSON
    (mkEntry (coerce (Key entry)) (coerce (Command entry))
             (coerce (Question entry)) (coerce (Model entry))
             (option_map coerceResponse (Response entry))
             (CreatedAt entry) (AccessedAt entry) (AccessCount entry)).

(** [json.Unmarshal(data, &entry)]. *)
Definition Unmarshal (data : os.FileData) : result Entry :=
  match data with
  | os.Garbage _ => Err "invalid character looking for beginning of value"
  | os.EntryJSON e => Ok e
  end.

End json.

(* ===================================================================== *)
(** * [internal/cache] (key.go, cache.go) *)
(* ===================================================================== *)

Module cache.
Export cache_types.
Import os.

(** [Entry] represents a cached response (declared with the world above,
    whose files hold entries). *)
Abbreviation Entry := cache_types.Entry.
Abbreviation mkEntry := cache_types.mkEntry.
Abbreviation Key := cache_types.Key.
Abbreviation Command := cache_types.Command.
Abbreviation Question := cache_types.Question.
Abbreviation Model := cache_types.Model.
Abbreviation Response := cache_types.Response.
Abbreviation CreatedAt := cache_types.CreatedAt.
Abbreviation AccessedAt := cache_types.AccessedAt.
Abbreviation AccessCount := cache_types.AccessCount.

(** The bytes that are hashed: [fmt.Sprintf("%s:%s:%s", command, question, model)]. *)
Definition keyData (command question model : string) : string :=
  command +:+ ":" +:+ question +:+ ":" +:+ model.

(** [GenerateKey] creates a SHA-256 hash key for caching. *)
Definition GenerateKey (command question model : string) : string :=
  let data := keyData command question model in
  let hash := sha256.Sum256 data in
  fmt.Sprintf_x hash.

(** [Cache] manages response caching. *)
Record Cache : Type := mkCache {
  cacheDir : string;
  maxAgeDays : Z
}.

(** [New] creates a cache manager; the directory is [config.GetCacheDir()]. *)
Definition New (maxAgeDays : Z) : M Cache :=
  fun w => (mkCache (cacheDirEnv w) maxAgeDays, w).

(** [saveEntry] writes an entry to disk. *)
Definition saveEntry (c : Cache) (entry : Entry) : M (option error) :=
  let* err := MkdirAll (cacheDir c) in
  match err with
  | Some e => ret (Some ("failed to create cache directory: " +:+ e))
  | None =>
      let entryPath := Join (cacheDir c) (Key entry +:+ ".json") in
      let data := json.MarshalIndent entry in
      let* err := WriteFile entryPath data in
      match err with
      | Some e => ret (Some ("failed to write cache entry: " +:+ e))
      | None => ret None
      end
  end.

(** [time.Hour], in nanoseconds. *)
Definition Hour : Z := 3600000000000.

(** [isExpired] checks if an entry has expired. *)
Definition isExpired (c : Cache) (createdAt : Z) : M bool :=
  if maxAgeDays c <=? 0 then ret false (* No expiration *)
  else
    let expiryTime := createdAt + wrap64 (wrap64 (maxAgeDays c * 24) * Hour) in
    let* now := Now in
    ret (expiryTime <? now).

Definition touch (entry : Entry) (now : Z) : Entry :=
  mkEntry (Key entry) (Command entry) (Question entry) (Model entry)
          (Response entry) (CreatedAt entry) now (wrap64 (AccessCount entry + 1)).

(** [Get] retrieves a cached response: [None] is the miss [(nil, false)]. *)
Definition Get (c : Cache) (command question model : string)
  : M (option llm.QueryResponse.t) :=
  let key := GenerateKey command question model in
  let entryPath := Join (cacheDir c) (key +:+ ".json") in
  (* Check if cached file exists *)
  let* r := ReadFile entryPath in
  match r with
  | Err _ => ret None
  | Ok data =>
      match json.Unmarshal data with
      | Err _ => ret None
      | Ok entry =>
          (* Check if entry has expired *)
          let* expired := isExpired c (CreatedAt entry) in
          if expired then
            (* Delete expired entry *)
            run* Remove entryPath in ret None
          else
            (* Validate response is not nil (could be nil from corrupted cache) *)
            match Response entry with
            | None =>
                (* Delete corrupted entry *)
                run* Remove entryPath in ret None
            | Some response =>
                (* Update access metadata *)
                let* now := Now in
                let entry := touch entry now in
                run* saveEntry c entry in
                (* Mark response as cached *)
                ret (Some (llm.QueryResponse.setCached response))
            end
      end
  end.

(** [Set] stores a response in the cache. *)
Definition Set_ (c : Cache) (command question model : string)
                (response : llm.QueryResponse.t) : M (option error) :=
  let key := GenerateKey command question model in
  let* createdAt := Now in
  let* accessedAt := Now in
  let entry := mkEntry key command question model (Some response)
                       createdAt accessedAt 1 in
  saveEntry c entry.

End cache.

(* ===================================================================== *)
(** * [internal/parser] *)
(* ===================================================================== *)

Module parser.
Import strings.

(** [ParsedResponse] represents a parsed LLM response. *)
Record ParsedResponse : Type := mkParsed {
  Command : string;
  Explanation : string;       (* Empty in default mode *)
  Valid : bool;
  Error : option error
}.

Definition invalid (e : error) : ParsedResponse := mkParsed "" "" false (Some e).
Definition valid (command explanation : string) : ParsedResponse :=
  mkParsed command explanation true None.

(** [Parser] handles parsing and validation of LLM responses. *)
Record Parser : Type := mkParser {
  commandName : string;
  explainMode : bool
}.

Definition New (commandName : string) (explainMode : bool) : Parser :=
  mkParser commandName explainMode.

(** ** The two regular expressions of [stripMarkdownCodeBlocks]

    [ReplaceAllString] rewrites the leftmost matches, one after the
    other, none overlapping the one before.  Each expression has at most
    one match at a given offset, so a scan from the left that drops a
    match where one begins is the replacement by the empty string. *)

Definition isLower (c : ascii) : bool :=
  ((97 <=? N_of_ascii c) && (N_of_ascii c <=? 122))%N.

(** Number of bytes matched by [[a-z]*\n] at the head of [s]. *)
Fixpoint lowerThenLF (s : string) : option nat :=
  match s with
  | EmptyString => None
  | String c s' =>
      if Ascii.eqb c LF then Some 1%nat
      else if isLower c then option_map S (lowerThenLF s')
      else None
  end.

Definition fence : string := "```".

(** Length of the match of [```[a-z]*\n] at the head of [s]. *)
Definition matchOpen (s : string) : option nat :=
  if HasPrefix s fence then option_map (fun k => (3 + k)%nat) (lowerThenLF (drop 3 s))
  else None.

(** [(?m)^```[a-z]*\n] replaced by nothing. [bol] tells whether the head
    of [s] is at the beginning of the text or just after a line feed;
    [skip] counts the bytes of the current match still to be dropped. *)
Fixpoint removeOpen (skip : nat) (bol : bool) (s : string) : string :=
  match s with
  | EmptyString => EmptyString
  | String c s' =>
      match skip with
      | S k => removeOpen k (Ascii.eqb c LF) s'
      | O =>
          match (if bol then matchOpen s else None) with
          | Some n => removeOpen (Nat.pred n) (Ascii.eqb c LF) s'
          | None => String c (removeOpen 0 (Ascii.eqb c LF) s')
          end
      end
  end.

(** Whether [\n```$] matches at the head of [s]: the fence is followed
    by the end of the text or by a line feed. *)
Definition matchClose (s : string) : bool :=
  HasPrefix s (String LF fence) &&
  match drop 4 s with
  | EmptyString => true
  | String c _ => Ascii.eqb c LF
  end.

(** [(?m)\n```$] replaced by nothing. *)
Fixpoint removeClose (skip : nat) (s : string) : string :=
  match s with
  | EmptyString => EmptyString
  | String c s' =>
      match skip with
      | S k => removeClose k s'
      | O => if matchClose s then removeClose 3 s'
             else String c (removeClose 0 s')
      end
  end.

(** [stripMarkdownCodeBlocks] removes markdown code block formatting. *)
Definition stripMarkdownCodeBlocks (s : string) : string :=
  (* Remove ```bash, ```sh, ``` style code blocks *)
  let s := removeOpen 0 true s in
  let s := removeClose 0 s in
  let s := TrimPrefix s "`" in
  let s := TrimSuffix s "`" in
  TrimSpace s.

Definition refusal : string := "cannot find this information in the man page".

Definition nonEmpty (s : string) : bool :=
  match s with
  | EmptyString => false
  | _ => true
  end.

(** The loop of [parseDefaultMode] over the lines: the first line that,
    trimmed, is not empty and starts with the command. *)
Fixpoint firstCommandLine (name : string) (lines : list string) : option string :=
  match lines with
  | [] => None
  | line :: rest =>
      let line := TrimSpace line in
      if nonEmpty line && HasPrefix line name then Some line
      else firstCommandLine name rest
  end.

(** [parseDefaultMode] parses response in default mode (command only). *)
Definition parseDefaultMode (p : Parser) (response : string) : ParsedResponse :=
  (* Check if LLM refused to answer based on man page content *)
  if Contains response refusal then
    invalid "information not found in man page"
  else
    (* Remove markdown code blocks if present *)
    let response := stripMarkdownCodeBlocks response in
    let response := TrimSpace response in
    (* Check if response starts with command name *)
    if negb (HasPrefix response (commandName p)) then
      invalid ("response does not start with command '" +:+ commandName p +:+ "'")
    else
      (* Check for multi-line responses (invalid in default mode) *)
      let lines := SplitLines response in
      if (1 <? List.length lines)%nat then
        (* Take first non-empty line that starts with command *)
        match firstCommandLine (commandName p) lines with
        | Some line => valid line ""
        | None => invalid "response contains multiple lines without valid command"
        end
      else valid response "".

(** The first loop of [parseExplainMode]: the command and the lines
    after it ([lines[explanationStart:]]); [None] when the loop ends
    without a [break]. *)
Fixpoint findCommand (name : string) (lines : list string)
  : option (string * list string) :=
  match lines with
  | [] => None
  | line :: rest =>
      let line := TrimSpace line in
      if negb (nonEmpty line) then findCommand name rest
      else
        (* Strip markdown if present *)
        let line := stripMarkdownCodeBlocks line in
        let line := TrimSpace line in
        (* Check if this line starts with the command name *)
        if HasPrefix line name then Some (line, rest)
        else findCommand name rest
  end.

(** [parseExplainMode] parses response in explain mode (command + explanation). *)
Definition parseExplainMode (p : Parser) (response : string) : ParsedResponse :=
  if Contains response refusal then
    invalid "information not found in man page"
  else
    let lines := SplitLines response in
    match lines with
    | [] => invalid "empty response"
    | _ =>
        let found := findCommand (commandName p) lines in
        let command := match found with Some (c, _) => c | None => "" end in
        let after := match found with Some (_, rest) => rest | None => lines end in
        if negb (nonEmpty command) then
          invalid ("no command found in response (expected line starting with '"
                   +:+ commandName p +:+ "')")
        else
          (* Collect explanation lines *)
          let explanationLines := List.filter nonEmpty (map TrimSpace after) in
          valid command (Join explanationLines (String LF EmptyString))
    end.

(** [Parse] parses the LLM response and validates it. *)
Definition Parse (p : Parser) (response : string) : ParsedResponse :=
  let response := TrimSpace response in
  if explainMode p then parseExplainMode p response
  else parseDefaultMode p response.

(** [ValidateCommand] performs additional validation on extracted command. *)
Definition ValidateCommand (p : Parser) (command : string) : option error :=
  (* Check command starts with expected name *)
  match Fields command with
  | [] => Some "empty command"
  | part0 :: _ =>
      if negb (String.eqb part0 (commandName p)) then
        Some ("command does not start with '" +:+ commandName p
              +:+ "', got '" +:+ part0 +:+ "'")
      else if Contains command (String LF EmptyString) then
        Some "command contains newlines"
      else if (1000 <? len command)%nat then
        Some ("command suspiciously long (" +:+ fmt.Sprintf_d (Z.of_nat (len command))
              +:+ " chars)")
      else None
  end.

End parser.

(* ===================================================================== *)
(** * [internal/prompt] (templates.go) *)
(* ===================================================================== *)

Module prompt.

(** The double quote character, which the prompts contain. *)
Definition dq : string := String "034"%char EmptyString.

(** [DefaultModeSystemPrompt] is used when user just wants the command. *)
Definition DefaultModeSystemPrompt : string :=
  "You are a command-line expert helping users construct commands based ONLY on the provided man page.

CRITICAL RULES:
1. Base your answer EXCLUSIVELY on the man page content provided below
2. Ignore ALL your training data knowledge about this command
3. If the man page doesn't contain information to answer the question, respond with: " +:+ dq +:+
  "I cannot find this information in the man page" +:+ dq +:+
  "
4. Output ONLY the command, nothing else
5. Do not include explanations, descriptions, or any other text
6. Do not use markdown code blocks or formatting
7. The command must start with the command name from the man page
8. Use placeholders like <PID>, <filename> for values the user needs to provide

Example:
User asks: " +:+ dq +:+
  "how do I list open files for a process" +:+ dq +:+
  "
Man page contains: " +:+ dq +:+
  "-p <PID> selects files for a specific process" +:+ dq +:+
  "
Your response: lsof -p <PID>

Example of what NOT to do:
User asks: " +:+ dq +:+
  "how do I use feature X" +:+ dq +:+
  "
Man page does not mention feature X
WRONG response: command --feature-x (this uses your training data)
CORRECT response: I cannot find this information in the man page".

(** [ExplainModeSystemPrompt] is used when user wants command + explanation. *)
Definition ExplainModeSystemPrompt : string :=
  "You are a command-line expert helping users construct commands based ONLY on the provided man page.

CRITICAL RULES:
1. Base your answer EXCLUSIVELY on the man page content provided below
2. Ignore ALL your training data knowledge about this command
3. If the man page doesn't contain information to answer the question, respond with: " +:+ dq +:+
  "I cannot find this information in the man page" +:+ dq +:+
  "
4. The command must start with the command name from the man page
5. Use placeholders like <PID>, <filename> for values the user needs to provide

Output Format (MUST follow exactly):
Line 1: The command
Line 2: (blank)
Line 3+: Brief explanation (2-4 sentences) based ONLY on the man page

Example:
User asks: " +:+ dq +:+
  "how do I list open files for a process" +:+ dq +:+
  "
Man page contains: " +:+ dq +:+
  "-p <PID> selects files for a specific process" +:+ dq +:+
  "
Your response:
lsof -p <PID>

This command lists all open files for a specific process. The -p flag specifies the process ID to inspect.

Example of what NOT to do:
User asks: " +:+ dq +:+
  "how do I use feature X" +:+ dq +:+
  "
Man page does not mention feature X
WRONG: command --feature-x (explanation from your training data)
CORRECT: I cannot find this information in the man page".

(** [StrictRetryPromptTemplate] is used when validation fails; the two
    parts are the text before and after its [%s]. *)
Definition StrictRetryPromptBefore : string :=
  "Your previous response was not a valid command. Please respond with ONLY the command syntax, starting with '".
Definition StrictRetryPromptAfter : string :=
  "'. No explanations, no formatting, just the command.".

(** [fmt.Sprintf(StrictRetryPromptTemplate, command)]. *)
Definition StrictRetryPromptTemplate (command : string) : string :=
  StrictRetryPromptBefore +:+ command +:+ StrictRetryPromptAfter.

(** [Builder] helps construct LLM prompts. *)
Record Builder : Type := mkBuilder {
  command : string;
  manPage : string;
  question : string;
  explainMode : bool
}.

(** [NewBuilder] creates a new prompt builder. *)
Definition NewBuilder (command manPage question : string) (explainMode : bool) : Builder :=
  mkBuilder command manPage question explainMode.

(** [SystemPrompt] returns the appropriate system prompt. *)
Definition SystemPrompt (b : Builder) : string :=
  if explainMode b then ExplainModeSystemPrompt else DefaultModeSystemPrompt.

Definition nl : string := String strings.LF EmptyString.

(** [UserPrompt] returns the user prompt with man page and question. *)
Definition UserPrompt (b : Builder) : string :=
  "Man page for '" +:+ command b +:+ "':" +:+ nl +:+ nl +:+ manPage b +:+ nl +:+ nl
  +:+ "User question: " +:+ question b +:+ nl +:+ nl +:+ "Provide the command:".

(** [StrictRetryPrompt] returns a stricter prompt for retry attempts. *)
Definition StrictRetryPrompt (b : Builder) : string :=
  StrictRetryPromptTemplate (command b).

End prompt.

(* ===================================================================== *)
(** * [internal/llm]: the Ollama adapter (ollama.go) *)
(* ===================================================================== *)

Module ollama.
Import llm.

(** The parts of [github.com/ollama/ollama/api] the adapter uses. *)
Record Message : Type := mkMessage {
  Role : string;
  MessageContent : string
}.

Record ChatRequest : Type := mkChatRequest {
  ReqModel : string;
  Messages : list Message;
  temperature : float;
  num_predict : Z;
  num_ctx : Z
}.

Record ChatResponse : Type := mkChatResponse {
  Content : string;            (* resp.Message.Content *)
  Done : bool;
  PromptEvalCount : Z;
  EvalCount : Z
}.

(** What [client.Chat(ctx, chatReq, respFunc)] does: it hands the
    responses of the server to [respFunc], in order, and then returns
    [failure]. *)
Record ChatReply : Type := mkChatReply {
  responses : list ChatResponse;
  failure : option error
}.

(** [OllamaProvider] implements the Provider interface for Ollama; the
    client's answers come from the server. *)
Record OllamaProvider : Type := mkOllamaProvider {
  client : list Call -> ChatRequest -> ChatReply
}.

(** The request both [Query] and [StreamQuery] build. *)
Definition chatReq (req : QueryRequest.t) : ChatRequest :=
  let messages :=
    [ mkMessage "system" (QueryRequest.SystemPrompt req);
      mkMessage "user" (QueryRequest.UserPrompt req) ] in
  (* Use configured context window, default to 8192 if not set *)
  let contextWindow :=
    if QueryRequest.ContextWindow req =? 0 then 8192
    else QueryRequest.ContextWindow req in
  mkChatRequest (QueryRequest.Model req) messages
                (QueryRequest.Temperature req) (QueryRequest.MaxTokens req)
                contextWindow.

(** The callback of [Query]: [fullContent], [promptTokens],
    [completionTokens] after one more response. *)
Definition respFuncQuery (acc : string * Z * Z) (resp : ChatResponse) : string * Z * Z :=
  let '(fullContent, promptTokens, completionTokens) := acc in
  let fullContent := fullContent +:+ Content resp in
  (* Capture token counts from final response *)
  if Done resp then (fullContent, PromptEvalCount resp, EvalCount resp)
  else (fullContent, promptTokens, completionTokens).

(** [Query] sends a non-streaming request to Ollama. *)
Definition Query (p : OllamaProvider) (history : list Call) (req : QueryRequest.t)
  : result QueryResponse.t :=
  let reply := client p history (chatReq req) in
  let '(fullContent, promptTokens, completionTokens) :=
    fold_left respFuncQuery (responses reply) (EmptyString, 0, 0) in
  match failure reply with
  | Some err => Err ("Ollama API error: " +:+ err)
  | None =>
      Ok (QueryResponse.mk fullContent promptTokens completionTokens
                           (QueryRequest.Model req) "ollama" false)
  end.

(** The callback of [StreamQuery]: the chunks sent for one response. *)
Definition respFuncStream (resp : ChatResponse) : list StreamChunk.t :=
  if Done resp then
    (* Final response with token counts *)
    [StreamChunk.mk EmptyString true (PromptEvalCount resp) (EvalCount resp)]
  else
    (* Stream content chunks *)
    match Content resp with
    | EmptyString => []
    | content => [StreamChunk.mk content false 0 0]
    end.

(** [StreamQuery] sends a streaming request to Ollama. *)
Definition StreamQuery (p : OllamaProvider) (history : list Call) (req : QueryRequest.t)
  : Stream :=
  let reply := client p history (chatReq req) in
  mkStream (flat_map respFuncStream (responses reply))
           (option_map (fun err => "stream error: " +:+ err) (failure reply)).

(** The adapter, as a [Provider]. *)
Definition provider (p : OllamaProvider) : Provider :=
  mkProvider (Query p) (StreamQuery p) "ollama" true.

End ollama.

(* ===================================================================== *)
(** * [internal/config], the fields the core reads *)
(* ===================================================================== *)

Module config.

Record Profile : Type := mkProfile {
  Name : string;
  Provider : string;
  Model : string;
  ContextWindow : Z
}.

Record Config : Type := mkConfig {
  DefaultProfile : string;
  CacheDays : Z
}.

End config.

(* ===================================================================== *)
(** * [internal/cli]: query execution and validation *)
(* ===================================================================== *)

Module cli.
Import os.

(** The package-level flags. *)
Record Flags : Type := mkFlags {
  noCache : bool;
  verbose : bool;
  debug : bool;
  quiet : bool
}.

(** [ProviderConfig] holds the provider and its context window. *)
Record ProviderConfig : Type := mkProviderConfig {
  Provider : llm.Provider;
  ContextWindow : Z
}.

(** [QueryOptions] holds options for executing a query. *)
Record QueryOptions : Type := mkQueryOptions {
  ShowProgress : bool;
  Verbose : bool;
  Debug : bool;
  Profile : config.Profile
}.

(** [provider.Query(ctx, req)]: the call is made, and recorded. *)
Definition providerQuery (provider : llm.Provider) (req : llm.QueryRequest.t)
  : M (result llm.QueryResponse.t) :=
  fun w => (llm.Query provider (calls w) req,
            withCalls w (calls w ++ [llm.CallQuery req])).

(** [provider.StreamQuery(ctx, req)]. *)
Definition providerStreamQuery (provider : llm.Provider) (req : llm.QueryRequest.t)
  : M llm.Stream :=
  fun w => (llm.StreamQuery provider (calls w) req,
            withCalls w (calls w ++ [llm.CallStreamQuery req])).

(** The spinner: its messages, in order. *)
Definition spin (msg : string) : M unit :=
  fun w => (tt, withSpinner w (spinner w ++ [msg])).

Definition spinStop : M unit := spin "stop".

(** [select] with both the closed chunk channel and the error channel
    ready: the runtime takes either case. *)
Definition selectErr : M bool := fun w => (selectErrFirst w, w).

(** The [streamLoop] of [executeStreamingQuery]: [content] is the
    builder, [firstChunk] the flag; the chunks are received in the
    order sent.  When none is left the goroutine has returned: the chunk
    channel is closed and the error channel holds [failure] or is
    closed too. *)
Fixpoint streamLoop (model : string) (chunks : list llm.StreamChunk.t)
    (failure : option error) (content : string) (firstChunk : bool)
  : M (result (string * Z * Z)) :=
  match chunks with
  | [] =>
      let* errFirst := selectErr in
      if errFirst then
        run* spinStop in
        ret (Err ("LLM query failed: " +:+
                    match failure with Some e => e | None => "%!w(<nil>)" end))
      else ret (Ok (content, 0, 0))
  | chunk :: rest =>
      let first := firstChunk && negb (llm.StreamChunk.IsComplete chunk) in
      run* when first (spin ("Getting command from " +:+ model +:+ "...")) in
      let firstChunk := if first then false else firstChunk in
      if llm.StreamChunk.IsComplete chunk then
        ret (Ok (content, llm.StreamChunk.TokensInput chunk,
                 llm.StreamChunk.TokensOutput chunk))
      else
        streamLoop model rest failure
                   (content +:+ llm.StreamChunk.Content chunk) firstChunk
  end.

Definition executeStreamingQuery (provider : llm.Provider)
    (req : llm.QueryRequest.t) (opts : QueryOptions)
  : M (result llm.QueryResponse.t) :=
  let model := config.Model (Profile opts) in
  run* spin ("Sending query to " +:+ model +:+ "...") in
  let* stream := providerStreamQuery provider req in
  (* Process stream *)
  let* r := streamLoop model (llm.chunks stream) (llm.failure stream)
                       EmptyString true in
  match r with
  | Err e => ret (Err e)
  | Ok (content, tokenInput, tokenOutput) =>
      run* spinStop in
      ret (Ok (llm.QueryResponse.mk content tokenInput tokenOutput
                 (llm.QueryRequest.Model req) (llm.Name provider) false))
  end.

(** [ExecuteQuery] sends a query to the LLM provider with appropriate
    progress indicators. *)
Definition ExecuteQuery (provider : llm.Provider) (req : llm.QueryRequest.t)
    (opts : QueryOptions) : M (result llm.QueryResponse.t) :=
  if ShowProgress opts then
    (* Use streaming with progress indicators *)
    executeStreamingQuery provider req opts
  else
    (* Use non-streaming query for verbose/debug modes *)
    providerQuery provider req.

(** [0.1] as a [float64]. *)
Definition temperature : float := 0x1.999999999999ap-4%float.

(** The request [queryWithCache] prepares. *)
Definition originalRequest (providerConfig : ProviderConfig)
    (promptBuilder : prompt.Builder) (activeProfile : config.Profile)
  : llm.QueryRequest.t :=
  llm.QueryRequest.mk (config.Model activeProfile)
    (prompt.SystemPrompt promptBuilder) (prompt.UserPrompt promptBuilder)
    2000 temperature (ContextWindow providerConfig) [].

Definition queryWithCache (fl : Flags) (cfg : config.Config)
    (providerConfig : ProviderConfig) (promptBuilder : prompt.Builder)
    (activeProfile : config.Profile) (command question : string)
  : M (result llm.QueryResponse.t) :=
  let* cacheManager := cache.New (config.CacheDays cfg) in
  (* Check cache first *)
  let* hit :=
    if negb (noCache fl) then
      cache.Get cacheManager command question (config.Model activeProfile)
    else ret None in
  match hit with
  | Some cachedResp =>
      run* when (verbose fl) (Printf "Found in cache") in
      ret (Ok cachedResp)
  | None =>
      (* Prepare request *)
      let req := originalRequest providerConfig promptBuilder activeProfile in
      (* Execute query *)
      let showProgress := negb (quiet fl) && negb (verbose fl) && negb (debug fl) in
      let* r := ExecuteQuery (Provider providerConfig) req
                  (mkQueryOptions showProgress (verbose fl) (debug fl) activeProfile) in
      match r with
      | Err err => ret (Err err)
      | Ok resp =>
          (* Save to cache *)
          let* err := cache.Set_ cacheManager command question
                        (config.Model activeProfile) resp in
          run* match err with
               | Some e => when (verbose fl)
                             (Printf ("Warning: failed to cache response: " +:+ e))
               | None => ret tt
               end in
          ret (Ok resp)
      end
  end.

(** [%v] of an error. *)
Definition showError (e : option error) : string :=
  match e with
  | Some msg => msg
  | None => "<nil>"
  end.

(** The request of the retry in [parseAndValidate]: [ContextWindow] and
    [StopSequences] are not set. *)
Definition retryRequest (promptBuilder : prompt.Builder)
    (activeProfile : config.Profile) : llm.QueryRequest.t :=
  llm.QueryRequest.mk (config.Model activeProfile)
    (prompt.SystemPrompt promptBuilder) (prompt.StrictRetryPrompt promptBuilder)
    2000 temperature 0 [].

Definition parseAndValidate (fl : Flags) (provider : llm.Provider)
    (promptBuilder : prompt.Builder) (resp : llm.QueryResponse.t)
    (command : string) (explainFlag : bool) (cfg : config.Config)
    (activeProfile : config.Profile) (question : string)
  : M (result parser.ParsedResponse) :=
  let responseParser := parser.New command explainFlag in
  let parsed := parser.Parse responseParser (llm.QueryResponse.Content resp) in
  (* Retry if invalid (and not from cache) *)
  if negb (parser.Valid parsed) && negb (llm.QueryResponse.Cached resp) then
    run* when (verbose fl)
           (Printf ("Validation failed: " +:+ showError (parser.Error parsed)
                   +:+ ", retrying with strict prompt")) in
    let req := retryRequest promptBuilder activeProfile in
    let* r := providerQuery provider req in
    match r with
    | Err err => ret (Err ("LLM retry failed: " +:+ err))
    | Ok retryResp =>
        let parsed := parser.Parse responseParser (llm.QueryResponse.Content retryResp) in
        if negb (parser.Valid parsed) then
          ret (Err ("unable to generate valid command: " +:+ showError (parser.Error parsed)))
        else
          (* Cache successful retry *)
          let* cacheManager := cache.New (config.CacheDays cfg) in
          let* err := cache.Set_ cacheManager command question
                        (config.Model activeProfile) retryResp in
          run* match err with
               | Some e => when (verbose fl)
                             (Printf ("Warning: failed to cache retry response: " +:+ e))
               | None => ret tt
               end in
          ret (Ok parsed)
    end
  else if negb (parser.Valid parsed) && llm.QueryResponse.Cached resp then
    ret (Err ("cached response invalid: " +:+ showError (parser.Error parsed)))
  else ret (Ok parsed).

(** The part of [run] from the prompt builder on: the query (with
    caching), then the parse and validation (with retry). Before it
    [run] has loaded the configuration, read the arguments, fetched the
    man page and created the provider ([CreateProvider]), which are its
    parameters here. *)
Definition run (fl : Flags) (cfg : config.Config) (providerConfig : ProviderConfig)
    (activeProfile : config.Profile) (command manPageContent question : string)
    (explainFlag : bool)
  : M (result (parser.ParsedResponse * llm.QueryResponse.t)) :=
  let promptBuilder := prompt.NewBuilder command manPageContent question explainFlag in
  (* Query LLM (with caching) *)
  let* r := queryWithCache fl cfg providerConfig promptBuilder activeProfile
              command question in
  match r with
  | Err err => ret (Err err)
  | Ok resp =>
      (* Parse and validate response (with retry) *)
      let* p := parseAndValidate fl (Provider providerConfig) promptBuilder resp
                  command explainFlag cfg activeProfile question in
      match p with
      | Err err => ret (Err err)
      | Ok parsed => ret (Ok (parsed, resp))
      end
  end.

End cli.

(* ===================================================================== *)
(** * [internal/manpage]: the arguments of a query *)
(* ===================================================================== *)

Module manpage.

(** [len(args[0]) == 1 && args[0][0] >= '1' && args[0][0] <= '9']. *)
Definition isSection (arg : string) : bool :=
  match arg with
  | String c EmptyString => ((49 <=? N_of_ascii c) && (N_of_ascii c <=? 57))%N
  | _ => false
  end.

(** [ParseCommand] parses the command and section from arguments:
    [(command, section, question)]. *)
Definition ParseCommand (args : list string) : string * string * list string :=
  match args with
  | [] => ("", "", [])
  | arg0 :: rest =>
      (* Check for -s flag *)
      match String.eqb arg0 "-s", rest with
      | true, arg1 :: arg2 :: question => (arg2, arg1, question)
      | _, _ =>
          (* Check if first arg is a section number (1-9) *)
          if isSection arg0 then
            match rest with
            | arg1 :: question => (arg1, arg0, question)
            | [] => (arg0, "", [])
            end
          else
            (* No section, first arg is the command *)
            (arg0, "", rest)
      end
  end.

End manpage.

(* ===================================================================== *)
(** * [internal/pricing]: the rendering of token counts *)
(* ===================================================================== *)

Module pricing.

(** The loop of [formatNumber] from index [i] on: [str] is what is left
    of the decimal digits, [n] is [len(str)] of the whole. The digits
    are ASCII, so the runes of [range str] are its bytes. *)
Fixpoint formatLoop (n i : nat) (str : string) : string :=
  match str with
  | EmptyString => EmptyString
  | String c rest =>
      let sep := if (0 <? i)%nat && ((n - i) mod 3 =? 0)%nat then "," else "" in
      sep +:+ String c (formatLoop n (S i) rest)
  end.

(** [formatNumber] adds commas to large numbers. *)
Definition formatNumber (n : Z) : string :=
  if n <? 1000 then fmt.Sprintf_d n
  else
    let str := fmt.Sprintf_d n in
    formatLoop (strings.len str) 0 str.

End pricing.

(* ===================================================================== *)
(** * [internal/cli]: utils.go, commands.go, the provider factory *)
(* ===================================================================== *)

Module utils.

(** [s[:n]] for [n <= len(s)]. *)
Fixpoint take (n : nat) (s : string) : string :=
  match n, s with
  | S n', String c s' => String c (take n' s')
  | _, _ => EmptyString
  end.

(** [truncate] truncates a string to [maxLen] bytes with ellipsis.
    [None] is the run-time panic of [s[:maxLen]] for a negative
    [maxLen]. *)
Definition truncate (s : string) (maxLen : Z) : option string :=
  if Z.of_nat (strings.len s) <=? maxLen then Some s
  else if maxLen <? 0 then None
  else Some (take (Z.to_nat maxLen) s +:+ "...").

End utils.

Module commands.

Definition isAlnum (c : ascii) : bool :=
  let b := N_of_ascii c in
  ((97 <=? b) && (b <=? 122) || (65 <=? b) && (b <=? 90) || (48 <=? b) && (b <=? 57))%N.

Definition hyphen : ascii := "-"%char.

(** The class [[a-zA-Z0-9_-]]. *)
Definition safeByte (c : ascii) : bool :=
  isAlnum c || Ascii.eqb c "_" || Ascii.eqb c hyphen.

Fixpoint allBytes (p : ascii -> bool) (s : string) : bool :=
  match s with
  | EmptyString => true
  | String c s' => p c && allBytes p s'
  end.

(** [[^a-zA-Z0-9_-]] replaced by a hyphen. The expression matches one
    rune: a rune outside the class is replaced as a whole, and a byte
    that starts no well-formed encoding is a rune of one byte. [skip]
    counts the bytes of the rune just replaced that are still to be
    passed over. *)
Fixpoint replaceUnsafe (skip : nat) (s : string) : string :=
  match s with
  | EmptyString => EmptyString
  | String c s' =>
      match skip with
      | S k => replaceUnsafe k s'
      | O =>
          if safeByte c then String c (replaceUnsafe 0 s')
          else String hyphen (replaceUnsafe (Nat.pred (json.runeLen s)) s')
      end
  end.

(** [strings.TrimLeft(s, "-")]. *)
Fixpoint TrimLeftHyphen (s : string) : string :=
  match s with
  | EmptyString => EmptyString
  | String c s' => if Ascii.eqb c hyphen then TrimLeftHyphen s' else s
  end.

(** [strings.Trim(s, "-")]. *)
Definition TrimHyphen (s : string) : string :=
  String.rev (TrimLeftHyphen (String.rev (TrimLeftHyphen s))).

(** [-+] replaced by one hyphen; [inRun] tells whether the byte before
    was a hyphen of the match being replaced. *)
Fixpoint collapseHyphens (inRun : bool) (s : string) : string :=
  match s with
  | EmptyString => EmptyString
  | String c s' =>
      if Ascii.eqb c hyphen then
        if inRun then collapseHyphens true s'
        else String hyphen (collapseHyphens true s')
      else String c (collapseHyphens false s')
  end.

(** [sanitizeProfileName] creates a safe profile name from user input. *)
Definition sanitizeProfileName (input : string) : string :=
  (* Only allow alphanumeric, hyphens, and underscores *)
  let safe := replaceUnsafe 0 input in
  (* Remove leading/trailing hyphens *)
  let safe := TrimHyphen safe in
  (* Collapse multiple hyphens *)
  collapseHyphens false safe.

(** The head of [run]: the configuration is loaded, then the command,
    the section and the question are taken from the arguments.
    [loaded] is what [config.Load()] returns. *)
Definition runArguments (loaded : result config.Config) (args : list string)
  : result (config.Config * string * string * string) :=
  (* Load configuration *)
  match loaded with
  | Err err => Err ("failed to load config: " +:+ err)
  | Ok cfg =>
      (* Parse command and question *)
      let '(command, section, questionParts) := manpage.ParseCommand args in
      if negb (parser.nonEmpty command) then Err "no command specified"
      else
        match questionParts with
        | [] => Err "no question specified"
        | _ => Ok (cfg, command, section, strings.Join questionParts " ")
        end
  end.

End commands.

(* ===================================================================== *)
(** * [internal/config]: profiles (config.go) *)
(* ===================================================================== *)

Module profiles.

(** [Config.Profiles]: the profiles by name. A nil map and an empty one
    are both the empty map. *)
Definition Profiles : Type := gmap string config.Profile.

(** [profile.Name = name]. *)
Definition setName (profile : config.Profile) (name : string) : config.Profile :=
  config.mkProfile name (config.Provider profile) (config.Model profile)
                   (config.ContextWindow profile).

(** The errors of [GetActiveProfile], by their format: the second one is
    [fmt.Errorf("profile %q not found", profileName)]. *)
Inductive ProfileError : Type :=
| NoProfileSpecified
| ProfileNotFound (profileName : string).

(** [GetActiveProfile] returns the active profile based on flags, env
    vars, and config. [viperProfile] is [viper.GetString("profile")]
    when [viper.IsSet("profile")], and [None] when it is not set. *)
Definition GetActiveProfile (c : config.Config) (ps : Profiles)
    (viperProfile : option string) : ProfileError + config.Profile :=
  (* Priority: CLI flag > env var > config default *)
  let chosen :=
    match viperProfile with
    | Some name => Some name
    | None => if parser.nonEmpty (config.DefaultProfile c)
              then Some (config.DefaultProfile c) else None
    end in
  match chosen with
  | None => inl NoProfileSpecified
  | Some profileName =>
      match ps !! profileName with
      | None => inl (ProfileNotFound profileName)
      | Some profile => inr (setName profile profileName)
      end
  end.

(** [AddProfile] adds or updates a profile. *)
Definition AddProfile (ps : Profiles) (name : string) (profile : config.Profile)
  : Profiles :=
  <[name := setName profile name]> ps.

(** [GetContextWindow] returns the context window for a profile,
    defaulting to 8192. *)
Definition GetContextWindow (p : config.Profile) : Z :=
  if 0 <? config.ContextWindow p then config.ContextWindow p
  else 8192. (* Default context window *)

(** [GetAPIKey] returns the API key for the given provider; [getenv] is
    [os.Getenv]. *)
Definition GetAPIKey (getenv : string -> string) (provider : string) : string :=
  (* Check provider-specific environment variables *)
  if String.eqb provider "openai" then
    let key := getenv "OPENAI_API_KEY" in
    if parser.nonEmpty key then key else ""
  else if String.eqb provider "anthropic" then
    let key := getenv "ANTHROPIC_API_KEY" in
    if parser.nonEmpty key then key else ""
  else
    (* Ollama doesn't need API key *)
    "".

End profiles.

(* ===================================================================== *)
(** * [internal/cli]: [CreateProvider] *)
(* ===================================================================== *)

Module factory.
Import os.

(** What lies outside the program when a provider is created: the
    environment, the OpenAI client for an API key, the Ollama client
    made from the environment ([api.ClientFromEnvironment] can fail),
    and what [GetModelContextWindow] learns from the Ollama server
    about a model. *)
Record Backends : Type := mkBackends {
  getenv : string -> string;
  openaiClient : string -> llm.Provider;
  ollamaClient : result ollama.OllamaProvider;
  GetModelContextWindow : ollama.OllamaProvider -> string -> result Z
}.

(** [NewOpenAIProvider] creates a new OpenAI provider. *)
Definition NewOpenAIProvider (b : Backends) (apiKey : string) : result llm.Provider :=
  if negb (parser.nonEmpty apiKey) then Err "OpenAI API key is required"
  else Ok (openaiClient b apiKey).

(** [NewOllamaProvider] creates a new Ollama provider. *)
Definition NewOllamaProvider (b : Backends) : result ollama.OllamaProvider :=
  match ollamaClient b with
  | Err err => Err ("failed to create Ollama client: " +:+ err)
  | Ok p => Ok p
  end.

(** Cap at 8k tokens for practical memory/performance reasons. *)
Definition maxPracticalContext : Z := 8192.

(** [CreateProvider] initializes a provider based on the profile
    configuration. *)
Definition CreateProvider (b : Backends) (profile : config.Profile) (verbose : bool)
  : M (result cli.ProviderConfig) :=
  if String.eqb (config.Provider profile) "openai" then
    let apiKey := profiles.GetAPIKey (getenv b) "openai" in
    if negb (parser.nonEmpty apiKey) then
      ret (Err "OpenAI API key not found. Set OPENAI_API_KEY environment variable")
    else
      match NewOpenAIProvider b apiKey with
      | Err err => ret (Err ("failed to create OpenAI provider: " +:+ err))
      | Ok provider =>
          ret (Ok (cli.mkProviderConfig provider (profiles.GetContextWindow profile)))
      end
  else if String.eqb (config.Provider profile) "ollama" then
    match NewOllamaProvider b with
    | Err err => ret (Err ("failed to create Ollama provider: " +:+ err))
    | Ok p =>
        let provider := ollama.provider p in
        (* Auto-detect context window from Ollama if not configured *)
        if config.ContextWindow profile =? 0 then
          match GetModelContextWindow b p (config.Model profile) with
          | Ok ctxWindow =>
              if maxPracticalContext <? ctxWindow then
                run* when verbose
                       (Printf ("Auto-detected context window: " +:+ fmt.Sprintf_d ctxWindow
                                +:+ " tokens (capped at "
                                +:+ fmt.Sprintf_d maxPracticalContext +:+ " for memory)")) in
                ret (Ok (cli.mkProviderConfig provider maxPracticalContext))
              else
                run* when verbose
                       (Printf ("Auto-detected context window: " +:+ fmt.Sprintf_d ctxWindow
                                +:+ " tokens")) in
                ret (Ok (cli.mkProviderConfig provider ctxWindow))
          | Err _ =>
              (* Fallback to default *)
              ret (Ok (cli.mkProviderConfig provider (profiles.GetContextWindow profile)))
          end
        else
          ret (Ok (cli.mkProviderConfig provider (config.ContextWindow profile)))
    end
  else
    ret (Err ("unsupported provider: " +:+ config.Provider profile)).

End factory.

(* ===================================================================== *)
(** * [internal/cache]: clearing the cache (cache.go) *)
(* ===================================================================== *)

Module filepath.

(** The scan of [filepath.Ext], from the last byte backwards: it stops
    at a path separator, and returns from the dot on. [r] is what is
    left of the path, reversed; [acc] the bytes passed. *)
Fixpoint extFrom (r acc : string) : string :=
  match r with
  | EmptyString => EmptyString
  | String c r' =>
      if Ascii.eqb c "/" then EmptyString
      else if Ascii.eqb c "." then String c acc
      else extFrom r' (String c acc)
  end.

(** [filepath.Ext(path)]: the suffix beginning at the final dot in the
    final element of [path]; empty if there is no dot. *)
Definition Ext (path : string) : string := extFrom (String.rev path) EmptyString.

End filepath.

Module osdir.
Import os.

(** An [os.DirEntry], as far as the cache looks at it. *)
Record DirEntry : Type := mkDirEntry {
  Name : string;
  IsDir : bool
}.

(** The first element of a relative path, and whether more follows. *)
Fixpoint firstElement (rel : string) : string * bool :=
  match rel with
  | EmptyString => (EmptyString, false)
  | String c rest =>
      if Ascii.eqb c "/" then (EmptyString, true)
      else let (name, more) := firstElement rest in (String c name, more)
  end.

(** The entry of [dir] that a file at [path] shows: the file itself
    when it lies in [dir], the sub-directory on its way when it lies
    deeper, none when it lies elsewhere. *)
Definition entryOf (dir path : string) : option DirEntry :=
  let prefix := dir +:+ "/" in
  if strings.HasPrefix path prefix then
    let (name, isDir) := firstElement (strings.drop (strings.len prefix) path) in
    if parser.nonEmpty name then Some (mkDirEntry name isDir) else None
  else None.

(** Entries are listed once, sorted by name. *)
Fixpoint insertEntry (e : DirEntry) (l : list DirEntry) : list DirEntry :=
  match l with
  | [] => [e]
  | x :: rest =>
      if String.ltb (Name e) (Name x) then e :: l
      else if String.eqb (Name e) (Name x) && Bool.eqb (IsDir e) (IsDir x) then l
      else x :: insertEntry e rest
  end.

(** The error of a path that does not exist. *)
Definition notExist (op path : string) : error :=
  op +:+ " " +:+ path +:+ ": no such file or directory".

(** The error of a path that names a file where a directory is asked
    for (the word for the operation depends on the release of Go;
    nothing below depends on it). *)
Definition notDirectory (op path : string) : error :=
  op +:+ " " +:+ path +:+ ": not a directory".

(** [os.IsNotExist(err)]. *)
Definition IsNotExist (err : error) : bool :=
  strings.HasSuffix err "no such file or directory".

(** [os.ReadDir(dir)]: the entries of the directory, sorted by file
    name. The world holds files by path: a directory is there when a
    file lies in it or below it. The call fails when the path names a
    file, when the directory cannot be read ([readDirErr]), and when
    no directory is there. *)
Definition ReadDir (dir : string) : M (result (list DirEntry)) :=
  fun w =>
    match dir with
    | EmptyString => (Err (notExist "open" dir), w)
    | _ =>
        match files w !! dir with
        | Some _ => (Err (notDirectory "open" dir), w)
        | None =>
            match readDirErr w with
            | Some err => (Err err, w)
            | None =>
                let paths := map fst (map_to_list (files w)) in
                match foldr insertEntry [] (omap (entryOf dir) paths) with
                | [] => (Err (notExist "open" dir), w)
                | entries => (Ok entries, w)
                end
            end
        end
    end.

End osdir.

Module housekeeping.
Import os osdir.

(** The files the loops of [Clear] and [CleanExpired] look at. *)
Definition isCacheFile (entry : DirEntry) : bool :=
  negb (IsDir entry) && String.eqb (filepath.Ext (Name entry)) ".json".

(** The loop of [Clear]; [removed] counts the files removed so far. *)
Fixpoint clearLoop (c : cache.Cache) (entries : list DirEntry) (removed : Z) : M Z :=
  match entries with
  | [] => ret removed
  | entry :: rest =>
      if isCacheFile entry then
        let entryPath := os.Join (cache.cacheDir c) (Name entry) in
        let* err := Remove entryPath in
        match err with
        | None => clearLoop c rest (wrap64 (removed + 1))
        | Some _ => clearLoop c rest removed
        end
      else clearLoop c rest removed
  end.

(** [Clear] removes all cached entries. *)
Definition Clear (c : cache.Cache) : M (Z * option error) :=
  let* r := ReadDir (cache.cacheDir c) in
  match r with
  | Err err =>
      if IsNotExist err then ret (0, None)
      else ret (0, Some ("failed to read cache directory: " +:+ err))
  | Ok entries =>
      let* removed := clearLoop c entries 0 in
      ret (removed, None)
  end.

(** The loop of [CleanExpired]. *)
Fixpoint cleanLoop (c : cache.Cache) (entries : list DirEntry) (removed : Z) : M Z :=
  match entries with
  | [] => ret removed
  | entry :: rest =>
      if isCacheFile entry then
        let entryPath := os.Join (cache.cacheDir c) (Name entry) in
        let* r := ReadFile entryPath in
        match r with
        | Err _ => cleanLoop c rest removed
        | Ok data =>
            match json.Unmarshal data with
            | Err _ => cleanLoop c rest removed
            | Ok cacheEntry =>
                let* expired := cache.isExpired c (cache.CreatedAt cacheEntry) in
                if expired then
                  let* err := Remove entryPath in
                  match err with
                  | None => cleanLoop c rest (wrap64 (removed + 1))
                  | Some _ => cleanLoop c rest removed
                  end
                else cleanLoop c rest removed
            end
        end
      else cleanLoop c rest removed
  end.

(** [CleanExpired] removes all expired entries. *)
Definition CleanExpired (c : cache.Cache) : M (Z * option error) :=
  let* r := ReadDir (cache.cacheDir c) in
  match r with
  | Err err =>
      if IsNotExist err then ret (0, None)
      else ret (0, Some ("failed to read cache directory: " +:+ err))
  | Ok entries =>
      let* removed := cleanLoop c entries 0 in
      ret (removed, None)
  end.

End housekeeping.

(* ===================================================================== *)
(** * Notions used to state the properties *)
(* ===================================================================== *)

(** ** Fingerprints *)

(** The field holds no colon, the delimiter of [keyData]. *)
Definition colonFree (s : string) : bool := negb (strings.Contains s ":").

(** Two triples in which the same two of the three fields hold no colon. *)
Definition separable (c1 q1 m1 c2 q2 m2 : string) : bool :=
  colonFree c1 && colonFree c2 && colonFree q1 && colonFree q2
  || colonFree c1 && colonFree c2 && colonFree m1 && colonFree m2
  || colonFree q1 && colonFree q2 && colonFree m1 && colonFree m2.

Definition isByte (b : Z) : Prop := 0 <= b < 256.

(** ** The cache *)

(** The file of the entry of a query. *)
Definition entryPath (c : cache.Cache) (command question model : string) : string :=
  os.Join (cache.cacheDir c) (cache.GenerateKey command question model +:+ ".json").

(** The text fields of a response are well-formed UTF-8. *)
Definition validText (r : llm.QueryResponse.t) : bool :=
  json.ValidString (llm.QueryResponse.Content r)
  && json.ValidString (llm.QueryResponse.Model r)
  && json.ValidString (llm.QueryResponse.Provider r).

(** ** The parser, command-only mode *)

(** The text the format check of command-only mode looks at. *)
Definition stripped (raw : string) : string :=
  strings.TrimSpace (parser.stripMarkdownCodeBlocks (strings.TrimSpace raw)).

(** A line that, trimmed, is not empty and starts with the tool name. *)
Definition qualifies (name line : string) : bool :=
  parser.nonEmpty (strings.TrimSpace line)
  && strings.HasPrefix (strings.TrimSpace line) name.

(** [cmd] is the first line of [lines] that qualifies, trimmed. *)
Definition firstQualifying (name : string) (lines : list string) (cmd : string) : Prop :=
  exists before line after,
    lines = (before ++ line :: after)%list /\
    (forall l, In l before -> qualifies name l = false) /\
    qualifies name line = true /\
    cmd = strings.TrimSpace line.

(** ** Streaming *)

(** The text of a sequence of server responses, in order. *)
Fixpoint texts (rs : list ollama.ChatResponse) : string :=
  match rs with
  | [] => EmptyString
  | r :: rest => ollama.Content r +:+ texts rest
  end.

(** The text of a sequence of chunks, in order. *)
Fixpoint chunkTexts (cs : list llm.StreamChunk.t) : string :=
  match cs with
  | [] => EmptyString
  | c :: rest => llm.StreamChunk.Content c +:+ chunkTexts rest
  end.

(** A reply that has the shape of the streaming protocol of the server:
    messages that are not done, then one done message, and no error. *)
Definition wellFormed (reply : ollama.ChatReply) (body : list ollama.ChatResponse)
    (final : ollama.ChatResponse) : Prop :=
  ollama.responses reply = (body ++ [final])%list /\
  ollama.failure reply = None /\
  Forall (fun r => ollama.Done r = false) body /\
  ollama.Done final = true.

(** ** Which parts of the world an action leaves alone *)

Section Frame.
Context {S : Type} (part : os.World -> S).

(** [m] leaves [part] of the world as it was. *)
Definition preserves {A : Type} (m : os.M A) : Prop :=
  forall w, part (snd (m w)) = part w.

End Frame.

(** What the program never changes: whether the disk can be written,
    and where the cache is. *)
Definition disk (w : os.World) : option error * option error * string :=
  (os.mkdirErr w, os.writeErr w, os.cacheDirEnv w).

(** ** Concrete data for the examples *)

Definition nl : string := String strings.LF EmptyString.

Definition home : string := "/home/u/.cache/heyman".

(** An empty, writable cache directory; no call made yet. *)
Definition emptyWorld : os.World :=
  os.mkWorld ∅ None None None (fun _ => 1700000000000000000) 0 [] [] [] false home None None.

Definition store : cache.Cache := cache.mkCache home 30.

(** The same directory, with a file that is not JSON where the entry of
    the query would be. *)
Definition corrupted : os.World :=
  os.mkWorld {[ entryPath store "ls" "how do I sort by size" "gpt-4o-mini"
                := os.Garbage "not json" ]}
             None None None (fun _ => 1700000000000000000) 0 [] [] [] false home None None.

Definition answer : llm.QueryResponse.t :=
  llm.QueryResponse.mk "ls -lhS" 1200 8 "gpt-4o-mini" "openai" false.

(** A response whose content begins with the byte FF, which is not UTF-8. *)
Definition garbled : llm.QueryResponse.t :=
  llm.QueryResponse.mk (String "255"%char "ls") 1200 8 "gpt-4o-mini" "openai" false.

(** A response that is no command of [ls], and a provider stub that
    always gives it. *)
Definition wrongAnswer : llm.QueryResponse.t :=
  llm.QueryResponse.mk "rm -rf /" 900 4 "gpt-4o-mini" "stub" false.

Definition stub : llm.Provider :=
  llm.mkProvider (fun _ _ => Ok wrongAnswer) (fun _ _ => llm.mkStream [] None) "stub" false.

Definition quietFlags : cli.Flags := cli.mkFlags false false false true.
Definition settings : config.Config := config.mkConfig "default" 30.
Definition openaiProfile : config.Profile :=
  config.mkProfile "default" "openai" "gpt-4o-mini" 0.
Definition manual : string := "LS(1) list directory contents".
Definition builder : prompt.Builder :=
  prompt.NewBuilder "ls" manual "how do I sort by size" false.

Definition ollamaProfile : config.Profile := config.mkProfile "local" "ollama" "llama3:8b" 0.
Definition request : llm.QueryRequest.t :=
  llm.QueryRequest.mk "llama3:8b" "system" "user" 2000 cli.temperature 8192 [].
Definition progress : cli.QueryOptions := cli.mkQueryOptions true false false ollamaProfile.

(** A reply of the server that follows its protocol. *)
Definition protocolReply : ollama.ChatReply :=
  ollama.mkChatReply
    [ ollama.mkChatResponse "ls" false 0 0;
      ollama.mkChatResponse " -lhS" false 0 0;
      ollama.mkChatResponse "" true 1200 8 ] None.

(** A reply whose done message carries the text. *)
Definition finalWithText : ollama.ChatReply :=
  ollama.mkChatReply [ ollama.mkChatResponse "ls -lhS" true 1200 8 ] None.

(* ===================================================================== *)
(** * Notions used to state the further properties *)
(* ===================================================================== *)

(** The text without its commas. *)
Fixpoint removeCommas (s : string) : string :=
  match s with
  | EmptyString => EmptyString
  | String c s' => if Ascii.eqb c "," then removeCommas s' else String c (removeCommas s')
  end.

(** Digits in groups of three from the right: a comma follows a digit
    exactly when the digits after it are three, six, nine, ... *)
Fixpoint thousands (digits : string) : string :=
  match digits with
  | EmptyString => EmptyString
  | String c rest =>
      let n := String.length rest in
      String c ((if (0 <? n)%nat && (n mod 3 =? 0)%nat then "," else "") +:+ thousands rest)
  end.

(** ** Profile names *)

(** All the bytes are hyphens. *)
Definition allHyphens (s : string) : bool :=
  commands.allBytes (fun c => Ascii.eqb c commands.hyphen) s.

(** The last byte is a hyphen. *)
Fixpoint lastHyphen (s : string) : bool :=
  match s with
  | EmptyString => false
  | String c EmptyString => Ascii.eqb c commands.hyphen
  | String _ s' => lastHyphen s'
  end.

(** The four marks of a clean profile name. *)
Definition cleanName (s : string) : bool :=
  commands.allBytes commands.safeByte s && negb (strings.HasPrefix s "-")
  && negb (strings.HasSuffix s "-") && negb (strings.Contains s "--").


(** ** Backends for the examples *)

(** An Ollama server that answers with [protocolReply] and reports a
    context window of 131072 tokens for every model. *)
Definition localServer : ollama.OllamaProvider :=
  ollama.mkOllamaProvider (fun _ _ => protocolReply).

(** No API key in the environment; the Ollama server above. *)
Definition cloud : factory.Backends :=
  factory.mkBackends (fun _ => "") (fun _ => stub) (Ok localServer)
                     (fun _ _ => Ok 131072).

(** ** The parser, both modes *)

(** What explain mode makes of a line before it looks for the tool name. *)
Definition candidate (line : string) : string :=
  strings.TrimSpace (parser.stripMarkdownCodeBlocks (strings.TrimSpace line)).

(** A line that explain mode takes as the command: not blank, and its
    candidate starts with the tool name. *)
Definition startsCommand (name line : string) : bool :=
  parser.nonEmpty (strings.TrimSpace line) && strings.HasPrefix (candidate line) name.

(** No byte of the text is a backtick. *)
Definition plain (s : string) : bool :=
  commands.allBytes (fun c => negb (Ascii.eqb c "`")) s.

(** The sentence the system prompts tell the model to answer with when
    the man page does not hold the answer. *)
Definition refusalSentence : string := "I " +:+ parser.refusal.

(** ** Fingerprints *)

(** A lower-case hexadecimal digit. *)
Definition isHexLower (c : ascii) : bool :=
  let b := N_of_ascii c in
  ((48 <=? b) && (b <=? 57) || (97 <=? b) && (b <=? 102))%N.

(** ** A cache that holds the answer *)

(** The entry [Set] writes for the answer, and the world after it. *)
Definition stockedEntry : cache.Entry :=
  cache.mkEntry (cache.GenerateKey "ls" "how do I sort by size" "gpt-4o-mini")
                "ls" "how do I sort by size" "gpt-4o-mini" (Some answer)
                1700000000000000000 1700000000000000000 1.

Definition stocked : os.World :=
  snd (cache.Set_ store "ls" "how do I sort by size" "gpt-4o-mini" answer emptyWorld).

(** ** Runs *)

(** The call [queryWithCache] makes when it asks the provider: the
    request it prepares, streamed when progress is shown. *)
Definition firstCall (fl : cli.Flags) (providerConfig : cli.ProviderConfig)
    (promptBuilder : prompt.Builder) (activeProfile : config.Profile) : llm.Call :=
  let req := cli.originalRequest providerConfig promptBuilder activeProfile in
  if negb (cli.quiet fl) && negb (cli.verbose fl) && negb (cli.debug fl)
  then llm.CallStreamQuery req else llm.CallQuery req.

(** The options [queryWithCache] executes the query with. *)
Definition queryOptions (fl : cli.Flags) (activeProfile : config.Profile) : cli.QueryOptions :=
  cli.mkQueryOptions (negb (cli.quiet fl) && negb (cli.verbose fl) && negb (cli.debug fl))
                     (cli.verbose fl) (cli.debug fl) activeProfile.

(** A provider that always gives the right answer. *)
Definition oracle : llm.Provider :=
  llm.mkProvider (fun _ _ => Ok answer) (fun _ _ => llm.mkStream [] None) "oracle" false.

(** The flags of a run that bypasses the cache and shows no progress. *)
Definition bypassFlags : cli.Flags := cli.mkFlags true false false true.

(** The same cache forty days later. *)
Definition later : os.World :=
  os.mkWorld (os.files stocked) None None None (fun _ => 1703456000000000000) 0 [] [] []
             false home None None.

(** ** The cache directory *)

(** No byte of the name is a path separator. *)
Definition noSlash (s : string) : bool :=
  commands.allBytes (fun c => negb (Ascii.eqb c "/")) s.

(** The directory can be read when it is there: its path names no file,
    and reading it does not fail. *)
Definition readable (dir : string) (w : os.World) : Prop :=
  os.files w !! dir = None /\ os.readDirErr w = None.

(** A cache directory with the entry of the answer, a file that is not
    JSON, a file that is no cache file, and a file in a sub-directory. *)
Definition crowded : os.World :=
  os.mkWorld (<[home +:+ "/broken.json" := os.Garbage "not json"]>
               (<[home +:+ "/notes.txt" := os.Garbage "remember"]>
                 (<[home +:+ "/old/x.json" := os.Garbage "old notes"]> (os.files stocked))))
             None None None (fun _ => 1700000000000000000) 0 [] [] [] false home None None.

(** The stocked cache in a directory that cannot be read. *)
Definition sealed : os.World :=
  os.mkWorld (os.files stocked) None None None (fun _ => 1700000000000000000) 0 [] [] []
             false home None (Some "open /home/u/.cache/heyman: permission denied").

(** ** Code fences and refusals *)

(** A command in a code fence with a language tag. *)
Definition fenced (lang cmd : string) : string :=
  parser.fence +:+ lang +:+ nl +:+ cmd +:+ nl +:+ parser.fence.

(** No byte of the text is a line feed. *)
Definition oneLine (s : string) : bool :=
  commands.allBytes (fun c => negb (Ascii.eqb c strings.LF)) s.

(** An ASCII byte that is no white space: it occurs in no white-space
    rune. *)
Definition plainByte (c : ascii) : bool :=
  (strings.byteval c <? 128)%N && negb (strings.asciiSpace c).

(* ===================================================================== *)
(** * Verification *)
(* ===================================================================== *)

#[local] Arguments String.append : simpl nomatch.

(** ** Strings *)

Lemma HasPrefix_nil s : strings.HasPrefix s "" = true.
Proof. destruct s; reflexivity. Qed.

Lemma append_nil_r (s : string) : s +:+ "" = s.
Proof. induction s; simpl; congruence. Qed.

Lemma append_assoc (a b c : string) : (a +:+ b) +:+ c = a +:+ b +:+ c.
Proof. induction a; simpl; congruence. Qed.

(** ** The fingerprint ([GenerateKey]) *)

Section Fingerprint.

Lemma colonFree_cons c s :
  colonFree (String c s) = negb (Ascii.eqb c ":") && colonFree s.
Proof.
  unfold colonFree. simpl. rewrite HasPrefix_nil, andb_true_r.
  destruct (Ascii.eqb c ":"); reflexivity.
Qed.

Lemma colonFree_app_colon u v : colonFree (u +:+ ":" +:+ v) = false.
Proof.
  induction u as [|c u IH]; simpl.
  - rewrite colonFree_cons. reflexivity.
  - rewrite colonFree_cons. simpl in IH. rewrite IH. apply andb_false_r.
Qed.

(** A field without colon ends at the first colon of the data. *)
Lemma split_first a b x y :
  colonFree a = true -> colonFree b = true ->
  a +:+ ":" +:+ x = b +:+ ":" +:+ y -> a = b /\ x = y.
Proof.
  revert b. induction a as [|c a IH]; intros [|d b] Ha Hb H; simpl in H.
  - injection H as ->. auto.
  - injection H as <- _. rewrite colonFree_cons in Hb. discriminate.
  - injection H as -> _. rewrite colonFree_cons in Ha. discriminate.
  - injection H as -> H. rewrite colonFree_cons in Ha, Hb.
    apply andb_true_iff in Ha as [_ Ha]. apply andb_true_iff in Hb as [_ Hb].
    destruct (IH b Ha Hb H) as [-> ->]. auto.
Qed.

(** A field without colon begins after the last colon of the data. *)
Lemma split_last x y a b :
  colonFree a = true -> colonFree b = true ->
  x +:+ ":" +:+ a = y +:+ ":" +:+ b -> x = y /\ a = b.
Proof.
  intros Ha Hb. revert y. induction x as [|c x IH]; intros [|d y] H; simpl in H.
  - injection H as ->. auto.
  - injection H as _ H. subst a.
    pose proof (colonFree_app_colon y b) as E. simpl in E. congruence.
  - injection H as _ H. subst b.
    pose proof (colonFree_app_colon x a) as E. simpl in E. congruence.
  - injection H as -> H. destruct (IH y H) as [-> ->]. auto.
Qed.

Lemma keyData_inj c1 q1 m1 c2 q2 m2 :
  separable c1 q1 m1 c2 q2 m2 = true ->
  cache.keyData c1 q1 m1 = cache.keyData c2 q2 m2 ->
  (c1, q1, m1) = (c2, q2, m2).
Proof.
  unfold separable, cache.keyData. intros Hs H.
  apply orb_true_iff in Hs as [Hs|Hs]; [apply orb_true_iff in Hs as [Hs|Hs]|];
    apply andb_true_iff in Hs as [Hs H4]; apply andb_true_iff in Hs as [Hs H3];
    apply andb_true_iff in Hs as [H1 H2].
  - destruct (split_first _ _ _ _ H1 H2 H) as [-> H'].
    destruct (split_first _ _ _ _ H3 H4 H') as [-> ->]. reflexivity.
  - destruct (split_first _ _ _ _ H1 H2 H) as [-> H'].
    destruct (split_last _ _ _ _ H3 H4 H') as [-> ->]. reflexivity.
  - rewrite <- (append_assoc c1 ":" (q1 +:+ ":" +:+ m1)) in H.
    rewrite <- (append_assoc c2 ":" (q2 +:+ ":" +:+ m2)) in H.
    rewrite <- (append_assoc (c1 +:+ ":") q1), <- (append_assoc (c2 +:+ ":") q2) in H.
    destruct (split_last _ _ _ _ H3 H4 H) as [H' ->].
    rewrite !append_assoc in H'.
    destruct (split_last _ _ _ _ H1 H2 H') as [-> ->]. reflexivity.
Qed.

Lemma land_255_byte x : isByte (Z.land x 255).
Proof.
  unfold isByte. change 255 with (Z.ones 8). rewrite Z.land_ones by lia.
  change (2 ^ 8) with 256. apply Z.mod_pos_bound. lia.
Qed.

Lemma be_bytes_bytes n x : Forall isByte (sha256.be_bytes n x).
Proof.
  unfold sha256.be_bytes. apply List.Forall_forall. intros b Hb.
  apply List.in_map_iff in Hb as (i & <- & _). apply land_255_byte.
Qed.

(** The digest is a sequence of bytes. *)
Lemma Sum256_bytes data : Forall isByte (sha256.Sum256 data).
Proof.
  unfold sha256.Sum256. apply List.Forall_forall. intros b Hb.
  apply List.in_concat in Hb as (l & Hl & Hb).
  apply List.in_map_iff in Hl as (x & <- & _).
  pose proof (be_bytes_bytes 4 x) as F.
  rewrite List.Forall_forall in F. auto.
Qed.

Lemma hexdigit_inj a b :
  0 <= a < 16 -> 0 <= b < 16 -> fmt.hexdigit a = fmt.hexdigit b -> a = b.
Proof.
  intros Ha Hb H. apply (f_equal N_of_ascii) in H. unfold fmt.hexdigit in H.
  destruct (a <? 10) eqn:Ea; destruct (b <? 10) eqn:Eb;
    rewrite ?Z.ltb_lt, ?Z.ltb_ge in Ea, Eb;
    rewrite !N_ascii_embedding in H by lia; lia.
Qed.

(** The hexadecimal rendering loses nothing. *)
Lemma Sprintf_x_inj bs1 bs2 :
  Forall isByte bs1 -> Forall isByte bs2 ->
  fmt.Sprintf_x bs1 = fmt.Sprintf_x bs2 -> bs1 = bs2.
Proof.
  intros F1. revert bs2. induction F1 as [|b1 bs1 Hb1 _ IH]; intros bs2 F2 H.
  - destruct F2; [reflexivity|discriminate].
  - destruct F2 as [|b2 bs2 Hb2 F2]; [discriminate|].
    simpl in H. injection H as Hh Hl H. unfold isByte in *.
    apply hexdigit_inj in Hh;
      [|split; [apply Z.div_pos|apply Z.div_lt_upper_bound]; lia ..].
    apply hexdigit_inj in Hl; [|apply Z.mod_pos_bound; lia ..].
    f_equal; [|auto].
    rewrite (Z.div_mod b1 16), (Z.div_mod b2 16) by lia. congruence.
Qed.

(** The fingerprint is a function of the triple. *)
Lemma GenerateKey_deterministic c1 q1 m1 c2 q2 m2 :
  (c1, q1, m1) = (c2, q2, m2) ->
  cache.GenerateKey c1 q1 m1 = cache.GenerateKey c2 q2 m2.
Proof. now intros [= -> -> ->]. Qed.

(** The constants are those of FIPS 180-4. *)
Example K_ends :
  hd 0 sha256.K = 0x428a2f98 /\ List.last sha256.K 0 = 0xc67178f2 /\
  hd 0 sha256.H0 = 0x6a09e667 /\ List.last sha256.H0 0 = 0x5be0cd19.
Proof. vm_compute. repeat split. Qed.

(** The digests of the test vectors of FIPS 180-4, and of a query. *)
Example Sum256_abc :
  fmt.Sprintf_x (sha256.Sum256 "abc")
  = "ba7816bf8f01cfea414140de5dae2223b00361a396177a9cb410ff61f20015ad".
Proof. vm_compute. reflexivity. Qed.

Example Sum256_two_blocks :
  fmt.Sprintf_x
    (sha256.Sum256 "abcdbcdecdefdefgefghfghighijhijkijkljklmklmnlmnomnopnopq")
  = "248d6a61d20638b8e5c026930c3e6039a33ce45964ff2167f6ecedd419db06c1".
Proof. vm_compute. reflexivity. Qed.

Example GenerateKey_query :
  cache.GenerateKey "ls" "how do I sort by size" "gpt-4o-mini"
  = "f0c55d6b450b551a3e52ddf8607646b51a85135e0c1500a2d08849f156f0980e".
Proof. vm_compute. reflexivity. Qed.

(** C1, as the code has it. Two distinct triples in which the same two
    of the three fields hold no colon have distinct digest inputs, and
    their fingerprints are equal only if SHA-256 gives both inputs the
    same digest (a collision of the hash function). *)
Theorem GenerateKey_separates c1 q1 m1 c2 q2 m2 :
  separable c1 q1 m1 c2 q2 m2 = true ->
  (c1, q1, m1) <> (c2, q2, m2) ->
  cache.keyData c1 q1 m1 <> cache.keyData c2 q2 m2 /\
  (cache.GenerateKey c1 q1 m1 = cache.GenerateKey c2 q2 m2 ->
   sha256.Sum256 (cache.keyData c1 q1 m1) = sha256.Sum256 (cache.keyData c2 q2 m2)).
Proof.
  intros Hs Hne. split.
  - intros H. apply Hne. now apply keyData_inj.
  - unfold cache.GenerateKey. apply Sprintf_x_inj; apply Sum256_bytes.
Qed.

(** The question of the specification asked of two models: the digest
    inputs differ, and so do the fingerprints. *)
Lemma GenerateKey_separates_witness :
  separable "ls" "how do I sort by size" "gpt-4o-mini"
            "ls" "how do I sort by size" "gpt-4o" = true /\
  cache.keyData "ls" "how do I sort by size" "gpt-4o-mini"
    <> cache.keyData "ls" "how do I sort by size" "gpt-4o" /\
  cache.GenerateKey "ls" "how do I sort by size" "gpt-4o-mini"
    <> cache.GenerateKey "ls" "how do I sort by size" "gpt-4o".
Proof.
  assert (Hs : separable "ls" "how do I sort by size" "gpt-4o-mini"
                         "ls" "how do I sort by size" "gpt-4o" = true)
    by (vm_compute; reflexivity).
  assert (Hne : ("ls", "how do I sort by size", "gpt-4o-mini")
                <> ("ls", "how do I sort by size", "gpt-4o"))
    by (intros E; inversion E).
  destruct (GenerateKey_separates _ _ _ _ _ _ Hs Hne) as [Hd Hk].
  split; [exact Hs|]. split; [exact Hd|].
  intros H. specialize (Hk H). clear H. vm_compute in Hk. inversion Hk.
Defined.

(** C1, as stated, fails: a colon in a field moves the border between
    two fields. Two distinct triples (the model tag of one holds a colon)
    have the same digest input, hence the same fingerprint. *)
Lemma GenerateKey_colon_collision :
  ("ls", "sort by size", "llama3:8b") <> ("ls", "sort by size:llama3", "8b") /\
  cache.keyData "ls" "sort by size" "llama3:8b"
    = cache.keyData "ls" "sort by size:llama3" "8b" /\
  cache.GenerateKey "ls" "sort by size" "llama3:8b"
    = cache.GenerateKey "ls" "sort by size:llama3" "8b".
Proof.
  assert (E : cache.keyData "ls" "sort by size" "llama3:8b"
              = cache.keyData "ls" "sort by size:llama3" "8b")
    by (vm_compute; reflexivity).
  split; [intros H; inversion H|]. split; [exact E|].
  unfold cache.GenerateKey. rewrite E. reflexivity.
Qed.

End Fingerprint.

(** ** The parser, command-only mode *)

Section CommandOnly.
Import strings parser.

Lemma firstCommandLine_prefix name lines line :
  firstCommandLine name lines = Some line -> HasPrefix line name = true.
Proof.
  induction lines as [|l ls IH]; simpl; [discriminate|].
  destruct (nonEmpty (TrimSpace l) && HasPrefix (TrimSpace l) name) eqn:E; [|exact IH].
  intros [= <-]. now apply andb_true_iff in E.
Qed.

(** The loop returns the first line that qualifies. *)
Lemma firstCommandLine_first name lines cmd :
  firstQualifying name lines cmd -> firstCommandLine name lines = Some cmd.
Proof.
  intros (before & line & after & -> & Hb & Hq & ->).
  induction before as [|b before IH]; simpl.
  - unfold qualifies in Hq. now rewrite Hq.
  - assert (Eb : qualifies name b = false) by (apply Hb; now left).
    unfold qualifies in Eb. rewrite Eb. apply IH.
    intros l Hl. apply Hb. now right.
Qed.

Lemma firstCommandLine_none name lines :
  (forall l, In l lines -> qualifies name l = false) ->
  firstCommandLine name lines = None.
Proof.
  induction lines as [|l ls IH]; intros H; simpl; [reflexivity|].
  assert (El : qualifies name l = false) by (apply H; now left).
  unfold qualifies in El. rewrite El. apply IH. intros x Hx. apply H. now right.
Qed.

Lemma Parse_default name raw :
  Parse (New name false) raw = parseDefaultMode (New name false) (TrimSpace raw).
Proof. reflexivity. Qed.

(** The examples of the specification. *)
Example Parse_ls_sorted :
  Parse (New "ls" false) ("ls -lhS" +:+ nl) = valid "ls -lhS" "".
Proof. vm_compute. reflexivity. Qed.

Example Parse_refusal :
  Parse (New "ls" false) "I cannot find this information in the man page"
  = invalid "information not found in man page".
Proof. vm_compute. reflexivity. Qed.

Example Parse_wrong_prefix :
  Parse (New "ls" false) "rm -rf /"
  = invalid "response does not start with command 'ls'".
Proof. vm_compute. reflexivity. Qed.

Example Parse_fenced :
  Parse (New "ls" false) ("```bash" +:+ nl +:+ "ls -l" +:+ nl +:+ "```")
  = valid "ls -l" "".
Proof. vm_compute. reflexivity. Qed.

Example Parse_explain :
  Parse (New "tar" true)
        ("tar -czf out.tar.gz dir" +:+ nl +:+ nl +:+ "This creates a compressed archive.")
  = valid "tar -czf out.tar.gz dir" "This creates a compressed archive.".
Proof. vm_compute. reflexivity. Qed.

(** What command-only mode checks. Every accepted command has the tool
    name as a prefix of its bytes (the byte after it is not looked at),
    and a text that, trimmed and stripped of its code fence, does not
    begin with the tool name is rejected. *)
Theorem parse_default_prefix name raw :
  let r := Parse (New name false) raw in
  (Valid r = true -> HasPrefix (Command r) name = true) /\
  (HasPrefix (stripped raw) name = false -> Valid r = false).
Proof.
  cbv zeta. rewrite Parse_default. unfold parseDefaultMode, stripped. simpl commandName.
  destruct (Contains (TrimSpace raw) refusal); [split; [discriminate|reflexivity]|].
  destruct (HasPrefix (TrimSpace (stripMarkdownCodeBlocks (TrimSpace raw))) name) eqn:Ep;
    simpl negb; cbv iota; [|split; [discriminate|reflexivity]].
  destruct (1 <? _)%nat.
  - destruct (firstCommandLine name _) as [line|] eqn:Ef; simpl.
    + split; [intros _; eapply firstCommandLine_prefix; eassumption|discriminate].
    + split; [discriminate|reflexivity].
  - simpl. split; [intros _; exact Ep|discriminate].
Qed.

(** C3: the code at a command whose first word only begins with the
    tool name. For the tool [ls] the text [lsblk -a] is accepted, and
    the first token of the command is [lsblk], another word than the
    tool name. [ValidateCommand] of the same file, which compares the
    first token with the tool name, refuses that command; [Parse] never
    calls it. *)
Lemma parse_default_accepts_other_word :
  let r := Parse (New "ls" false) "lsblk -a" in
  Valid r = true /\ Command r = "lsblk -a" /\
  Fields (Command r) = ["lsblk"; "-a"] /\
  String.eqb "lsblk" "ls" = false /\
  ValidateCommand (New "ls" false) (Command r)
    = Some "command does not start with 'ls', got 'lsblk'".
Proof. vm_compute. repeat split. Qed.

(** C5, as the code has it. In command-only mode, for a text that passes
    the refusal check: when the text, trimmed and stripped of its code
    fence, does not begin with the tool name the result is invalid,
    whatever its lines are; when it does and has one line, that line is
    the command; when it does and has several lines, the result is valid
    and the command is the first line that, trimmed, is not empty and
    starts with the tool name, and the result is invalid if no line
    qualifies. *)
Theorem parse_default_multiline name raw :
  Contains (TrimSpace raw) refusal = false ->
  let r := Parse (New name false) raw in
  let lines := SplitLines (stripped raw) in
  (HasPrefix (stripped raw) name = false -> Valid r = false) /\
  (HasPrefix (stripped raw) name = true -> (List.length lines <= 1)%nat ->
   Valid r = true /\ Command r = stripped raw) /\
  (HasPrefix (stripped raw) name = true -> (1 < List.length lines)%nat ->
   forall cmd, firstQualifying name lines cmd -> Valid r = true /\ Command r = cmd) /\
  (HasPrefix (stripped raw) name = true -> (1 < List.length lines)%nat ->
   (forall l, In l lines -> qualifies name l = false) -> Valid r = false).
Proof.
  intros Hr. cbv zeta. rewrite Parse_default. unfold parseDefaultMode.
  rewrite Hr. fold (stripped raw). simpl commandName.
  split; [|split; [|split]].
  - intros ->. reflexivity.
  - intros -> Hn. simpl negb. cbv iota.
    apply Nat.ltb_ge in Hn. rewrite Hn. split; reflexivity.
  - intros -> Hn cmd Hc. simpl negb. cbv iota.
    apply Nat.ltb_lt in Hn. rewrite Hn.
    rewrite (firstCommandLine_first _ _ _ Hc). split; reflexivity.
  - intros -> Hn Hnone. simpl negb. cbv iota.
    apply Nat.ltb_lt in Hn. rewrite Hn.
    rewrite (firstCommandLine_none _ _ Hnone). reflexivity.
Qed.

(** Two lines that both qualify: the first one is the command. *)
Lemma parse_default_multiline_witness :
  Valid (Parse (New "ls" false) ("ls -lhS" +:+ nl +:+ "ls -a")) = true /\
  Command (Parse (New "ls" false) ("ls -lhS" +:+ nl +:+ "ls -a")) = "ls -lhS".
Proof.
  destruct (parse_default_multiline "ls" ("ls -lhS" +:+ nl +:+ "ls -a"))
    as (_ & _ & H & _).
  - vm_compute. reflexivity.
  - apply H.
    + vm_compute. reflexivity.
    + vm_compute. lia.
    + exists [], "ls -lhS", ["ls -a"].
      split; [vm_compute; reflexivity|].
      split; [intros l []|].
      split; vm_compute; reflexivity.
Defined.

(** C5, as stated, fails: the text passes the refusal check and its
    second line is a command of [ls], but the text begins with a
    sentence, and the result is invalid. *)
Lemma parse_default_rejects_preamble :
  let raw := "Here you go:" +:+ nl +:+ "ls -l" in
  Contains (TrimSpace raw) refusal = false /\
  SplitLines (stripped raw) = ["Here you go:"; "ls -l"] /\
  qualifies "ls" "ls -l" = true /\
  Valid (Parse (New "ls" false) raw) = false.
Proof. vm_compute. repeat split. Qed.

End CommandOnly.

(** ** The cache store *)

Section CacheStore.
Import os.

Lemma bind_eq {A B} (m : M A) (k : A -> M B) w :
  bind m k w = k (fst (m w)) (snd (m w)).
Proof. unfold bind. now destruct (m w). Qed.

Lemma ReadFile_found path data w :
  files w !! path = Some data -> ReadFile path w = (Ok data, w).
Proof. intros H. unfold ReadFile. now rewrite H. Qed.

(** A file that does not decode: a miss, and the world is as before. *)
Lemma Get_unparsable c command question model bytes w :
  files w !! entryPath c command question model = Some (Garbage bytes) ->
  cache.Get c command question model w = (None, w).
Proof.
  intros H. unfold cache.Get, bind, ReadFile. fold (entryPath c command question model).
  rewrite H. reflexivity.
Qed.

(** C4: the code at a file that is not JSON. [Get] reports a miss (and
    can return no error), but the file is still there afterwards. The
    paths for an expired entry and for an entry without response remove
    the file; the path for a decode error returns before any removal. *)
Theorem Get_unparsable_keeps_file :
  let (r, w') := cache.Get store "ls" "how do I sort by size" "gpt-4o-mini" corrupted in
  r = None /\
  files w' !! entryPath store "ls" "how do I sort by size" "gpt-4o-mini"
    = Some (Garbage "not json").
Proof.
  assert (H : files corrupted !! entryPath store "ls" "how do I sort by size" "gpt-4o-mini"
              = Some (Garbage "not json")).
  { unfold corrupted. cbn [files]. apply lookup_singleton_eq. }
  rewrite (Get_unparsable _ _ _ _ _ _ H). split; [reflexivity|exact H].
Qed.

(** The sibling paths do remove the file: an entry without response. *)
Lemma Get_nil_response_removes c command question model e w :
  files w !! entryPath c command question model = Some (EntryJSON e) ->
  cache.Response e = None ->
  fst (cache.isExpired c (cache.CreatedAt e) w) = false ->
  removeErr w = None ->
  exists w',
    cache.Get c command question model w = (None, w') /\
    files w' !! entryPath c command question model = None.
Proof.
  intros H Hr Hfresh Hrm. unfold cache.Get. rewrite bind_eq.
  fold (entryPath c command question model). rewrite (ReadFile_found _ _ _ H).
  cbn [fst snd json.Unmarshal].
  rewrite bind_eq, Hfresh, Hr, bind_eq.
  assert (Hw : forall w0, files (snd (cache.isExpired c (cache.CreatedAt e) w0)) = files w0
                          /\ removeErr (snd (cache.isExpired c (cache.CreatedAt e) w0))
                             = removeErr w0).
  { intros w0. unfold cache.isExpired. destruct (cache.maxAgeDays c <=? 0); split; reflexivity. }
  destruct (Hw w) as [Hf Hre].
  eexists. split; [reflexivity|].
  unfold Remove. cbv beta. rewrite Hf, H, Hre, Hrm. cbn [snd files withFiles].
  apply lookup_delete_eq.
Qed.

(** An expired entry: a miss, and the file is removed. *)
Lemma Get_expired_removes c command question model e w :
  files w !! entryPath c command question model = Some (EntryJSON e) ->
  fst (cache.isExpired c (cache.CreatedAt e) w) = true ->
  removeErr w = None ->
  exists w',
    cache.Get c command question model w = (None, w') /\
    files w' !! entryPath c command question model = None.
Proof.
  intros H Hold Hrm. unfold cache.Get. rewrite bind_eq.
  fold (entryPath c command question model). rewrite (ReadFile_found _ _ _ H).
  cbn [fst snd json.Unmarshal].
  rewrite bind_eq, Hold, bind_eq.
  assert (Hw : files (snd (cache.isExpired c (cache.CreatedAt e) w)) = files w
               /\ removeErr (snd (cache.isExpired c (cache.CreatedAt e) w)) = removeErr w).
  { unfold cache.isExpired. destruct (cache.maxAgeDays c <=? 0); split; reflexivity. }
  destruct Hw as [Hf Hre].
  eexists. split; [reflexivity|].
  unfold Remove. cbv beta. rewrite Hf, H, Hre, Hrm. cbn [snd files withFiles].
  apply lookup_delete_eq.
Qed.

Lemma validFrom_coerceFrom k s :
  json.validFrom k s = true -> json.coerceFrom k s = s.
Proof.
  revert k. induction s as [|c s IH]; intros k H; [reflexivity|].
  destruct k as [|k]; cbn [json.validFrom json.coerceFrom] in *.
  - destruct (json.runeLen (String c s)); [discriminate|].
    f_equal. now apply IH.
  - f_equal. now apply IH.
Qed.

(** Well-formed UTF-8 goes through the JSON file unchanged. *)
Lemma ValidString_coerce s : json.ValidString s = true -> json.coerce s = s.
Proof. apply validFrom_coerceFrom. Qed.

Lemma coerceResponse_valid r : validText r = true -> json.coerceResponse r = r.
Proof.
  unfold validText. intros H.
  apply andb_true_iff in H as [H Hp]. apply andb_true_iff in H as [Hc Hm].
  destruct r as [content ti to model prov cached]. unfold json.coerceResponse. simpl in *.
  now rewrite !ValidString_coerce.
Qed.

(** [Set] on a disk that can be written. *)
Lemma Set_writes c command question model r w :
  mkdirErr w = None -> writeErr w = None ->
  cache.Set_ c command question model r w
  = (None,
     withFiles (withTicks (withTicks w (S (ticks w))) (S (S (ticks w))))
       (<[entryPath c command question model :=
            json.MarshalIndent
              (cache.mkEntry (cache.GenerateKey command question model)
                 command question model (Some r)
                 (clock w (ticks w)) (clock w (S (ticks w))) 1)]> (files w))).
Proof.
  intros Hm Hw.
  unfold cache.Set_, cache.saveEntry, bind, Now, MkdirAll, WriteFile, ret.
  cbn [mkdirErr withTicks]. rewrite Hm. cbn [writeErr withTicks]. rewrite Hw.
  reflexivity.
Qed.

Lemma saveEntry_ok c e w w1 :
  cache.saveEntry c e w = (None, w1) ->
  w1 = withFiles w (<[os.Join (cache.cacheDir c) (cache.Key e +:+ ".json")
                      := json.MarshalIndent e]> (files w)).
Proof.
  unfold cache.saveEntry, bind, MkdirAll, WriteFile, ret.
  destruct (mkdirErr w); [discriminate|].
  destruct (writeErr w); [destruct (torn w); discriminate|].
  now intros [= <-].
Qed.

(** What a successful [Set] leaves in the file of the query. *)
Lemma Set_written c command question model R w w1 :
  cache.Set_ c command question model R w = (None, w1) ->
  files w1 !! entryPath c command question model
    = Some (json.MarshalIndent
              (cache.mkEntry (cache.GenerateKey command question model)
                 command question model (Some R)
                 (clock w (ticks w)) (clock w (S (ticks w))) 1)).
Proof.
  unfold cache.Set_, bind, Now. intros H. apply saveEntry_ok in H. subst w1.
  cbn [files withFiles withTicks clock ticks cache_types.Key cache.cacheDir].
  apply lookup_insert_eq.
Qed.

(** C6, as the code has it. When [Set] succeeds and the entry has not
    expired when [Get] looks at it, [Get] finds the entry and returns
    the response as the JSON file holds it, with the cache flag true:
    the token counts are those stored, and the content, model and
    provider are those stored with every byte that is not well-formed
    UTF-8 replaced by U+FFFD. For a response whose text is well-formed
    UTF-8 this is the response stored, in all fields except the cache
    flag. *)
Theorem Set_Get_roundtrip c command question model R w w1 :
  cache.Set_ c command question model R w = (None, w1) ->
  fst (cache.isExpired c (clock w (ticks w)) w1) = false ->
  exists w2 R',
    cache.Get c command question model w1 = (Some R', w2) /\
    R' = llm.QueryResponse.setCached (json.coerceResponse R) /\
    (validText R = true -> R' = llm.QueryResponse.setCached R).
Proof.
  intros Hset Hfresh. apply Set_written in Hset.
  unfold cache.Get, bind, ReadFile. fold (entryPath c command question model).
  rewrite Hset. unfold json.MarshalIndent.
  cbn [json.Unmarshal cache_types.CreatedAt cache_types.Response option_map].
  destruct (cache.isExpired c (clock w (ticks w)) w1) as [expired w'].
  simpl in Hfresh. subst expired. unfold Now, ret.
  destruct (cache.saveEntry _ _ _) as [? w2].
  exists w2, (llm.QueryResponse.setCached (json.coerceResponse R)).
  split; [reflexivity|]. split; [reflexivity|].
  intros Hvalid. now rewrite (coerceResponse_valid _ Hvalid).
Qed.

(** An answer is stored in an empty cache and read back. *)
Lemma Set_Get_roundtrip_witness :
  exists w2,
    cache.Get store "ls" "how do I sort by size" "gpt-4o-mini"
      (snd (cache.Set_ store "ls" "how do I sort by size" "gpt-4o-mini" answer emptyWorld))
    = (Some (llm.QueryResponse.setCached answer), w2).
Proof.
  destruct (Set_Get_roundtrip store "ls" "how do I sort by size" "gpt-4o-mini" answer
              emptyWorld
              (snd (cache.Set_ store "ls" "how do I sort by size" "gpt-4o-mini" answer
                      emptyWorld)))
    as (w2 & R' & Hget & _ & Hsame).
  - vm_compute. reflexivity.
  - vm_compute. reflexivity.
  - exists w2. rewrite Hget, Hsame; [reflexivity|]. vm_compute. reflexivity.
Defined.

(** C6, as stated, fails: the encoder writes a byte that is not UTF-8 as
    U+FFFD. [Set] succeeds, nothing expires, [Get] finds the entry, and
    the content of the response is not the content that was stored. *)
Lemma Set_Get_not_utf8 :
  let (err, w1) := cache.Set_ store "ls" "how do I sort by size" "gpt-4o-mini" garbled emptyWorld in
  err = None /\
  fst (cache.isExpired store (clock emptyWorld (ticks emptyWorld)) w1) = false /\
  exists r,
    fst (cache.Get store "ls" "how do I sort by size" "gpt-4o-mini" w1) = Some r /\
    llm.QueryResponse.Content r = json.replacement +:+ "ls" /\
    llm.QueryResponse.Content r <> llm.QueryResponse.Content garbled.
Proof.
  vm_compute. split; [reflexivity|]. split; [reflexivity|].
  eexists. split; [reflexivity|]. split; [reflexivity|]. intros H. inversion H.
Qed.

End CacheStore.

(** ** Streaming and blocking execution *)

Section Streaming.
Import os.

(** The accumulation of the executor, for any provider: the texts of the
    chunks before the terminal chunk, in order, and the token counts of
    the terminal chunk; what follows the terminal chunk is not read. *)
Lemma streamLoop_accumulates model body terminal rest failure :
  Forall (fun c => llm.StreamChunk.IsComplete c = false) body ->
  llm.StreamChunk.IsComplete terminal = true ->
  forall content first w,
  exists w',
    cli.streamLoop model (body ++ terminal :: rest)%list failure content first w
    = (Ok (content +:+ chunkTexts body,
           llm.StreamChunk.TokensInput terminal,
           llm.StreamChunk.TokensOutput terminal), w').
Proof.
  intros F Ht. induction F as [|c body Hc _ IH]; intros content first w.
  - cbn [app cli.streamLoop chunkTexts]. rewrite Ht, append_nil_r.
    cbn [negb]. rewrite andb_false_r. unfold bind, when, ret. eexists. reflexivity.
  - cbn [app cli.streamLoop chunkTexts]. rewrite Hc. cbn [negb].
    rewrite andb_true_r. unfold bind at 1.
    destruct (when first _ w) as [[] w1].
    destruct (IH (content +:+ llm.StreamChunk.Content c) (if first then false else first) w1)
      as (w' & E).
    exists w'. rewrite E, append_assoc. reflexivity.
Qed.

(** When the chunks end without a terminal chunk and [select] takes the
    error channel, the executor returns an error and no response. *)
Lemma streamLoop_error model body failure :
  Forall (fun c => llm.StreamChunk.IsComplete c = false) body ->
  forall content first w,
  selectErrFirst w = true ->
  exists e w',
    cli.streamLoop model body failure content first w = (Err e, w').
Proof.
  intros F. induction F as [|c body Hc _ IH]; intros content first w Hsel.
  - cbn [cli.streamLoop]. unfold bind, cli.selectErr. rewrite Hsel.
    unfold cli.spinStop, cli.spin, ret. eexists _, _. reflexivity.
  - cbn [cli.streamLoop]. rewrite Hc. cbn [negb]. rewrite andb_true_r.
    unfold bind at 1.
    destruct (when first _ w) as [[] w1] eqn:Ew.
    apply IH.
    assert (Hs : selectErrFirst (snd (when first
                   (cli.spin ("Getting command from " +:+ model +:+ "...")) w))
                 = selectErrFirst w) by (destruct first; reflexivity).
    rewrite Ew in Hs. exact (eq_trans Hs Hsel).
Qed.

(** The callback of [Query] over messages that are not done. *)
Lemma respFuncQuery_body body acc p c :
  Forall (fun r => ollama.Done r = false) body ->
  fold_left ollama.respFuncQuery body (acc, p, c) = (acc +:+ texts body, p, c).
Proof.
  intros F. revert acc. induction F as [|r body Hr _ IH]; intros acc; simpl.
  - now rewrite append_nil_r.
  - rewrite Hr, IH, append_assoc. reflexivity.
Qed.

(** The loop of the executor over the chunks of messages that are not
    done: their text is appended to the buffer, in order. *)
Lemma streamLoop_body model body rest failure :
  Forall (fun r => ollama.Done r = false) body ->
  forall content first w,
  exists first' w',
    cli.streamLoop model (flat_map ollama.respFuncStream body ++ rest)%list
                   failure content first w
    = cli.streamLoop model rest failure (content +:+ texts body) first' w'.
Proof.
  intros F. induction F as [|r body Hr _ IH]; intros content first w; simpl.
  - exists first, w. now rewrite append_nil_r.
  - unfold ollama.respFuncStream at 1. rewrite Hr.
    destruct (ollama.Content r) as [|ch text] eqn:Ec.
    + simpl. apply IH.
    + cbn [app cli.streamLoop llm.StreamChunk.IsComplete llm.StreamChunk.Content negb].
      rewrite andb_true_r. unfold bind at 1.
      destruct (when first _ w) as [[] w1].
      destruct (IH (content +:+ String ch text) (if first then false else first) w1)
        as (first' & w' & E).
      exists first', w'. rewrite E, append_assoc. reflexivity.
Qed.

(** How far the two paths of the Ollama adapter agree. For a server
    that gives the same reply to the streaming and to the blocking
    call, the reply being messages that are not done followed by one
    done message, and no error: the streaming execution succeeds, the
    blocking call succeeds, both responses have the same token counts,
    and the two contents differ by exactly the text of the done
    message, which [Query] appends and [StreamQuery] drops. *)
Theorem streaming_equals_blocking p req opts reply body final w w0 :
  ollama.client p (calls w) (ollama.chatReq req) = reply ->
  ollama.client p (calls w0) (ollama.chatReq req) = reply ->
  wellFormed reply body final ->
  exists streamed blocking ws wb,
    cli.executeStreamingQuery (ollama.provider p) req opts w = (Ok streamed, ws) /\
    cli.providerQuery (ollama.provider p) req w0 = (Ok blocking, wb) /\
    llm.QueryResponse.TokensInput streamed = llm.QueryResponse.TokensInput blocking /\
    llm.QueryResponse.TokensOutput streamed = llm.QueryResponse.TokensOutput blocking /\
    llm.QueryResponse.Content blocking
      = llm.QueryResponse.Content streamed +:+ ollama.Content final /\
    (ollama.Content final = EmptyString ->
     llm.QueryResponse.Content streamed = llm.QueryResponse.Content blocking).
Proof.
  intros Es Eb (Hr & Hf & Hbody & Hdone).
  (* the blocking call *)
  assert (Hq : cli.providerQuery (ollama.provider p) req w0
               = (Ok (llm.QueryResponse.mk (texts body +:+ ollama.Content final)
                        (ollama.PromptEvalCount final) (ollama.EvalCount final)
                        (llm.QueryRequest.Model req) "ollama" false),
                  withCalls w0 (calls w0 ++ [llm.CallQuery req]))).
  { unfold cli.providerQuery. f_equal. simpl. unfold ollama.Query.
    rewrite Eb, Hr, Hf, fold_left_app, (respFuncQuery_body _ _ _ _ Hbody). simpl.
    rewrite Hdone. reflexivity. }
  (* the streamed call *)
  unfold cli.executeStreamingQuery, bind at 1. unfold cli.spin at 1.
  unfold bind at 1. unfold cli.providerStreamQuery at 1.
  cbn [calls withSpinner llm.StreamQuery ollama.provider].
  unfold ollama.StreamQuery. rewrite Es, Hr, Hf, flat_map_app.
  cbn [llm.chunks llm.failure option_map].
  unfold bind at 1.
  match goal with
  | |- context [cli.streamLoop ?m (?a ++ ?b)%list ?f ?c ?fc ?w1] =>
      destruct (streamLoop_body m body b f Hbody c fc w1) as (first' & w' & E)
  end.
  rewrite E. simpl flat_map. unfold ollama.respFuncStream. rewrite Hdone.
  cbn [cli.streamLoop app llm.StreamChunk.IsComplete negb].
  rewrite andb_false_r. unfold bind, when, ret, cli.spinStop, cli.spin.
  simpl.
  eexists _, _, _, _. split; [reflexivity|]. split; [exact Hq|].
  simpl. repeat split.
  intros ->. now rewrite append_nil_r.
Qed.

(** Two messages with text and a done message with the token counts. *)
Lemma streaming_equals_blocking_witness :
  exists streamed blocking ws wb,
    cli.executeStreamingQuery
      (ollama.provider (ollama.mkOllamaProvider (fun _ _ => protocolReply)))
      request progress emptyWorld = (Ok streamed, ws) /\
    cli.providerQuery
      (ollama.provider (ollama.mkOllamaProvider (fun _ _ => protocolReply)))
      request emptyWorld = (Ok blocking, wb) /\
    llm.QueryResponse.Content streamed = "ls -lhS" /\
    llm.QueryResponse.Content blocking = "ls -lhS" /\
    llm.QueryResponse.TokensInput streamed = llm.QueryResponse.TokensInput blocking /\
    llm.QueryResponse.TokensOutput streamed = llm.QueryResponse.TokensOutput blocking.
Proof.
  destruct (streaming_equals_blocking
              (ollama.mkOllamaProvider (fun _ _ => protocolReply))
              request progress protocolReply
              [ ollama.mkChatResponse "ls" false 0 0; ollama.mkChatResponse " -lhS" false 0 0 ]
              (ollama.mkChatResponse "" true 1200 8) emptyWorld emptyWorld)
    as (streamed & blocking & ws & wb & Hs & Hb & Hi & Ho & Hc & He).
  - reflexivity.
  - reflexivity.
  - repeat split; repeat constructor.
  - exists streamed, blocking, ws, wb.
    split; [exact Hs|]. split; [exact Hb|].
    vm_compute in Hs. vm_compute in Hb.
    injection Hs as <- _. injection Hb as <- _.
    repeat split.
Defined.

(** C7: the code at a done message that carries text. The server is
    deterministic and gives one done message with the text [ls -lhS].
    [Query] appends the text of every message, the done one too;
    [StreamQuery] sends an empty terminal chunk for the done message
    and the text is lost: the streamed content is empty where the
    blocking content is [ls -lhS]. *)
Lemma streaming_drops_final_text :
  let p := ollama.mkOllamaProvider (fun _ _ => finalWithText) in
  exists streamed blocking,
    fst (cli.executeStreamingQuery (ollama.provider p) request progress emptyWorld)
      = Ok streamed /\
    fst (cli.providerQuery (ollama.provider p) request emptyWorld) = Ok blocking /\
    llm.QueryResponse.Content streamed = "" /\
    llm.QueryResponse.Content blocking = "ls -lhS" /\
    llm.QueryResponse.TokensInput streamed = llm.QueryResponse.TokensInput blocking /\
    llm.QueryResponse.TokensOutput streamed = llm.QueryResponse.TokensOutput blocking.
Proof.
  vm_compute. eexists _, _. repeat split.
Qed.

End Streaming.

(** ** Frame rules: what an action leaves alone *)

Section FrameRules.
Import os.
Context {S : Type} (part : World -> S).

Lemma preserves_ret {A} (a : A) : preserves part (ret a).
Proof. intros w. reflexivity. Qed.

Lemma preserves_bind {A B} (m : M A) (k : A -> M B) :
  preserves part m -> (forall a, preserves part (k a)) -> preserves part (bind m k).
Proof.
  intros Hm Hk w. unfold bind. specialize (Hm w).
  destruct (m w) as [a w1]. simpl in Hm. rewrite (Hk a w1). exact Hm.
Qed.

Lemma preserves_when b (m : M unit) : preserves part m -> preserves part (when b m).
Proof. destruct b; [auto|intros _; apply preserves_ret]. Qed.

End FrameRules.

Create HintDb frame.
#[local] Hint Resolve preserves_ret preserves_bind preserves_when : frame.

Ltac frame_step :=
  first [ apply preserves_ret | apply preserves_when | apply preserves_bind; [|intros ?]
        | match goal with
          | |- preserves _ (match ?x with _ => _ end) => destruct x
          | |- preserves _ (if ?x then _ else _) => destruct x
          end ].

Ltac frame := repeat (frame_step || (intros ?; reflexivity) || eauto with frame).

Section Orchestration.
Import os.

(** The calls made: only a provider call adds one. *)
Lemma Printf_calls s : preserves calls (Printf s).
Proof. intros w. reflexivity. Qed.
Lemma Now_calls : preserves calls Now.
Proof. intros w. reflexivity. Qed.
Lemma WriteFile_calls p d : preserves calls (WriteFile p d).
Proof. intros w. unfold WriteFile. destruct (writeErr w); [now destruct (torn w)|reflexivity]. Qed.
Lemma MkdirAll_calls p : preserves calls (MkdirAll p).
Proof. intros w. reflexivity. Qed.
Lemma New_calls d : preserves calls (cache.New d).
Proof. intros w. reflexivity. Qed.
#[local] Hint Resolve Printf_calls Now_calls WriteFile_calls MkdirAll_calls New_calls : frame.

Lemma saveEntry_calls c e : preserves calls (cache.saveEntry c e).
Proof. unfold cache.saveEntry. frame. Qed.
#[local] Hint Resolve saveEntry_calls : frame.

Lemma Set_calls c a b m r : preserves calls (cache.Set_ c a b m r).
Proof. unfold cache.Set_. frame. Qed.
#[local] Hint Resolve Set_calls : frame.

(** The files: only the cache writes and removes. *)
Lemma Printf_files s : preserves files (Printf s).
Proof. intros w. reflexivity. Qed.

(** The disk and the place of the cache: nothing changes them. *)
Lemma Printf_disk s : preserves disk (Printf s).
Proof. intros w. reflexivity. Qed.
Lemma Now_disk : preserves disk Now.
Proof. intros w. reflexivity. Qed.
Lemma ReadFile_disk p : preserves disk (ReadFile p).
Proof. intros w. unfold ReadFile. now destruct (files w !! p). Qed.
Lemma WriteFile_disk p d : preserves disk (WriteFile p d).
Proof. intros w. unfold WriteFile. destruct (writeErr w); [now destruct (torn w)|reflexivity]. Qed.
Lemma MkdirAll_disk p : preserves disk (MkdirAll p).
Proof. intros w. reflexivity. Qed.
Lemma Remove_disk p : preserves disk (Remove p).
Proof.
  intros w. unfold Remove. destruct (files w !! p); [|reflexivity].
  now destruct (removeErr w).
Qed.
Lemma spin_disk s : preserves disk (cli.spin s).
Proof. intros w. reflexivity. Qed.
Lemma selectErr_disk : preserves disk cli.selectErr.
Proof. intros w. reflexivity. Qed.
Lemma providerQuery_disk p r : preserves disk (cli.providerQuery p r).
Proof. intros w. reflexivity. Qed.
Lemma providerStreamQuery_disk p r : preserves disk (cli.providerStreamQuery p r).
Proof. intros w. reflexivity. Qed.
#[local] Hint Resolve Printf_disk Now_disk ReadFile_disk WriteFile_disk MkdirAll_disk
  Remove_disk spin_disk selectErr_disk providerQuery_disk providerStreamQuery_disk : frame.

Lemma saveEntry_disk c e : preserves disk (cache.saveEntry c e).
Proof. unfold cache.saveEntry. frame. Qed.
Lemma isExpired_disk c t : preserves disk (cache.isExpired c t).
Proof. unfold cache.isExpired. frame. Qed.
#[local] Hint Resolve saveEntry_disk isExpired_disk : frame.

Lemma Get_disk c a b m : preserves disk (cache.Get c a b m).
Proof. unfold cache.Get. frame. Qed.
#[local] Hint Resolve Get_disk : frame.

Lemma streamLoop_disk model chunks failure content first :
  preserves disk (cli.streamLoop model chunks failure content first).
Proof.
  revert content first. induction chunks as [|ch rest IH]; intros content first; simpl.
  - unfold cli.spinStop. frame.
  - frame.
Qed.
#[local] Hint Resolve streamLoop_disk : frame.

Lemma ExecuteQuery_disk p r o : preserves disk (cli.ExecuteQuery p r o).
Proof. unfold cli.ExecuteQuery, cli.executeStreamingQuery, cli.spinStop. frame. Qed.

Lemma providerQuery_eq p req w :
  cli.providerQuery p req w
  = (llm.Query p (calls w) req, withCalls w (calls w ++ [llm.CallQuery req])).
Proof. reflexivity. Qed.

(** A hit is marked as served from the cache. *)
Lemma Get_Cached c a b m w r :
  fst (cache.Get c a b m w) = Some r -> llm.QueryResponse.Cached r = true.
Proof.
  unfold cache.Get. rewrite bind_eq.
  destruct (fst (ReadFile _ w)); [|discriminate].
  destruct (json.Unmarshal _); [|discriminate].
  rewrite bind_eq. destruct (fst (cache.isExpired _ _ _)).
  - rewrite bind_eq. discriminate.
  - destruct (cache.Response _); rewrite !bind_eq; [|discriminate].
    now intros [= <-].
Qed.

(** On a miss the answer of the provider is written to the cache as
    soon as it arrives, before any validation. *)
Lemma queryWithCache_writes fl cfg providerConfig promptBuilder activeProfile
      command question w resp w' :
  cli.queryWithCache fl cfg providerConfig promptBuilder activeProfile command question w
    = (Ok resp, w') ->
  llm.QueryResponse.Cached resp = false ->
  mkdirErr w = None -> writeErr w = None ->
  exists createdAt accessedAt,
    files w' !! entryPath (cache.mkCache (cacheDirEnv w) (config.CacheDays cfg))
                          command question (config.Model activeProfile)
    = Some (json.MarshalIndent
              (cache.mkEntry
                 (cache.GenerateKey command question (config.Model activeProfile))
                 command question (config.Model activeProfile) (Some resp)
                 createdAt accessedAt 1)).
Proof.
  intros H Hc Hm Hw. unfold cli.queryWithCache in H.
  rewrite bind_eq in H. cbn [fst snd cache.New] in H.
  set (c := cache.mkCache (cacheDirEnv w) (config.CacheDays cfg)) in *.
  rewrite bind_eq in H.
  match type of H with
  | context [fst (?m w)] => set (lookup := m) in *
  end.
  assert (Hd1 : disk (snd (lookup w)) = disk w).
  { subst lookup. destruct (negb (cli.noCache fl)); [apply Get_disk|reflexivity]. }
  destruct (fst (lookup w)) as [cached|] eqn:Ehit.
  - rewrite bind_eq in H. injection H as <- _.
    subst lookup. destruct (negb (cli.noCache fl)); [|discriminate].
    apply Get_Cached in Ehit. congruence.
  - set (w1 := snd (lookup w)) in *.
    rewrite bind_eq in H.
    pose proof (ExecuteQuery_disk (cli.Provider providerConfig)
                  (cli.originalRequest providerConfig promptBuilder activeProfile)
                  (cli.mkQueryOptions
                     (negb (cli.quiet fl) && negb (cli.verbose fl) && negb (cli.debug fl))
                     (cli.verbose fl) (cli.debug fl) activeProfile) w1) as Hd2.
    destruct (fst (cli.ExecuteQuery _ _ _ w1)) as [first|err]; [|discriminate].
    set (w2 := snd (cli.ExecuteQuery _ _ _ w1)) in *.
    assert (Hd : disk w2 = disk w) by congruence.
    unfold disk in Hd. injection Hd as Hm2 Hw2 _. rewrite Hm in Hm2. rewrite Hw in Hw2.
    rewrite bind_eq, (Set_writes _ _ _ _ _ _ Hm2 Hw2) in H.
    cbn [fst snd] in H. unfold bind, ret in H. cbn in H.
    injection H as <- <-.
    eexists _, _. cbn [files withFiles]. apply lookup_insert_eq.
Qed.

(** The validator writes nothing when it ends in an error. *)
Lemma validate_error_files fl provider promptBuilder resp command explainFlag cfg
      activeProfile question w e w' :
  cli.parseAndValidate fl provider promptBuilder resp command explainFlag cfg
    activeProfile question w = (Err e, w') ->
  files w' = files w.
Proof.
  unfold cli.parseAndValidate.
  set (parsed := parser.Parse _ (llm.QueryResponse.Content resp)).
  destruct (negb (parser.Valid parsed) && negb (llm.QueryResponse.Cached resp)).
  - rewrite bind_eq.
    set (w1 := snd (when _ _ w)).
    assert (E1 : files w1 = files w) by (apply (preserves_when files); apply Printf_files).
    rewrite bind_eq, providerQuery_eq. cbn [fst snd].
    destruct (llm.Query provider (calls w1) _) as [retryResp|err].
    + destruct (negb (parser.Valid _)).
      * intros [= _ <-]. exact E1.
      * rewrite !bind_eq. intros [= ].
    + intros [= _ <-]. exact E1.
  - destruct (negb (parser.Valid parsed) && llm.QueryResponse.Cached resp);
      intros H; inversion H; reflexivity.
Qed.

(** Whatever happens, the validator sends at most the retry request. *)
Lemma validate_calls fl provider promptBuilder resp command explainFlag cfg
      activeProfile question w :
  let w' := snd (cli.parseAndValidate fl provider promptBuilder resp command
                   explainFlag cfg activeProfile question w) in
  calls w' = calls w \/
  calls w' = (calls w ++ [llm.CallQuery (cli.retryRequest promptBuilder activeProfile)])%list.
Proof.
  cbv zeta. unfold cli.parseAndValidate.
  set (parsed := parser.Parse _ (llm.QueryResponse.Content resp)).
  destruct (negb (parser.Valid parsed) && negb (llm.QueryResponse.Cached resp)).
  - right. rewrite bind_eq.
    set (w1 := snd (when _ _ w)).
    assert (E1 : calls w1 = calls w) by (apply (preserves_when calls); apply Printf_calls).
    rewrite bind_eq, providerQuery_eq. cbn [fst snd].
    match goal with
    | |- calls (snd (?k ?w2)) = _ =>
        assert (Hk : preserves calls k) by frame; rewrite (Hk w2)
    end.
    simpl. now rewrite E1.
  - left. now destruct (negb (parser.Valid parsed) && llm.QueryResponse.Cached resp).
Qed.

(** Where the code writes the cache. In [queryWithCache] the response
    of the provider is stored as soon as the query returns, before
    [parseAndValidate] has parsed it; the validator itself stores a
    response only after a retry whose response parses, and has written
    nothing when validation ends in an error. The store of the first
    response does not wait for the parse, whatever the response is. *)
Theorem cache_written_before_validation :
  (forall fl cfg providerConfig promptBuilder activeProfile command question w resp w',
      cli.queryWithCache fl cfg providerConfig promptBuilder activeProfile
        command question w = (Ok resp, w') ->
      llm.QueryResponse.Cached resp = false ->
      mkdirErr w = None -> writeErr w = None ->
      exists createdAt accessedAt,
        files w' !! entryPath (cache.mkCache (cacheDirEnv w) (config.CacheDays cfg))
                              command question (config.Model activeProfile)
        = Some (json.MarshalIndent
                  (cache.mkEntry
                     (cache.GenerateKey command question (config.Model activeProfile))
                     command question (config.Model activeProfile) (Some resp)
                     createdAt accessedAt 1))) /\
  (forall fl provider promptBuilder resp command explainFlag cfg activeProfile question
          w e w',
      cli.parseAndValidate fl provider promptBuilder resp command explainFlag cfg
        activeProfile question w = (Err e, w') ->
      files w' = files w).
Proof.
  split.
  - intros fl cfg providerConfig promptBuilder activeProfile command question w resp w'
           Hq Hc Hm Hw.
    exact (queryWithCache_writes _ _ _ _ _ _ _ _ _ _ Hq Hc Hm Hw).
  - intros fl provider promptBuilder resp command explainFlag cfg activeProfile question
           w e w' Hv.
    exact (validate_error_files _ _ _ _ _ _ _ _ _ _ _ _ Hv).
Qed.

(** C2: the code at a provider whose answers do not validate. The
    provider answers [rm -rf /] to a question about [ls], to the query
    and to the retry. The run ends in an error after two calls, and yet
    the cache holds an entry with the first answer for the fingerprint
    of the query: the cache was written though no parse succeeded. The
    retry path of the same code stores a response only after it has
    parsed. *)
Lemma invalid_response_is_cached :
  let out := cli.run quietFlags settings (cli.mkProviderConfig stub 8192) openaiProfile
               "ls" manual "how do I sort by size" false emptyWorld in
  fst out = Err "unable to generate valid command: response does not start with command 'ls'" /\
  calls (snd out)
    = [ llm.CallQuery
          (cli.originalRequest (cli.mkProviderConfig stub 8192) builder openaiProfile);
        llm.CallQuery (cli.retryRequest builder openaiProfile) ] /\
  exists entry,
    files (snd out) !! entryPath store "ls" "how do I sort by size" "gpt-4o-mini"
      = Some (EntryJSON entry) /\
    cache.Response entry = Some wrongAnswer.
Proof.
  vm_compute. split; [reflexivity|]. split; [reflexivity|].
  eexists. split; reflexivity.
Qed.

(** The same query once more: the entry is found, it does not validate,
    and the run ends with no call at all. *)
Example second_run_cached_failure :
  let first := cli.run quietFlags settings (cli.mkProviderConfig stub 8192) openaiProfile
                 "ls" manual "how do I sort by size" false emptyWorld in
  let second := cli.run quietFlags settings (cli.mkProviderConfig stub 8192) openaiProfile
                  "ls" manual "how do I sort by size" false (snd first) in
  fst second = Err "cached response invalid: response does not start with command 'ls'" /\
  calls (snd second) = calls (snd first).
Proof. vm_compute. split; reflexivity. Qed.

(** C8. The response came from the provider (its cache flag is not set)
    and does not validate, and no response of the provider validates:
    the validator makes one call, the retry, and ends in an error. *)
Theorem single_retry_then_error fl provider promptBuilder resp command explainFlag
    cfg activeProfile question w :
  llm.QueryResponse.Cached resp = false ->
  parser.Valid (parser.Parse (parser.New command explainFlag)
                  (llm.QueryResponse.Content resp)) = false ->
  (forall history req r,
      llm.Query provider history req = Ok r ->
      parser.Valid (parser.Parse (parser.New command explainFlag)
                      (llm.QueryResponse.Content r)) = false) ->
  exists e w',
    cli.parseAndValidate fl provider promptBuilder resp command explainFlag cfg
      activeProfile question w = (Err e, w') /\
    calls w' = (calls w ++ [llm.CallQuery (cli.retryRequest promptBuilder activeProfile)])%list.
Proof.
  intros Hc Hv Hinv. unfold cli.parseAndValidate.
  rewrite Hc, Hv. cbn [negb andb].
  rewrite bind_eq.
  set (w1 := snd (when _ _ w)).
  assert (E1 : calls w1 = calls w) by (apply (preserves_when calls); apply Printf_calls).
  rewrite bind_eq, providerQuery_eq. cbn [fst snd]. rewrite E1.
  destruct (llm.Query provider (calls w) _) as [retryResp|err] eqn:Eq.
  - rewrite (Hinv _ _ _ Eq). cbn [negb]. eexists _, _. split; [reflexivity|].
    reflexivity.
  - eexists _, _. split; [reflexivity|]. reflexivity.
Qed.

(** The stub answers [rm -rf /] for [ls], time after time. *)
Lemma single_retry_then_error_witness :
  exists e w',
    cli.parseAndValidate quietFlags stub builder wrongAnswer "ls" false settings
      openaiProfile "how do I sort by size" emptyWorld = (Err e, w') /\
    calls w' = (calls emptyWorld ++ [llm.CallQuery (cli.retryRequest builder openaiProfile)])%list.
Proof.
  apply (single_retry_then_error quietFlags stub builder wrongAnswer "ls" false settings
           openaiProfile "how do I sort by size" emptyWorld).
  - reflexivity.
  - vm_compute. reflexivity.
  - intros history req r H. injection H as <-. vm_compute. reflexivity.
Defined.

(** C9. The response was served from the cache and does not validate:
    the validator ends in an error at once; no call is made, and no
    file is touched. *)
Theorem cached_invalid_no_retry fl provider promptBuilder resp command explainFlag
    cfg activeProfile question w :
  llm.QueryResponse.Cached resp = true ->
  parser.Valid (parser.Parse (parser.New command explainFlag)
                  (llm.QueryResponse.Content resp)) = false ->
  exists e w',
    cli.parseAndValidate fl provider promptBuilder resp command explainFlag cfg
      activeProfile question w = (Err e, w') /\
    calls w' = calls w /\ files w' = files w.
Proof.
  intros Hc Hv. unfold cli.parseAndValidate. rewrite Hc, Hv. cbn [negb andb].
  eexists _, w. split; [reflexivity|]. split; reflexivity.
Qed.

(** The wrong answer, served from the cache. *)
Lemma cached_invalid_no_retry_witness :
  exists e w',
    cli.parseAndValidate quietFlags stub builder (llm.QueryResponse.setCached wrongAnswer)
      "ls" false settings openaiProfile "how do I sort by size" emptyWorld = (Err e, w') /\
    calls w' = calls emptyWorld /\ files w' = files emptyWorld.
Proof.
  apply (cached_invalid_no_retry quietFlags stub builder
           (llm.QueryResponse.setCached wrongAnswer) "ls" false settings openaiProfile
           "how do I sort by size" emptyWorld).
  - reflexivity.
  - vm_compute. reflexivity.
Defined.

(** The retry prompt for [ls]. *)
Example StrictRetryPrompt_ls :
  prompt.StrictRetryPrompt builder
  = "Your previous response was not a valid command. Please respond with ONLY the command syntax, starting with 'ls'. No explanations, no formatting, just the command.".
Proof. vm_compute. reflexivity. Qed.

(** C10. The validator sends no request but the retry request. Its user
    prompt is the strict template with the tool name in the place of its
    [%s], whatever the man page and the question are; its context window
    and stop sequences are the zero values; its model, temperature,
    maximum of tokens and system prompt are those of the request the
    query prepared. *)
Theorem retry_request_shape fl providerConfig resp command manPage question explainFlag
    cfg activeProfile w :
  let promptBuilder := prompt.NewBuilder command manPage question explainFlag in
  let retry := cli.retryRequest promptBuilder activeProfile in
  let original := cli.originalRequest providerConfig promptBuilder activeProfile in
  let w' := snd (cli.parseAndValidate fl (cli.Provider providerConfig) promptBuilder resp
                   command explainFlag cfg activeProfile question w) in
  (calls w' = calls w \/ calls w' = (calls w ++ [llm.CallQuery retry])%list) /\
  llm.QueryRequest.UserPrompt retry
    = prompt.StrictRetryPromptBefore +:+ command +:+ prompt.StrictRetryPromptAfter /\
  llm.QueryRequest.ContextWindow retry = 0 /\
  llm.QueryRequest.StopSequences retry = [] /\
  llm.QueryRequest.Model retry = llm.QueryRequest.Model original /\
  llm.QueryRequest.Temperature retry = llm.QueryRequest.Temperature original /\
  llm.QueryRequest.MaxTokens retry = llm.QueryRequest.MaxTokens original /\
  llm.QueryRequest.SystemPrompt retry = llm.QueryRequest.SystemPrompt original.
Proof.
  cbv zeta. split; [apply validate_calls|].
  repeat split.
Qed.

End Orchestration.

(* ===================================================================== *)
(** * Further properties of the code *)
(* ===================================================================== *)

(** ** The arguments of a query ([ParseCommand], the head of [run]) *)

Section QueryArguments.
Import manpage commands.

Lemma nonEmpty_false s : parser.nonEmpty s = false <-> s = "".
Proof. destruct s; simpl; split; congruence. Qed.

Lemma nonEmpty_true s : parser.nonEmpty s = true <-> s <> "".
Proof. destruct s; simpl; split; congruence. Qed.

Lemma isSection_not_flag s : isSection s = true -> String.eqb s "-s" = false.
Proof. destruct s as [|c [|d s]]; simpl; try discriminate. intros _. now destruct (Ascii.eqb c "-"). Qed.

(** X1. [ParseCommand], case by case. No argument gives three empty
    results. [-s] followed by at least two arguments gives the second
    argument as section and the third as command. A first argument that
    is one digit from 1 to 9, followed by at least one argument, is the
    section, and the next argument the command. In every other case
    (a digit alone and [-s] with fewer than two arguments after it
    included) the first argument is the command and there is no
    section. What follows the command is the question, in each case;
    the cases cover every list of arguments. *)
Theorem ParseCommand_keeps_arguments :
  ParseCommand [] = ("", "", []) /\
  (forall section command question,
      ParseCommand ("-s" :: section :: command :: question) = (command, section, question)) /\
  (forall section command question,
      isSection section = true ->
      ParseCommand (section :: command :: question) = (command, section, question)) /\
  (forall command question,
      isSection command = false \/ question = [] ->
      command <> "-s" \/ (length question < 2)%nat ->
      ParseCommand (command :: question) = (command, "", question)) /\
  (forall args,
      args = [] \/
      (exists section command question, args = "-s" :: section :: command :: question) \/
      (exists section command question,
          isSection section = true /\ args = section :: command :: question) \/
      (exists command question,
          (isSection command = false \/ question = []) /\
          (command <> "-s" \/ (length question < 2)%nat) /\
          args = command :: question)).
Proof.
  split; [reflexivity|]. split; [reflexivity|]. split; [|split].
  - intros section command question Hs. cbn [ParseCommand].
    now rewrite (isSection_not_flag _ Hs), Hs.
  - intros command question Hq Hf. cbn [ParseCommand].
    destruct (String.eqb command "-s") eqn:E.
    + apply String.eqb_eq in E. subst command.
      destruct Hf as [Hf|Hf]; [congruence|].
      destruct question as [|q1 [|q2 question]]; cbn [length] in Hf; try lia; reflexivity.
    + destruct Hq as [->| ->]; [reflexivity|]. now destruct (isSection command).
  - intros [|arg0 rest]; [now left|]. right.
    destruct (String.eqb arg0 "-s") eqn:E.
    + apply String.eqb_eq in E. subst arg0.
      destruct rest as [|arg1 [|arg2 question]].
      * right. right. exists "-s", []. cbn [length]. repeat split; auto.
      * right. right. exists "-s", [arg1]. cbn [length]. repeat split; auto.
      * left. now exists arg1, arg2, question.
    + apply String.eqb_neq in E. destruct (isSection arg0) eqn:Es.
      * destruct rest as [|arg1 question].
        -- right. right. exists arg0, []. repeat split; auto.
        -- right. left. now exists arg0, arg1, question.
      * right. right. exists arg0, rest. repeat split; auto.
Qed.

(** X2. The head of [run]. When the configuration cannot be loaded,
    [run] returns [failed to load config] with the error, whatever the
    arguments are. When it is loaded, [run] answers [no question
    specified] exactly when the arguments are a command alone, a
    section digit and a command, or [-s], a section and a command (the
    command not empty); with the two arguments or more that the root
    command asks for, a command alone is not among them. *)
Theorem runArguments_no_question err cfg args :
  runArguments (Err err) args = Err ("failed to load config: " +:+ err) /\
  (runArguments (Ok cfg) args = Err "no question specified" <->
   exists command, command <> "" /\
     (args = [command] \/
      (exists section, isSection section = true /\ args = [section; command]) \/
      (exists section, args = ["-s"; section; command]))) /\
  ((2 <= length args)%nat ->
   (runArguments (Ok cfg) args = Err "no question specified" <->
    exists section command, command <> "" /\
      ((isSection section = true /\ args = [section; command]) \/
       args = ["-s"; section; command]))).
Proof.
  assert (Hiff : runArguments (Ok cfg) args = Err "no question specified" <->
    exists command, command <> "" /\
     (args = [command] \/
      (exists section, isSection section = true /\ args = [section; command]) \/
      (exists section, args = ["-s"; section; command]))).
  { unfold runArguments. split.
    - destruct args as [|arg0 rest]; simpl; [discriminate|].
      destruct (String.eqb arg0 "-s") eqn:E.
      + apply String.eqb_eq in E. subst arg0.
        destruct rest as [|arg1 [|arg2 question]]; simpl.
        * intros _. exists "-s". split; [discriminate|]. now left.
        * discriminate.
        * destruct (parser.nonEmpty arg2) eqn:En; simpl; [|discriminate].
          destruct question; [|discriminate]. intros _.
          exists arg2. split; [now apply nonEmpty_true|]. right. right. now exists arg1.
      + destruct (isSection arg0) eqn:Es.
        * destruct rest as [|arg1 question].
          -- destruct (parser.nonEmpty arg0) eqn:En; simpl; [|discriminate]. intros _.
             exists arg0. split; [now apply nonEmpty_true|]. now left.
          -- destruct (parser.nonEmpty arg1) eqn:En; simpl; [|discriminate].
             destruct question; [|discriminate]. intros _.
             exists arg1. split; [now apply nonEmpty_true|]. right. left. now exists arg0.
        * destruct (parser.nonEmpty arg0) eqn:En; simpl; [|discriminate].
          destruct rest; [|discriminate]. intros _.
          exists arg0. split; [now apply nonEmpty_true|]. now left.
    - intros (command & Hc & [->|[(section & Hs & ->)|(section & ->)]]);
        apply nonEmpty_true in Hc.
      + assert (E : ParseCommand [command] = (command, "", [])).
        { simpl. destruct (String.eqb command "-s"); now destruct (isSection command). }
        rewrite E. now rewrite Hc.
      + simpl. rewrite (isSection_not_flag _ Hs), Hs. now rewrite Hc.
      + simpl. now rewrite Hc. }
  split; [reflexivity|]. split; [exact Hiff|].
  intros Hlen. rewrite Hiff. split.
  - intros (command & Hc & [->|[(section & Hs & ->)|(section & ->)]]).
    + cbn [length] in Hlen. lia.
    + exists section, command. auto.
    + exists section, command. auto.
  - intros (section & command & Hc & [[Hs ->]| ->]); exists command; split; eauto.
Qed.

Example runArguments_examples :
  runArguments (Ok settings) ["3"; "printf"] = Err "no question specified" /\
  runArguments (Ok settings) ["-s"; "3"; "printf"] = Err "no question specified" /\
  runArguments (Ok settings) ["-s"; "printf"]
    = Ok (settings, "-s", "", "printf") /\
  runArguments (Ok settings) ["3"; "printf"; "pad"; "with"; "zeros"]
    = Ok (settings, "printf", "3", "pad with zeros").
Proof. repeat split. Qed.

End QueryArguments.

(** ** Facts on byte strings *)

Section StringFacts.

Lemma len_append (a b : string) :
  String.length (a +:+ b) = (String.length a + String.length b)%nat.
Proof. induction a; simpl; congruence. Qed.

Lemma rev_app_eq (s t : string) : String.rev_app s t = String.rev s +:+ t.
Proof.
  unfold String.rev. revert t. induction s as [|c s IH]; intros t; simpl; [reflexivity|].
  rewrite IH, (IH (String c "")), append_assoc. reflexivity.
Qed.

Lemma rev_String c (s : string) : String.rev (String c s) = String.rev s +:+ String c "".
Proof. unfold String.rev at 1. simpl. apply rev_app_eq. Qed.

Lemma rev_append (a b : string) : String.rev (a +:+ b) = String.rev b +:+ String.rev a.
Proof.
  induction a as [|c a IH]; simpl.
  - now rewrite append_nil_r.
  - now rewrite !rev_String, IH, append_assoc.
Qed.

Lemma rev_involutive (s : string) : String.rev (String.rev s) = s.
Proof.
  induction s as [|c s IH]; [reflexivity|].
  rewrite rev_String, rev_append, IH. reflexivity.
Qed.

Lemma len_rev (s : string) : String.length (String.rev s) = String.length s.
Proof.
  induction s as [|c s IH]; [reflexivity|].
  rewrite rev_String, len_append, IH. simpl. lia.
Qed.

Lemma allBytes_append p (a b : string) :
  commands.allBytes p (a +:+ b) = commands.allBytes p a && commands.allBytes p b.
Proof. induction a as [|c a IH]; simpl; [reflexivity|]. now rewrite IH, andb_assoc. Qed.

Lemma allBytes_rev p (s : string) : commands.allBytes p (String.rev s) = commands.allBytes p s.
Proof.
  induction s as [|c s IH]; [reflexivity|].
  rewrite rev_String, allBytes_append, IH. simpl. rewrite andb_true_r. apply andb_comm.
Qed.

Lemma HasPrefix_append (a b : string) : strings.HasPrefix (a +:+ b) a = true.
Proof. induction a as [|c a IH]; simpl; [apply HasPrefix_nil|]. now rewrite Ascii.eqb_refl. Qed.

End StringFacts.

(** ** [truncate] and [formatNumber] *)

Section Rendering.
Import utils pricing.

Lemma len_take n (s : string) :
  (n <= String.length s)%nat -> String.length (take n s) = n.
Proof.
  revert s. induction n as [|n IH]; intros [|c s] H; simpl in *; try lia.
  now rewrite IH by lia.
Qed.

Lemma take_append n (a b : string) : String.length a = n -> take n (a +:+ b) = a.
Proof.
  revert a. induction n as [|n IH]; intros [|c a] H; simpl in *; try discriminate.
  - now destruct b.
  - f_equal. apply IH. lia.
Qed.

(** X3. For a limit that is not negative [truncate] returns normally; a
    text within the limit is returned as it is; a longer one becomes
    its first [maxLen] bytes and three dots, [maxLen + 3] bytes in all
    (more than the text had, when it had [maxLen + 1] or [maxLen + 2]);
    and truncating the result again changes nothing. *)
Theorem truncate_shape s maxLen :
  0 <= maxLen ->
  exists t,
    truncate s maxLen = Some t /\
    (Z.of_nat (strings.len s) <= maxLen -> t = s) /\
    (maxLen < Z.of_nat (strings.len s) ->
       t = take (Z.to_nat maxLen) s +:+ "..." /\
       Z.of_nat (strings.len t) = maxLen + 3) /\
    truncate t maxLen = Some t.
Proof.
  intros Hm. unfold truncate, strings.len.
  destruct (Z.of_nat (String.length s) <=? maxLen) eqn:E.
  - apply Z.leb_le in E. exists s. split; [reflexivity|]. split; [reflexivity|].
    split; [lia|]. apply Z.leb_le in E. now rewrite E.
  - apply Z.leb_gt in E.
    destruct (maxLen <? 0) eqn:En; [apply Z.ltb_lt in En; lia|].
    assert (Hl : String.length (take (Z.to_nat maxLen) s) = Z.to_nat maxLen)
      by (apply len_take; lia).
    exists (take (Z.to_nat maxLen) s +:+ "..."). split; [reflexivity|].
    split; [lia|]. split.
    + intros _. split; [reflexivity|]. rewrite len_append, Hl. simpl. lia.
    + rewrite len_append, Hl. simpl String.length.
      destruct (Z.of_nat (Z.to_nat maxLen + 3) <=? maxLen) eqn:E2;
        [apply Z.leb_le in E2; lia|].
      now rewrite (take_append _ _ _ Hl).
Qed.

Lemma truncate_shape_witness :
  truncate "abcdefgh" 5 = Some "abcde..." /\ truncate "abcde..." 5 = Some "abcde...".
Proof.
  destruct (truncate_shape "abcdefgh" 5) as (t & Ht & _ & Hlong & Hidem); [lia|].
  destruct Hlong as [-> _]; [simpl; lia|].
  split; [exact Ht|exact Hidem].
Defined.

Lemma removeCommas_append (a b : string) :
  removeCommas (a +:+ b) = removeCommas a +:+ removeCommas b.
Proof.
  induction a as [|c a IH]; simpl; [reflexivity|].
  destruct (Ascii.eqb c ","); simpl; now rewrite IH.
Qed.

Lemma removeCommas_formatLoop n i str :
  removeCommas str = str -> removeCommas (formatLoop n i str) = str.
Proof.
  revert i. induction str as [|c str IH]; intros i H; [reflexivity|].
  cbn [removeCommas formatLoop] in *.
  destruct (Ascii.eqb c ",") eqn:Ec.
  - exfalso. apply (f_equal String.length) in H. simpl in H.
    assert (Hle : forall s, (String.length (removeCommas s) <= String.length s)%nat).
    { clear. induction s as [|d s IH]; simpl; [lia|]. destruct (Ascii.eqb d ","); simpl; lia. }
    specialize (Hle str). lia.
  - injection H as H.
    destruct ((0 <? i)%nat && ((n - i) mod 3 =? 0)%nat);
      cbn [append removeCommas]; rewrite ?Ascii.eqb_refl, Ec, (IH _ H); reflexivity.
Qed.

Lemma removeCommas_uint d :
  removeCommas (NilEmpty.string_of_uint d) = NilEmpty.string_of_uint d.
Proof. induction d; simpl; congruence. Qed.

Lemma removeCommas_Sprintf_d n : removeCommas (fmt.Sprintf_d n) = fmt.Sprintf_d n.
Proof.
  unfold fmt.Sprintf_d, NilEmpty.string_of_int.
  destruct (Z.to_int n); simpl; now rewrite removeCommas_uint.
Qed.

(** The loop writes a comma before a digit exactly when that digit and
    those after it are a multiple of three, and it is not the first. *)
Lemma formatLoop_thousands n i str :
  (i + String.length str = n)%nat ->
  formatLoop n i str
  = match str with
    | EmptyString => EmptyString
    | _ => (if (0 <? i)%nat && (String.length str mod 3 =? 0)%nat then "," else "")
           +:+ thousands str
    end.
Proof.
  revert i. induction str as [|c str IH]; intros i H; [reflexivity|].
  cbn [formatLoop thousands]. simpl String.length in H.
  replace (n - i)%nat with (String.length (String c str)) by (simpl; lia).
  f_equal. f_equal. rewrite (IH (S i)) by lia.
  destruct str as [|d str]; [reflexivity|].
  replace (0 <? S i)%nat with true by (symmetry; apply Nat.ltb_lt; lia).
  replace (0 <? String.length (String d str))%nat with true
    by (symmetry; apply Nat.ltb_lt; simpl; lia).
  reflexivity.
Qed.

(** X4. [formatNumber] only adds commas: without them the result is the
    decimal rendering of the number. A number below 1000 (a negative
    one too, whatever its size) is rendered without any comma; from
    1000 on the digits are in groups of three from the right. *)
Theorem formatNumber_groups n :
  removeCommas (formatNumber n) = fmt.Sprintf_d n /\
  formatNumber n = if n <? 1000 then fmt.Sprintf_d n else thousands (fmt.Sprintf_d n).
Proof.
  unfold formatNumber. destruct (n <? 1000).
  - split; [apply removeCommas_Sprintf_d|reflexivity].
  - split; [apply removeCommas_formatLoop, removeCommas_Sprintf_d|].
    rewrite formatLoop_thousands by reflexivity.
    now destruct (fmt.Sprintf_d n).
Qed.

Example formatNumber_examples :
  formatNumber 999 = "999" /\ formatNumber 1000 = "1,000" /\
  formatNumber 1234567 = "1,234,567" /\ formatNumber 100000 = "100,000" /\
  formatNumber (-1234567) = "-1234567".
Proof. vm_compute. repeat split. Qed.

End Rendering.

(** ** [sanitizeProfileName] *)

Section Sanitizer.
Import commands.

Lemma safeByte_hyphen : safeByte hyphen = true.
Proof. reflexivity. Qed.

Lemma replaceUnsafe_safe skip s : allBytes safeByte (replaceUnsafe skip s) = true.
Proof.
  revert skip. induction s as [|c s IH]; intros skip; [reflexivity|].
  cbn [replaceUnsafe]. destruct skip as [|k]; [|apply IH].
  destruct (safeByte c) eqn:E; cbn [allBytes]; [rewrite E|rewrite safeByte_hyphen]; apply IH.
Qed.

Lemma replaceUnsafe_id s : allBytes safeByte s = true -> replaceUnsafe 0 s = s.
Proof.
  induction s as [|c s IH]; [reflexivity|]. cbn [allBytes replaceUnsafe].
  intros H. apply andb_true_iff in H as [-> H]. now rewrite IH.
Qed.

Lemma TrimLeftHyphen_safe p s : allBytes p s = true -> allBytes p (TrimLeftHyphen s) = true.
Proof.
  induction s as [|c s IH]; [reflexivity|]. cbn [TrimLeftHyphen]. intros H.
  destruct (Ascii.eqb c hyphen); [|exact H].
  apply IH. cbn [allBytes] in H. now apply andb_true_iff in H.
Qed.

Lemma TrimLeftHyphen_head s : strings.HasPrefix (TrimLeftHyphen s) "-" = false.
Proof.
  induction s as [|c s IH]; [reflexivity|]. cbn [TrimLeftHyphen].
  destruct (Ascii.eqb c hyphen) eqn:E; [exact IH|].
  cbn [strings.HasPrefix]. unfold hyphen in *. now rewrite E.
Qed.

Lemma TrimLeftHyphen_id s : strings.HasPrefix s "-" = false -> TrimLeftHyphen s = s.
Proof.
  destruct s as [|c s]; [reflexivity|]. cbn [strings.HasPrefix TrimLeftHyphen]. unfold hyphen in *.
  rewrite HasPrefix_nil, andb_true_r. now intros ->.
Qed.

Lemma TrimLeftHyphen_append a b :
  TrimLeftHyphen (a +:+ b)
  = if allHyphens a then TrimLeftHyphen b else TrimLeftHyphen a +:+ b.
Proof.
  induction a as [|c a IH]; [reflexivity|].
  cbn [append TrimLeftHyphen allHyphens allBytes].
  destruct (Ascii.eqb c hyphen); [exact IH|reflexivity].
Qed.

(** The right end: hyphens are cut from the end only. *)
Lemma TrimRightHyphen_cons c s :
  String.rev (TrimLeftHyphen (String.rev (String c s)))
  = if allHyphens s
    then (if Ascii.eqb c hyphen then "" else String c "")
    else String c (String.rev (TrimLeftHyphen (String.rev s))).
Proof.
  rewrite rev_String, TrimLeftHyphen_append.
  unfold allHyphens. rewrite allBytes_rev.
  destruct (allBytes _ s).
  - cbn [TrimLeftHyphen]. now destruct (Ascii.eqb c hyphen).
  - now rewrite rev_append.
Qed.

Lemma TrimRightHyphen_head s :
  strings.HasPrefix s "-" = false ->
  strings.HasPrefix (String.rev (TrimLeftHyphen (String.rev s))) "-" = false.
Proof.
  destruct s as [|c s]; [reflexivity|]. rewrite TrimRightHyphen_cons.
  cbn [strings.HasPrefix]. unfold hyphen in *. rewrite HasPrefix_nil, andb_true_r. intros E.
  destruct (allHyphens s); rewrite ?E; cbn [strings.HasPrefix]; unfold hyphen in *; now rewrite ?E.
Qed.

Lemma HasSuffix_hyphen s :
  strings.HasSuffix s "-" = strings.HasPrefix (String.rev s) "-".
Proof. reflexivity. Qed.

Lemma TrimHyphen_ends s :
  strings.HasPrefix (TrimHyphen s) "-" = false /\ strings.HasSuffix (TrimHyphen s) "-" = false.
Proof.
  unfold TrimHyphen. split.
  - apply TrimRightHyphen_head, TrimLeftHyphen_head.
  - rewrite HasSuffix_hyphen, rev_involutive. apply TrimLeftHyphen_head.
Qed.

Lemma collapse_safe p b s :
  allBytes p s = true -> allBytes p (collapseHyphens b s) = true.
Proof.
  revert b. induction s as [|c s IH]; intros b H; [reflexivity|].
  cbn [allBytes] in H. apply andb_true_iff in H as [Hc H].
  cbn [collapseHyphens]. destruct (Ascii.eqb c hyphen) eqn:E.
  - destruct b; [now apply IH|]. cbn [allBytes].
    apply Ascii.eqb_eq in E. subst c. rewrite Hc. now apply IH.
  - cbn [allBytes]. rewrite Hc. now apply IH.
Qed.

(** No two hyphens in a row are left, and none at the head when the
    scan starts inside a run. *)
Lemma collapse_single b s :
  strings.Contains (collapseHyphens b s) "--" = false /\
  (b = true -> strings.HasPrefix (collapseHyphens b s) "-" = false).
Proof.
  revert b. induction s as [|c s IH]; intros b; [split; reflexivity|].
  cbn [collapseHyphens]. destruct (Ascii.eqb c hyphen) eqn:E.
  - destruct b; [apply IH|]. destruct (IH true) as [Hc Hh]. split; [|discriminate].
    cbn [strings.Contains strings.HasPrefix]. rewrite Hc, (Hh eq_refl).
    now rewrite andb_false_r.
  - destruct (IH false) as [Hc _]. split.
    + cbn [strings.Contains strings.HasPrefix]. unfold hyphen in *. now rewrite E, Hc.
    + intros _. cbn [strings.HasPrefix]. unfold hyphen in *. now rewrite E.
Qed.

Lemma collapse_head s :
  strings.HasPrefix s "-" = false ->
  strings.HasPrefix (collapseHyphens false s) "-" = false.
Proof.
  destruct s as [|c s]; [reflexivity|]. cbn [strings.HasPrefix collapseHyphens]. unfold hyphen in *.
  rewrite HasPrefix_nil, andb_true_r. intros E. rewrite E.
  cbn [strings.HasPrefix]. unfold hyphen in *. now rewrite E.
Qed.

Lemma HasSuffix_lastHyphen s : strings.HasSuffix s "-" = lastHyphen s.
Proof.
  rewrite HasSuffix_hyphen. induction s as [|c s IH]; [reflexivity|].
  rewrite rev_String. destruct s as [|d s].
  - cbn. unfold hyphen in *. now rewrite andb_true_r.
  - change (lastHyphen (String c (String d s))) with (lastHyphen (String d s)).
    rewrite <- IH.
    destruct (String.rev (String d s)) as [|e r] eqn:Er.
    + apply (f_equal String.length) in Er. rewrite len_rev in Er. discriminate.
    + cbn [append strings.HasPrefix]. now rewrite !HasPrefix_nil.
Qed.

Lemma collapse_cons b c s :
  collapseHyphens b (String c s)
  = if Ascii.eqb c hyphen
    then (if b then collapseHyphens true s else String hyphen (collapseHyphens true s))
    else String c (collapseHyphens false s).
Proof. reflexivity. Qed.

Lemma lastHyphen_cons c d s : lastHyphen (String c (String d s)) = lastHyphen (String d s).
Proof. reflexivity. Qed.

Lemma collapse_nonempty b c s :
  lastHyphen (String c s) = false -> collapseHyphens b (String c s) <> "".
Proof.
  revert b c. induction s as [|d s IH]; intros b c H; rewrite collapse_cons.
  - cbn [lastHyphen] in H. now rewrite H.
  - rewrite lastHyphen_cons in H.
    destruct (Ascii.eqb c hyphen); [|discriminate].
    destruct b; [|discriminate]. now apply IH.
Qed.

Lemma collapse_last b s :
  lastHyphen s = false -> lastHyphen (collapseHyphens b s) = false.
Proof.
  revert b. induction s as [|c s IH]; intros b H; [reflexivity|].
  rewrite collapse_cons. destruct s as [|d s].
  - cbn [lastHyphen] in H. now rewrite H.
  - rewrite lastHyphen_cons in H.
    destruct (Ascii.eqb c hyphen).
    + destruct b; [now apply IH|].
      pose proof (IH true H) as IH'. pose proof (collapse_nonempty true _ _ H) as Hne.
      destruct (collapseHyphens true (String d s)); [congruence|exact IH'].
    + pose proof (IH false H) as IH'. pose proof (collapse_nonempty false _ _ H) as Hne.
      destruct (collapseHyphens false (String d s)); [congruence|exact IH'].
Qed.

Lemma collapse_id b s :
  strings.Contains s "--" = false ->
  (b = true -> strings.HasPrefix s "-" = false) ->
  collapseHyphens b s = s.
Proof.
  revert b. induction s as [|c s IH]; intros b Hc Hb; [reflexivity|].
  cbn [strings.Contains] in Hc. apply orb_false_iff in Hc as [Hp Hc].
  cbn [collapseHyphens]. destruct (Ascii.eqb c hyphen) eqn:E.
  - destruct b.
    + specialize (Hb eq_refl). cbn [strings.HasPrefix] in Hb. unfold hyphen in *.
      rewrite E, HasPrefix_nil in Hb. discriminate.
    + apply Ascii.eqb_eq in E as Ec. f_equal; [now symmetry|].
      apply IH; [exact Hc|]. intros _.
      cbn [strings.HasPrefix] in Hp. unfold hyphen in *. now rewrite E in Hp.
  - f_equal. apply IH; [exact Hc|discriminate].
Qed.

(** X5. A sanitised profile name holds only letters, digits, hyphens
    and underscores; it does not begin or end with a hyphen; it holds
    no two hyphens in a row. *)
Theorem sanitizeProfileName_clean input :
  let name := sanitizeProfileName input in
  allBytes safeByte name = true /\
  strings.HasPrefix name "-" = false /\
  strings.HasSuffix name "-" = false /\
  strings.Contains name "--" = false.
Proof.
  cbv zeta.
  unfold sanitizeProfileName.
  destruct (TrimHyphen_ends (replaceUnsafe 0 input)) as [Hh Ht].
  split; [|split; [|split]].
  - apply collapse_safe. unfold TrimHyphen.
    rewrite allBytes_rev. apply TrimLeftHyphen_safe. rewrite allBytes_rev.
    apply TrimLeftHyphen_safe, replaceUnsafe_safe.
  - now apply collapse_head.
  - rewrite HasSuffix_lastHyphen in *. now apply collapse_last.
  - apply collapse_single.
Qed.

(** X6. The names [sanitizeProfileName] leaves as they are are exactly
    the clean ones; so sanitising twice is sanitising once. *)
Theorem sanitizeProfileName_fixed input :
  (sanitizeProfileName input = input <-> cleanName input = true) /\
  sanitizeProfileName (sanitizeProfileName input) = sanitizeProfileName input.
Proof.
  assert (Hfix : forall s, cleanName s = true -> sanitizeProfileName s = s).
  { intros s H. unfold cleanName in H.
    apply andb_true_iff in H as [H H4]. apply andb_true_iff in H as [H H3].
    apply andb_true_iff in H as [H1 H2].
    apply negb_true_iff in H2, H3, H4.
    unfold sanitizeProfileName, TrimHyphen.
    rewrite (replaceUnsafe_id _ H1), (TrimLeftHyphen_id _ H2).
    rewrite HasSuffix_hyphen in H3. rewrite (TrimLeftHyphen_id _ H3), rev_involutive.
    apply collapse_id; [exact H4|discriminate]. }
  assert (Hclean : forall s, cleanName (sanitizeProfileName s) = true).
  { intros s. unfold cleanName, sanitizeProfileName.
    destruct (TrimHyphen_ends (replaceUnsafe 0 s)) as [Hh Ht].
    rewrite collapse_safe, (collapse_head _ Hh), (proj1 (collapse_single _ _)).
    - rewrite HasSuffix_lastHyphen in *. now rewrite (collapse_last _ _ Ht).
    - unfold TrimHyphen. rewrite allBytes_rev. apply TrimLeftHyphen_safe.
      rewrite allBytes_rev. apply TrimLeftHyphen_safe, replaceUnsafe_safe. }
  split; [split|].
  - intros E. rewrite <- E. apply Hclean.
  - apply Hfix.
  - apply Hfix, Hclean.
Qed.

Example sanitizeProfileName_examples :
  sanitizeProfileName "llama3.2" = "llama3-2" /\
  sanitizeProfileName "--my  model!!" = "my-model" /\
  sanitizeProfileName "..." = "" /\
  sanitizeProfileName "qwen_2-5" = "qwen_2-5".
Proof. vm_compute. repeat split. Qed.

End Sanitizer.

(** ** Profiles and the provider factory *)

Section Profiles.
Import os profiles factory.

(** X7. What the setup wizard does and the next run reads: after
    [AddProfile] under a name that is not empty, with that name as the
    default profile and no profile flag, [GetActiveProfile] returns the
    profile added, under that name; the profiles of other names are
    found as before. *)
Theorem AddProfile_GetActiveProfile ps name profile days :
  name <> "" ->
  GetActiveProfile (config.mkConfig name days) (AddProfile ps name profile) None
    = inr (setName profile name) /\
  (forall c other, other <> name ->
     GetActiveProfile c (AddProfile ps name profile) (Some other)
     = GetActiveProfile c ps (Some other)).
Proof.
  intros Hn. unfold GetActiveProfile, AddProfile, Profiles in *.
  cbn [config.DefaultProfile]. split.
  - apply nonEmpty_true in Hn. rewrite Hn. cbv iota. now rewrite lookup_insert_eq.
  - intros c other Ho. now rewrite lookup_insert_ne by congruence.
Qed.

Lemma AddProfile_GetActiveProfile_witness :
  GetActiveProfile (config.mkConfig "ollama-llama3" 30)
    (AddProfile ∅ "ollama-llama3" (config.mkProfile "" "ollama" "llama3:8b" 0)) None
  = inr (config.mkProfile "ollama-llama3" "ollama" "llama3:8b" 0).
Proof.
  apply (AddProfile_GetActiveProfile ∅ "ollama-llama3"
           (config.mkProfile "" "ollama" "llama3:8b" 0) 30).
  discriminate.
Defined.

(** X8. [CreateProvider] knows two providers. For a profile of any
    other provider, [anthropic] (which the setup wizard offers and the
    pricing table lists) included, it returns the error [unsupported
    provider], and does nothing else. *)
Theorem CreateProvider_unsupported b profile verbose w :
  config.Provider profile <> "openai" ->
  config.Provider profile <> "ollama" ->
  CreateProvider b profile verbose w
  = (Err ("unsupported provider: " +:+ config.Provider profile), w).
Proof.
  intros H1 H2. unfold CreateProvider.
  apply String.eqb_neq in H1, H2. now rewrite H1, H2.
Qed.

Lemma CreateProvider_unsupported_witness :
  CreateProvider cloud (config.mkProfile "anthropic-haiku" "anthropic"
                          "claude-3-5-haiku-20241022" 0) false emptyWorld
  = (Err "unsupported provider: anthropic", emptyWorld).
Proof.
  apply (CreateProvider_unsupported cloud
           (config.mkProfile "anthropic-haiku" "anthropic" "claude-3-5-haiku-20241022" 0)
           false emptyWorld); discriminate.
Defined.

(** X9. The provider [CreateProvider] returns and its context window.
    For OpenAI the API key of the environment is not empty and the
    client is made with it; the window is the one of the profile when
    that is positive, and 8192 when it is not. For Ollama with no
    window configured the window is what the server reports for the
    model, but 8192 when it reports more or cannot be asked: at most
    8192 in every case. A window configured for Ollama that is not
    zero is taken as it is (a negative one too). *)
Theorem CreateProvider_context_window b profile verbose w pc w' :
  CreateProvider b profile verbose w = (Ok pc, w') ->
  (config.Provider profile = "openai" ->
     parser.nonEmpty (getenv b "OPENAI_API_KEY") = true /\
     cli.Provider pc = openaiClient b (getenv b "OPENAI_API_KEY") /\
     (0 < config.ContextWindow profile ->
        cli.ContextWindow pc = config.ContextWindow profile) /\
     (config.ContextWindow profile <= 0 -> cli.ContextWindow pc = 8192)) /\
  (config.Provider profile = "ollama" -> config.ContextWindow profile = 0 ->
     exists p,
       ollamaClient b = Ok p /\
       cli.Provider pc = ollama.provider p /\
       cli.ContextWindow pc
       = match GetModelContextWindow b p (config.Model profile) with
         | Ok ctxWindow => Z.min ctxWindow 8192
         | Err _ => 8192
         end /\
       cli.ContextWindow pc <= 8192) /\
  (config.Provider profile = "ollama" -> config.ContextWindow profile <> 0 ->
     cli.ContextWindow pc = config.ContextWindow profile).
Proof.
  unfold CreateProvider.
  destruct (String.eqb (config.Provider profile) "openai") eqn:E1.
  - apply String.eqb_eq in E1. intros H.
    split; [intros _|split; rewrite E1; discriminate].
    unfold GetAPIKey, NewOpenAIProvider in H. cbn [String.eqb Ascii.eqb Bool.eqb] in H.
    destruct (parser.nonEmpty (getenv b "OPENAI_API_KEY")) eqn:Ek; cbn [negb] in H;
      [|discriminate].
    rewrite Ek in H. cbn [negb] in H. injection H as <- _.
    cbn [cli.ContextWindow cli.Provider]. unfold GetContextWindow.
    split; [reflexivity|]. split; [reflexivity|]. split; intros Hc.
    + apply Z.ltb_lt in Hc. now rewrite Hc.
    + apply Z.ltb_ge in Hc. now rewrite Hc.
  - apply String.eqb_neq in E1.
    destruct (String.eqb (config.Provider profile) "ollama") eqn:E2; [|discriminate].
    unfold NewOllamaProvider.
    destruct (ollamaClient b) as [p|]; [|discriminate].
    destruct (config.ContextWindow profile =? 0) eqn:E0.
    + apply Z.eqb_eq in E0. intros H.
      split; [congruence|split; [intros _ _|congruence]].
      exists p. split; [reflexivity|].
      destruct (GetModelContextWindow b p _) as [ctxWindow|].
      * unfold maxPracticalContext in H.
        destruct (8192 <? ctxWindow) eqn:Ec; unfold bind, ret in H;
          destruct (when verbose _ w); injection H as <- _;
          cbn [cli.ContextWindow cli.Provider].
        -- apply Z.ltb_lt in Ec. split; [reflexivity|]. split; lia.
        -- apply Z.ltb_ge in Ec. split; [reflexivity|]. split; lia.
      * injection H as <- _. cbn [cli.ContextWindow cli.Provider]. unfold GetContextWindow.
        rewrite E0. cbn. split; [reflexivity|]. split; [reflexivity|lia].
    + apply Z.eqb_neq in E0. intros [= <- _]. cbn [cli.ContextWindow].
      split; [congruence|split; [congruence|auto]].
Qed.

Lemma CreateProvider_context_window_witness :
  exists pc,
    fst (CreateProvider cloud ollamaProfile false emptyWorld) = Ok pc /\
    cli.ContextWindow pc <= 8192.
Proof.
  exists (cli.mkProviderConfig (ollama.provider localServer) 8192).
  split; [reflexivity|].
  destruct (CreateProvider_context_window cloud ollamaProfile false emptyWorld
              (cli.mkProviderConfig (ollama.provider localServer) 8192) emptyWorld
              eq_refl) as (_ & H & _).
  destruct (H eq_refl eq_refl) as (p & _ & _ & _ & Hle).
  exact Hle.
Defined.

End Profiles.

(** ** The parser: outcomes, explain mode, code fences *)

Section ParserFacts.
Import strings parser.

Lemma SplitLines_cons s : exists l ls, SplitLines s = l :: ls.
Proof.
  induction s as [|c s (l & ls & IH)]; cbn [SplitLines]; [eauto|].
  destruct (Ascii.eqb c LF); [eauto|]. rewrite IH. eauto.
Qed.

Lemma parseDefaultMode_outcomes p response :
  let r := parseDefaultMode p response in
  (Valid r = true /\ Error r = None) \/
  (Valid r = false /\ Command r = "" /\ Explanation r = "" /\
   (Error r = Some "information not found in man page" \/
    Error r = Some ("response does not start with command '" +:+ commandName p +:+ "'") \/
    Error r = Some "response contains multiple lines without valid command")).
Proof.
  cbv zeta. unfold parseDefaultMode.
  destruct (Contains response refusal); [right; cbn [Valid Command Explanation Error invalid]; repeat (split; [reflexivity|]); auto|].
  destruct (negb (HasPrefix _ _)); [right; cbn [Valid Command Explanation Error invalid]; repeat (split; [reflexivity|]); auto|].
  cbv zeta.
  match goal with |- context [(1 <? ?n)%nat] => destruct (1 <? n)%nat end;
    [|left; cbn [Valid Error valid]; auto].
  destruct (firstCommandLine _ _); [left; cbn [Valid Error valid]; auto|right; cbn [Valid Command Explanation Error invalid]; repeat (split; [reflexivity|]); auto].
Qed.

Lemma parseExplainMode_outcomes p response :
  let r := parseExplainMode p response in
  (Valid r = true /\ Error r = None) \/
  (Valid r = false /\ Command r = "" /\ Explanation r = "" /\
   (Error r = Some "information not found in man page" \/
    Error r = Some ("no command found in response (expected line starting with '"
                    +:+ commandName p +:+ "')"))).
Proof.
  cbv zeta. unfold parseExplainMode.
  destruct (Contains response refusal); [right; cbn [Valid Command Explanation Error invalid]; repeat (split; [reflexivity|]); auto|].
  destruct (SplitLines_cons response) as (l & ls & ->).
  destruct (negb _); [right; cbn [Valid Command Explanation Error invalid]; repeat (split; [reflexivity|]); auto|left; cbn [Valid Error valid]; auto].
Qed.

(** X10. The outcomes of [Parse], in either mode: a valid result with
    no error; or an invalid result with an empty command, an empty
    explanation and one of four errors. The error [empty response] of
    the source never occurs: a text split at line feeds has at least one
    line. *)
Theorem Parse_outcomes p raw :
  let r := Parse p raw in
  (Valid r = true /\ Error r = None) \/
  (Valid r = false /\ Command r = "" /\ Explanation r = "" /\
   (Error r = Some "information not found in man page" \/
    Error r = Some ("response does not start with command '" +:+ commandName p +:+ "'") \/
    Error r = Some "response contains multiple lines without valid command" \/
    Error r = Some ("no command found in response (expected line starting with '"
                    +:+ commandName p +:+ "')"))).
Proof.
  cbv zeta. unfold Parse. destruct (explainMode p).
  - destruct (parseExplainMode_outcomes p (TrimSpace raw)) as [H|(H1 & H2 & H3 & [H|H])];
      [now left|right; repeat (split; [assumption|]); auto ..].
  - destruct (parseDefaultMode_outcomes p (TrimSpace raw)) as [H|(H1 & H2 & H3 & [H|[H|H]])];
      [now left|right; repeat (split; [assumption|]); auto ..].
Qed.

(** The first loop of explain mode returns a candidate that starts with
    the tool name, the first one there is. *)
Lemma findCommand_prefix name lines c rest :
  findCommand name lines = Some (c, rest) -> HasPrefix c name = true.
Proof.
  induction lines as [|l ls IH]; cbn [findCommand]; [discriminate|].
  destruct (negb (nonEmpty (TrimSpace l))); [exact IH|].
  destruct (HasPrefix (TrimSpace (stripMarkdownCodeBlocks (TrimSpace l))) name) eqn:E;
    [|exact IH].
  now intros [= <- _].
Qed.

Lemma findCommand_first name before line after :
  (forall l, In l before -> startsCommand name l = false) ->
  startsCommand name line = true ->
  findCommand name (before ++ line :: after)%list = Some (candidate line, after).
Proof.
  intros Hb Hl. induction before as [|b before IH]; cbn [app findCommand].
  - unfold startsCommand, candidate in Hl. apply andb_true_iff in Hl as [H1 H2].
    now rewrite H1, H2.
  - assert (Eb : startsCommand name b = false) by (apply Hb; now left).
    unfold startsCommand, candidate in Eb.
    destruct (nonEmpty (TrimSpace b)); cbn [negb andb] in *.
    + rewrite Eb. apply IH. intros l Hin. apply Hb. now right.
    + apply IH. intros l Hin. apply Hb. now right.
Qed.

(** What the first loop of [parseExplainMode] found, read backwards. *)
Lemma findCommand_found name lines c rest :
  findCommand name lines = Some (c, rest) ->
  exists before line,
    lines = (before ++ line :: rest)%list /\
    (forall l, In l before -> startsCommand name l = false) /\
    startsCommand name line = true /\
    c = candidate line.
Proof.
  induction lines as [|l ls IH]; cbn [findCommand]; [discriminate|].
  assert (Hskip : startsCommand name l = false -> findCommand name ls = Some (c, rest) ->
                  exists before line,
                    (l :: ls = before ++ line :: rest)%list /\
                    (forall l0, In l0 before -> startsCommand name l0 = false) /\
                    startsCommand name line = true /\ c = candidate line).
  { intros Hl H. destruct (IH H) as (before & line & -> & Hb & Hs & Hc).
    exists (l :: before), line. split; [reflexivity|]. split; [|auto].
    intros l0 [<-|Hin]; [exact Hl|now apply Hb]. }
  destruct (nonEmpty (TrimSpace l)) eqn:En; cbn [negb].
  - destruct (HasPrefix (TrimSpace (stripMarkdownCodeBlocks (TrimSpace l))) name) eqn:E.
    + intros [= <- <-]. exists [], l. split; [reflexivity|]. split; [intros l0 []|].
      unfold startsCommand, candidate. now rewrite En, E.
    + apply Hskip. unfold startsCommand, candidate. now rewrite En, E.
  - apply Hskip. unfold startsCommand. now rewrite En.
Qed.

Lemma parseExplainMode_valid name response :
  let r := parseExplainMode (New name true) response in
  Valid r = true ->
  Contains response refusal = false /\
  HasPrefix (Command r) name = true /\ nonEmpty (Command r) = true /\
  exists before line after,
    SplitLines response = (before ++ line :: after)%list /\
    (forall l, In l before -> startsCommand name l = false) /\
    startsCommand name line = true /\
    Command r = candidate line /\
    Explanation r = Join (List.filter nonEmpty (map TrimSpace after)) (String LF "").
Proof.
  cbv zeta. unfold parseExplainMode. cbn [commandName New].
  destruct (Contains response refusal); [discriminate|].
  destruct (SplitLines_cons response) as (l & ls & ->).
  destruct (findCommand name (l :: ls)) as [[c rest]|] eqn:Ef.
  - destruct (nonEmpty c) eqn:Ec; cbn [negb]; [|discriminate]. intros _.
    cbn [Command Explanation valid]. split; [reflexivity|].
    split; [eapply findCommand_prefix; eassumption|].
    split; [exact Ec|].
    destruct (findCommand_found _ _ _ _ Ef) as (before & line & Hl & Hb & Hst & Hc).
    exists before, line, rest. rewrite <- Hl. auto.
  - discriminate.
Qed.

(** X11. Explain mode. A result is valid exactly as follows: the text
    holds no refusal, and among its lines there is a first one that is
    not blank and whose candidate (the line trimmed and without its
    code-fence marks) starts with the tool name, the candidate not
    empty. The command is that candidate, whatever the lines before it
    say; the explanation is the lines after it, each trimmed, the blank
    ones left out, joined by line feeds. *)
Theorem parse_explain_command name raw :
  let r := Parse (New name true) raw in
  (Valid r = true ->
     Contains (TrimSpace raw) refusal = false /\
     HasPrefix (Command r) name = true /\ nonEmpty (Command r) = true /\
     exists before line after,
       SplitLines (TrimSpace raw) = (before ++ line :: after)%list /\
       (forall l, In l before -> startsCommand name l = false) /\
       startsCommand name line = true /\
       Command r = candidate line /\
       Explanation r
       = Join (List.filter nonEmpty (map TrimSpace after)) (String LF "")) /\
  (Contains (TrimSpace raw) refusal = false ->
   forall before line after,
     SplitLines (TrimSpace raw) = (before ++ line :: after)%list ->
     (forall l, In l before -> startsCommand name l = false) ->
     startsCommand name line = true ->
     nonEmpty (candidate line) = true ->
     Valid r = true /\ Command r = candidate line /\
     Explanation r = Join (List.filter nonEmpty (map TrimSpace after)) (String LF "")).
Proof.
  cbv zeta. split; [apply (parseExplainMode_valid name (TrimSpace raw))|].
  intros Hr before line after Hs Hb Hl Hc.
  unfold Parse. cbn [explainMode New]. unfold parseExplainMode. cbn [commandName].
  rewrite Hr, Hs, (findCommand_first _ _ _ _ Hb Hl).
  destruct before; cbn [app]; rewrite Hc; cbn [negb]; repeat split; reflexivity.
Qed.

Example parse_explain_preamble :
  Parse (New "ls" true) ("Here you go:" +:+ nl +:+ "ls -l" +:+ nl +:+ nl +:+ "Long format.")
  = valid "ls -l" "Long format.".
Proof. vm_compute. reflexivity. Qed.

(** Texts without a backtick. *)
Lemma plain_cons c s : plain (String c s) = negb (Ascii.eqb c "`") && plain s.
Proof. reflexivity. Qed.

Lemma plain_HasPrefix s t : plain s = true -> HasPrefix s (String "`" t) = false.
Proof.
  destruct s as [|c s]; [reflexivity|]. rewrite plain_cons. cbn [HasPrefix].
  intros H. apply andb_true_iff in H as [H _]. apply negb_true_iff in H. now rewrite H.
Qed.

Lemma removeOpen_plain bol s : plain s = true -> removeOpen 0 bol s = s.
Proof.
  revert bol. induction s as [|c s IH]; intros bol H; [reflexivity|].
  cbn [removeOpen].
  assert (E : (if bol then matchOpen (String c s) else None) = None).
  { destruct bol; [|reflexivity]. unfold matchOpen, fence. now rewrite plain_HasPrefix. }
  rewrite E. f_equal. apply IH. rewrite plain_cons in H. now apply andb_true_iff in H.
Qed.

Lemma removeClose_plain s : plain s = true -> removeClose 0 s = s.
Proof.
  induction s as [|c s IH]; intros H; [reflexivity|].
  rewrite plain_cons in H. apply andb_true_iff in H as [_ H].
  cbn [removeClose].
  assert (E : matchClose (String c s) = false).
  { unfold matchClose, fence. cbn [HasPrefix]. rewrite (plain_HasPrefix _ _ H).
    now rewrite andb_false_r. }
  rewrite E. f_equal. now apply IH.
Qed.

(** X12. [stripMarkdownCodeBlocks] changes nothing but the white space
    around a text in which there is no backtick. *)
Theorem stripMarkdownCodeBlocks_no_backtick s :
  plain s = true -> stripMarkdownCodeBlocks s = TrimSpace s.
Proof.
  intros H. unfold stripMarkdownCodeBlocks.
  rewrite (removeOpen_plain _ _ H), (removeClose_plain _ H).
  unfold TrimSuffix, TrimPrefix at 2. rewrite (plain_HasPrefix _ _ H).
  unfold TrimPrefix.
  assert (Hr : plain (String.rev s) = true) by (unfold plain; now rewrite allBytes_rev).
  change (String.rev "`") with "`". rewrite (plain_HasPrefix _ _ Hr).
  now rewrite rev_involutive.
Qed.

Lemma stripMarkdownCodeBlocks_no_backtick_witness :
  stripMarkdownCodeBlocks "  tar -czf out.tar.gz dir  " = "tar -czf out.tar.gz dir".
Proof.
  rewrite (stripMarkdownCodeBlocks_no_backtick "  tar -czf out.tar.gz dir  ");
    vm_compute; reflexivity.
Defined.

(** X13. The prompts and the parser agree on the refusal. Both system
    prompts tell the model to answer with one sentence when the man
    page does not hold the answer; that sentence, returned as the
    response, is read by [Parse] as [information not found in man
    page], in either mode and for every tool name. *)
Theorem refusal_sentence_detected b p :
  Contains (prompt.SystemPrompt b) (prompt.dq +:+ refusalSentence +:+ prompt.dq) = true /\
  Parse p refusalSentence = invalid "information not found in man page".
Proof.
  split.
  - unfold prompt.SystemPrompt. destruct (prompt.explainMode b); vm_compute; reflexivity.
  - unfold Parse.
    assert (E : TrimSpace refusalSentence = refusalSentence) by (vm_compute; reflexivity).
    assert (Ec : Contains refusalSentence refusal = true) by (vm_compute; reflexivity).
    rewrite E. unfold parseExplainMode, parseDefaultMode. rewrite Ec.
    now destruct (explainMode p).
Qed.

End ParserFacts.

(** ** The shape of a fingerprint *)

Section KeyShape.

Lemma round_length st kw : List.length (sha256.round st kw) = List.length st.
Proof.
  unfold sha256.round.
  destruct st as [|a [|b [|c [|d [|e [|f [|g [|h [|i st]]]]]]]]]; reflexivity.
Qed.

Lemma fold_round_length kws st :
  List.length (fold_left sha256.round kws st) = List.length st.
Proof.
  revert st. induction kws as [|kw kws IH]; intros st; [reflexivity|].
  cbn [fold_left]. now rewrite IH, round_length.
Qed.

Lemma block_length h w16 : List.length (sha256.block h w16) = List.length h.
Proof.
  unfold sha256.block.
  rewrite List.length_map, List.length_combine, fold_round_length. lia.
Qed.

Lemma blocks_length n h ws : List.length (sha256.blocks n h ws) = List.length h.
Proof.
  revert h ws. induction n as [|n IH]; intros h ws; [reflexivity|].
  cbn [sha256.blocks]. now rewrite IH, block_length.
Qed.

Lemma be_bytes_length n x : List.length (sha256.be_bytes n x) = n.
Proof. unfold sha256.be_bytes. now rewrite List.length_map, List.length_rev, List.length_seq. Qed.

Lemma concat_be_bytes_length l :
  List.length (concat (map (sha256.be_bytes 4) l)) = (4 * List.length l)%nat.
Proof.
  induction l as [|x l IH]; [reflexivity|].
  cbn [map concat]. rewrite List.length_app, be_bytes_length, IH. simpl. lia.
Qed.

(** The digest has 32 bytes. *)
Lemma Sum256_length data : List.length (sha256.Sum256 data) = 32%nat.
Proof.
  unfold sha256.Sum256. now rewrite concat_be_bytes_length, blocks_length.
Qed.

Lemma hexdigit_hex d : 0 <= d < 16 -> isHexLower (fmt.hexdigit d) = true.
Proof.
  intros H. unfold isHexLower, fmt.hexdigit.
  destruct (d <? 10) eqn:E; [apply Z.ltb_lt in E|apply Z.ltb_ge in E];
    rewrite N_ascii_embedding by lia; apply orb_true_iff; [left|right];
    apply andb_true_iff; split; apply N.leb_le; lia.
Qed.

Lemma Sprintf_x_hex bs :
  Forall isByte bs ->
  String.length (fmt.Sprintf_x bs) = (2 * List.length bs)%nat /\
  commands.allBytes isHexLower (fmt.Sprintf_x bs) = true.
Proof.
  induction 1 as [|b bs Hb _ [IHl IHh]]; [split; reflexivity|].
  unfold isByte in Hb. cbn [fmt.Sprintf_x String.length commands.allBytes List.length].
  split; [lia|].
  rewrite !hexdigit_hex, IHh; [reflexivity| |].
  - apply Z.mod_pos_bound. lia.
  - split; [apply Z.div_pos|apply Z.div_lt_upper_bound]; lia.
Qed.

(** X14. A fingerprint is 64 lower-case hexadecimal digits, whatever
    the tool name, the question and the model are: the name of a cache
    file holds no byte of the query, no path separator and no dot but
    that of its [.json]. *)
Theorem GenerateKey_hex command question model :
  strings.len (cache.GenerateKey command question model) = 64%nat /\
  commands.allBytes isHexLower (cache.GenerateKey command question model) = true.
Proof.
  unfold cache.GenerateKey, strings.len.
  destruct (Sprintf_x_hex _ (Sum256_bytes (cache.keyData command question model)))
    as [Hl Hh].
  rewrite Hl, Sum256_length. split; [reflexivity|exact Hh].
Qed.

End KeyShape.

(** ** The cache: hits and expiry *)

Section CacheLife.
Import os.

Lemma isExpired_world c createdAt w :
  snd (cache.isExpired c createdAt w)
  = if cache.maxAgeDays c <=? 0 then w else withTicks w (S (ticks w)).
Proof. unfold cache.isExpired. now destruct (cache.maxAgeDays c <=? 0). Qed.

(** One day, in nanoseconds. *)
Lemma day_nanoseconds : 24 * cache.Hour = 86400000000000.
Proof. reflexivity. Qed.

(** X15. When an entry expires. With a maximal age of zero days or
    less, never, and the clock is not read. With 1 to 106751 days, when
    the clock reads more than the creation time plus that many days of
    24 hours. From 106752 days on (to 213503) the duration overflows
    the 64-bit nanosecond count and comes out negative: every entry
    created up to now is expired. *)
Theorem isExpired_exact c createdAt w :
  (cache.maxAgeDays c <= 0 -> cache.isExpired c createdAt w = (false, w)) /\
  (0 < cache.maxAgeDays c <= 106751 ->
     fst (cache.isExpired c createdAt w)
     = (createdAt + cache.maxAgeDays c * 86400000000000 <? clock w (ticks w))) /\
  (106752 <= cache.maxAgeDays c <= 213503 -> createdAt <= clock w (ticks w) ->
     fst (cache.isExpired c createdAt w) = true).
Proof.
  unfold cache.isExpired, bind, Now, ret, wrap64, cache.Hour.
  split; [|split].
  - intros H. apply Z.leb_le in H. now rewrite H.
  - intros H. destruct (cache.maxAgeDays c <=? 0) eqn:E; [apply Z.leb_le in E; lia|].
    cbn [fst]. f_equal. f_equal.
    rewrite (Z.mod_small (cache.maxAgeDays c * 24 + _)) by lia.
    rewrite Z.mod_small by lia. lia.
  - intros H Hc. destruct (cache.maxAgeDays c <=? 0) eqn:E; [apply Z.leb_le in E; lia|].
    cbn [fst]. apply Z.ltb_lt.
    rewrite (Z.mod_small (cache.maxAgeDays c * 24 + _)) by lia.
    replace ((cache.maxAgeDays c * 24 + 9223372036854775808 - 9223372036854775808)
             * 3600000000000 + 9223372036854775808)
      with ((cache.maxAgeDays c * 86400000000000 - 9223372036854775808)
            + 1 * 18446744073709551616) by lia.
    rewrite Z.mod_add by lia. rewrite Z.mod_small by lia. lia.
Qed.

Example isExpired_examples :
  fst (cache.isExpired (cache.mkCache home 30) 1600000000000000000 emptyWorld) = true /\
  fst (cache.isExpired (cache.mkCache home 30) 1699000000000000000 emptyWorld) = false /\
  fst (cache.isExpired (cache.mkCache home 200000) 1699999999999999999 emptyWorld) = true.
Proof. vm_compute. repeat split. Qed.

Lemma saveEntry_files c e w :
  files (snd (cache.saveEntry c e w))
  = match mkdirErr w, writeErr w, torn w with
    | None, None, _ =>
        <[os.Join (cache.cacheDir c) (cache.Key e +:+ ".json") := json.MarshalIndent e]>
          (files w)
    | None, Some _, Some bytes =>
        <[os.Join (cache.cacheDir c) (cache.Key e +:+ ".json") := Garbage bytes]> (files w)
    | _, _, _ => files w
    end.
Proof.
  unfold cache.saveEntry, bind, MkdirAll, WriteFile, ret.
  destruct (mkdirErr w); [reflexivity|].
  destruct (writeErr w); [now destruct (torn w)|reflexivity].
Qed.

(** [Get] at an entry that is there, has a response and has not expired. *)
Lemma Get_hit_eq c command question model e r w :
  files w !! entryPath c command question model = Some (EntryJSON e) ->
  cache.Response e = Some r ->
  fst (cache.isExpired c (cache.CreatedAt e) w) = false ->
  let w1 := snd (cache.isExpired c (cache.CreatedAt e) w) in
  cache.Get c command question model w
  = (Some (llm.QueryResponse.setCached r),
     snd (cache.saveEntry c (cache.touch e (clock w (ticks w1)))
            (withTicks w1 (S (ticks w1))))).
Proof.
  intros H Hr Hfresh. cbv zeta. unfold cache.Get. rewrite bind_eq.
  fold (entryPath c command question model). rewrite (ReadFile_found _ _ _ H).
  cbn [fst snd json.Unmarshal]. rewrite bind_eq, Hfresh, Hr, bind_eq.
  unfold Now at 1 2. cbn [fst snd]. rewrite bind_eq. unfold ret. cbn [fst snd].
  rewrite isExpired_world. now destruct (cache.maxAgeDays c <=? 0).
Qed.



End CacheLife.

(** ** Runs: calls made, cache written, what is returned *)

Section Runs.
Import os.

#[local] Hint Resolve Printf_calls Now_calls WriteFile_calls MkdirAll_calls New_calls
  saveEntry_calls Set_calls : frame.

Lemma ReadFile_calls p : preserves calls (ReadFile p).
Proof. intros w. unfold ReadFile. now destruct (files w !! p). Qed.
Lemma Remove_calls p : preserves calls (Remove p).
Proof.
  intros w. unfold Remove. destruct (files w !! p); [|reflexivity].
  now destruct (removeErr w).
Qed.
Lemma spin_calls s : preserves calls (cli.spin s).
Proof. intros w. reflexivity. Qed.
Lemma selectErr_calls : preserves calls cli.selectErr.
Proof. intros w. reflexivity. Qed.
#[local] Hint Resolve ReadFile_calls Remove_calls spin_calls selectErr_calls : frame.

Lemma isExpired_calls c t : preserves calls (cache.isExpired c t).
Proof. unfold cache.isExpired. frame. Qed.
#[local] Hint Resolve isExpired_calls : frame.

Lemma Get_calls c a b m : preserves calls (cache.Get c a b m).
Proof. unfold cache.Get. frame. Qed.
#[local] Hint Resolve Get_calls : frame.

Lemma streamLoop_calls model chunks failure content first :
  preserves calls (cli.streamLoop model chunks failure content first).
Proof.
  revert content first. induction chunks as [|ch rest IH]; intros content first; simpl.
  - unfold cli.spinStop. frame.
  - frame.
Qed.
#[local] Hint Resolve streamLoop_calls : frame.

(** Executing a query is one call to the provider. *)
Lemma ExecuteQuery_calls p req opts w :
  calls (snd (cli.ExecuteQuery p req opts w))
  = (calls w ++ [if cli.ShowProgress opts then llm.CallStreamQuery req
                 else llm.CallQuery req])%list.
Proof.
  unfold cli.ExecuteQuery. destruct (cli.ShowProgress opts); [|reflexivity].
  unfold cli.executeStreamingQuery. rewrite bind_eq. cbv beta. rewrite bind_eq. cbv beta.
  match goal with
  | |- calls (snd (?k ?w2)) = _ =>
      assert (Hk : preserves calls k) by (unfold cli.spinStop; frame); rewrite (Hk w2)
  end.
  reflexivity.
Qed.

(** The files: queries and prints leave them alone. *)
Lemma ExecuteQuery_files p req opts : preserves files (cli.ExecuteQuery p req opts).
Proof.
  assert (Hs : forall s, preserves files (cli.spin s)) by (intros s w; reflexivity).
  assert (Hl : forall model chunks failure content first,
             preserves files (cli.streamLoop model chunks failure content first)).
  { intros model chunks failure. induction chunks as [|ch rest IH]; intros content first; simpl.
    - unfold cli.spinStop. frame.
    - frame. }
  unfold cli.ExecuteQuery, cli.executeStreamingQuery, cli.spinStop.
  destruct (cli.ShowProgress opts); [|intros w; reflexivity].
  frame.
Qed.

Lemma when_Printf_world b s w :
  files (snd (when b (Printf s) w)) = files w /\ calls (snd (when b (Printf s) w)) = calls w
  /\ disk (snd (when b (Printf s) w)) = disk w.
Proof. destruct b; repeat split. Qed.

(** What [queryWithCache] does when the cache is not looked at, or
    looked at without a hit. *)
Lemma queryWithCache_ask fl cfg providerConfig promptBuilder activeProfile command question
      w w1 :
  fst ((if negb (cli.noCache fl)
        then cache.Get (cache.mkCache (cacheDirEnv w) (config.CacheDays cfg))
               command question (config.Model activeProfile)
        else ret None) w) = None ->
  w1 = snd ((if negb (cli.noCache fl)
             then cache.Get (cache.mkCache (cacheDirEnv w) (config.CacheDays cfg))
                    command question (config.Model activeProfile)
             else ret None) w) ->
  let asked := cli.ExecuteQuery (cli.Provider providerConfig)
                 (cli.originalRequest providerConfig promptBuilder activeProfile)
                 (queryOptions fl activeProfile) w1 in
  let out := cli.queryWithCache fl cfg providerConfig promptBuilder activeProfile
               command question w in
  fst out = fst asked /\
  calls (snd out)
    = (calls w ++ [firstCall fl providerConfig promptBuilder activeProfile])%list /\
  match fst asked with
  | Err _ => snd out = snd asked
  | Ok resp =>
      files (snd out)
      = files (snd (cache.Set_ (cache.mkCache (cacheDirEnv w) (config.CacheDays cfg))
                      command question (config.Model activeProfile) resp (snd asked)))
  end.
Proof.
  intros Hmiss Hw1. cbv zeta. unfold cli.queryWithCache.
  rewrite bind_eq. cbn [fst snd cache.New]. rewrite bind_eq, Hmiss, <- Hw1.
  rewrite bind_eq. fold (queryOptions fl activeProfile).
  assert (Hc1 : calls w1 = calls w).
  { subst w1. destruct (negb (cli.noCache fl)); [apply Get_calls|reflexivity]. }
  pose proof (ExecuteQuery_calls (cli.Provider providerConfig)
                (cli.originalRequest providerConfig promptBuilder activeProfile)
                (queryOptions fl activeProfile) w1) as Hc2.
  rewrite Hc1 in Hc2.
  change (if cli.ShowProgress (queryOptions fl activeProfile)
          then llm.CallStreamQuery
                 (cli.originalRequest providerConfig promptBuilder activeProfile)
          else llm.CallQuery
                 (cli.originalRequest providerConfig promptBuilder activeProfile))
    with (firstCall fl providerConfig promptBuilder activeProfile) in Hc2.
  destruct (fst (cli.ExecuteQuery _ _ _ w1)) as [resp|err].
  - rewrite !bind_eq. cbn [fst snd ret].
    set (w3 := snd (cache.Set_ _ _ _ _ resp _)).
    match goal with
    | |- context [snd (?m w3)] =>
        assert (Hp : files (snd (m w3)) = files w3 /\ calls (snd (m w3)) = calls w3)
    end.
    { destruct (fst (cache.Set_ _ _ _ _ resp _)); [|split; reflexivity].
      destruct (when_Printf_world (cli.verbose fl)
                  ("Warning: failed to cache response: " +:+ e) w3) as (? & ? & _).
      now split. }
    destruct Hp as [Hpf Hpc].
    split; [reflexivity|]. split; [|exact Hpf].
    rewrite Hpc. subst w3. rewrite Set_calls. exact Hc2.
  - cbn [fst snd ret]. split; [reflexivity|]. split; [exact Hc2|reflexivity].
Qed.

(** X17. [--no-cache] skips the lookup and nothing else. The cache is
    not read (no entry is removed or touched); the provider is asked
    once; the result of the query is the result of that call, whatever
    the state of the cache directory; after an error the files are as
    before; after an answer, on a disk that can be written, the entry
    of the query is written anew, over any entry that was there. *)
Theorem queryWithCache_no_cache fl cfg providerConfig promptBuilder activeProfile
    command question w :
  cli.noCache fl = true ->
  let asked := cli.ExecuteQuery (cli.Provider providerConfig)
                 (cli.originalRequest providerConfig promptBuilder activeProfile)
                 (queryOptions fl activeProfile) w in
  let out := cli.queryWithCache fl cfg providerConfig promptBuilder activeProfile
               command question w in
  fst out = fst asked /\
  calls (snd out)
    = (calls w ++ [firstCall fl providerConfig promptBuilder activeProfile])%list /\
  (forall e, fst out = Err e -> files (snd out) = files w) /\
  (forall resp, fst out = Ok resp -> mkdirErr w = None -> writeErr w = None ->
     exists createdAt accessedAt,
       files (snd out)
       = <[entryPath (cache.mkCache (cacheDirEnv w) (config.CacheDays cfg))
                     command question (config.Model activeProfile)
           := json.MarshalIndent
                (cache.mkEntry
                   (cache.GenerateKey command question (config.Model activeProfile))
                   command question (config.Model activeProfile) (Some resp)
                   createdAt accessedAt 1)]> (files w)).
Proof.
  intros Hn. cbv zeta.
  destruct (queryWithCache_ask fl cfg providerConfig promptBuilder activeProfile
              command question w w) as (Hr & Hc & Hf);
    [now rewrite Hn|now rewrite Hn|].
  pose proof (ExecuteQuery_files (cli.Provider providerConfig)
                (cli.originalRequest providerConfig promptBuilder activeProfile)
                (queryOptions fl activeProfile) w) as Hef.
  pose proof (ExecuteQuery_disk (cli.Provider providerConfig)
                (cli.originalRequest providerConfig promptBuilder activeProfile)
                (queryOptions fl activeProfile) w) as Hed.
  split; [exact Hr|]. split; [exact Hc|]. split.
  - intros e He. rewrite Hr in He. rewrite He in Hf. now rewrite Hf.
  - intros resp Ho Hm Hw. rewrite Hr in Ho. rewrite Ho in Hf. rewrite Hf.
    unfold disk in Hed. injection Hed as Hm2 Hw2 _. rewrite Hm in Hm2. rewrite Hw in Hw2.
    rewrite (Set_writes _ _ _ _ _ _ Hm2 Hw2). cbn [snd files withFiles withTicks].
    rewrite Hef. eauto.
Qed.

Lemma queryWithCache_no_cache_witness :
  exists createdAt accessedAt,
    files (snd (cli.queryWithCache bypassFlags settings (cli.mkProviderConfig oracle 8192)
                  builder openaiProfile "ls" "how do I sort by size" stocked))
    = <[entryPath store "ls" "how do I sort by size" "gpt-4o-mini"
        := json.MarshalIndent
             (cache.mkEntry (cache.GenerateKey "ls" "how do I sort by size" "gpt-4o-mini")
                "ls" "how do I sort by size" "gpt-4o-mini" (Some answer)
                createdAt accessedAt 1)]> (files stocked).
Proof.
  destruct (queryWithCache_no_cache bypassFlags settings (cli.mkProviderConfig oracle 8192)
              builder openaiProfile "ls" "how do I sort by size" stocked eq_refl)
    as (_ & _ & _ & H).
  apply (H answer); reflexivity.
Defined.

(** A valid result of [Parse] has a command that starts with the tool
    name, in either mode. *)
Lemma Parse_valid_prefix name mode raw :
  parser.Valid (parser.Parse (parser.New name mode) raw) = true ->
  strings.HasPrefix (parser.Command (parser.Parse (parser.New name mode) raw)) name = true.
Proof.
  destruct mode.
  - intros H. now apply parseExplainMode_valid in H.
  - rewrite Parse_default. unfold parser.parseDefaultMode. cbn [parser.commandName parser.New].
    destruct (strings.Contains _ parser.refusal); [discriminate|].
    destruct (strings.HasPrefix
                (strings.TrimSpace (parser.stripMarkdownCodeBlocks (strings.TrimSpace raw)))
                name) eqn:Ep; cbn [negb]; [|discriminate].
    cbv zeta.
    match goal with |- context [(1 <? ?n)%nat] => destruct (1 <? n)%nat end.
    + destruct (parser.firstCommandLine name _) as [line|] eqn:Ef; [|discriminate].
      intros _. eapply firstCommandLine_prefix; eassumption.
    + intros _. exact Ep.
Qed.

(** What the validator returns when it returns a result. *)
Lemma validate_ok fl provider promptBuilder resp command explainFlag cfg
      activeProfile question w parsed w' :
  cli.parseAndValidate fl provider promptBuilder resp command explainFlag cfg
    activeProfile question w = (Ok parsed, w') ->
  parser.Valid parsed = true /\
  exists content, parsed = parser.Parse (parser.New command explainFlag) content.
Proof.
  unfold cli.parseAndValidate.
  set (parsed0 := parser.Parse _ (llm.QueryResponse.Content resp)).
  destruct (parser.Valid parsed0) eqn:Ev; cbn [negb andb].
  - intros [= <- _]. split; [exact Ev|]. now eexists.
  - destruct (llm.QueryResponse.Cached resp); cbn [negb]; [discriminate|].
    rewrite bind_eq, bind_eq, providerQuery_eq. cbn [fst snd].
    destruct (llm.Query provider _ _) as [retryResp|err]; [|discriminate].
    destruct (parser.Valid (parser.Parse _ (llm.QueryResponse.Content retryResp))) eqn:Er;
      cbn [negb]; [|discriminate].
    rewrite !bind_eq. intros [= <- _]. split; [exact Er|]. now eexists.
Qed.

(** A response served from the cache: the validator calls no provider. *)
Lemma validate_cached fl provider promptBuilder resp command explainFlag cfg
      activeProfile question w :
  llm.QueryResponse.Cached resp = true ->
  cli.parseAndValidate fl provider promptBuilder resp command explainFlag cfg
    activeProfile question w
  = (let parsed := parser.Parse (parser.New command explainFlag)
                     (llm.QueryResponse.Content resp) in
     if parser.Valid parsed then Ok parsed
     else Err ("cached response invalid: " +:+ cli.showError (parser.Error parsed)), w).
Proof.
  intros Hc. unfold cli.parseAndValidate. rewrite Hc. cbv zeta.
  now destruct (parser.Valid _).
Qed.

Lemma run_eq fl cfg providerConfig activeProfile command manPageContent question
      explainFlag w :
  cli.run fl cfg providerConfig activeProfile command manPageContent question explainFlag w
  = let promptBuilder := prompt.NewBuilder command manPageContent question explainFlag in
    let q := cli.queryWithCache fl cfg providerConfig promptBuilder activeProfile
               command question w in
    match fst q with
    | Err err => (Err err, snd q)
    | Ok resp =>
        let v := cli.parseAndValidate fl (cli.Provider providerConfig) promptBuilder resp
                   command explainFlag cfg activeProfile question (snd q) in
        match fst v with
        | Err err => (Err err, snd v)
        | Ok parsed => (Ok (parsed, resp), snd v)
        end
    end.
Proof.
  unfold cli.run. cbv zeta. rewrite bind_eq.
  destruct (fst (cli.queryWithCache _ _ _ _ _ _ _ w)); [|reflexivity].
  rewrite bind_eq. now destruct (fst (cli.parseAndValidate _ _ _ _ _ _ _ _ _ _)).
Qed.

(** [queryWithCache] at a hit. *)
Lemma queryWithCache_hit fl cfg providerConfig promptBuilder activeProfile command question
      w cached w1 :
  cli.noCache fl = false ->
  cache.Get (cache.mkCache (cacheDirEnv w) (config.CacheDays cfg))
    command question (config.Model activeProfile) w = (Some cached, w1) ->
  fst (cli.queryWithCache fl cfg providerConfig promptBuilder activeProfile
         command question w) = Ok cached /\
  calls (snd (cli.queryWithCache fl cfg providerConfig promptBuilder activeProfile
                command question w)) = calls w.
Proof.
  intros Hn Hg. unfold cli.queryWithCache.
  rewrite bind_eq. cbn [fst snd cache.New]. rewrite bind_eq, Hn. cbn [negb].
  rewrite Hg. cbn [fst snd]. rewrite bind_eq. cbn [fst snd ret].
  split; [reflexivity|].
  destruct (when_Printf_world (cli.verbose fl) "Found in cache" w1) as (_ & -> & _).
  pose proof (Get_calls (cache.mkCache (cacheDirEnv w) (config.CacheDays cfg))
                command question (config.Model activeProfile) w) as H.
  now rewrite Hg in H.
Qed.

(** X18. A hit sends no query. This is about the part of [run] from
    the prompt builder on, [queryWithCache] and then [parseAndValidate];
    the provider has been created by then (and [CreateProvider] may have
    asked an Ollama server for the context window of the model). When
    the cache is looked at and the file of the query holds an entry
    with a response that has not expired, that part sends no [Query]
    and no [StreamQuery] request: the cached response is parsed, and
    the result is the parsed command with that response, or the error
    [cached response invalid]. *)
Theorem hit_sends_no_query fl cfg providerConfig activeProfile command manPageContent
    question explainFlag e r w :
  cli.noCache fl = false ->
  files w !! entryPath (cache.mkCache (cacheDirEnv w) (config.CacheDays cfg))
                       command question (config.Model activeProfile)
    = Some (EntryJSON e) ->
  cache.Response e = Some r ->
  fst (cache.isExpired (cache.mkCache (cacheDirEnv w) (config.CacheDays cfg))
         (cache.CreatedAt e) w) = false ->
  let out := cli.run fl cfg providerConfig activeProfile command manPageContent
               question explainFlag w in
  let parsed := parser.Parse (parser.New command explainFlag) (llm.QueryResponse.Content r) in
  calls (snd out) = calls w /\
  fst out = if parser.Valid parsed
            then Ok (parsed, llm.QueryResponse.setCached r)
            else Err ("cached response invalid: " +:+ cli.showError (parser.Error parsed)).
Proof.
  intros Hn Hf Hr He. cbv zeta. rewrite run_eq. cbv zeta.
  pose proof (Get_hit_eq _ _ _ _ _ _ _ Hf Hr He) as Hg. cbv zeta in Hg.
  destruct (queryWithCache_hit fl cfg providerConfig
              (prompt.NewBuilder command manPageContent question explainFlag)
              activeProfile command question w _ _ Hn Hg) as [Hq Hc].
  rewrite Hq, validate_cached by reflexivity. cbv zeta. cbn [fst snd].
  change (llm.QueryResponse.Content (llm.QueryResponse.setCached r))
    with (llm.QueryResponse.Content r).
  destruct (parser.Valid _); cbn [fst snd]; split; auto.
Qed.

Lemma hit_sends_no_query_witness :
  calls (snd (cli.run quietFlags settings (cli.mkProviderConfig stub 8192) openaiProfile
                "ls" manual "how do I sort by size" false stocked)) = calls stocked /\
  fst (cli.run quietFlags settings (cli.mkProviderConfig stub 8192) openaiProfile
         "ls" manual "how do I sort by size" false stocked)
  = Ok (parser.valid "ls -lhS" "", llm.QueryResponse.setCached answer).
Proof.
  destruct (hit_sends_no_query quietFlags settings (cli.mkProviderConfig stub 8192)
              openaiProfile "ls" manual "how do I sort by size" false stockedEntry answer
              stocked) as [Hc Hr]; try (vm_compute; reflexivity).
  split; [exact Hc|]. rewrite Hr. vm_compute. reflexivity.
Defined.

(** What [queryWithCache] adds to the calls: nothing at a hit, one call
    otherwise. *)
Lemma queryWithCache_calls fl cfg providerConfig promptBuilder activeProfile command
      question w :
  let out := cli.queryWithCache fl cfg providerConfig promptBuilder activeProfile
               command question w in
  (exists cached, fst out = Ok cached /\ llm.QueryResponse.Cached cached = true
                  /\ calls (snd out) = calls w) \/
  calls (snd out) = (calls w ++ [firstCall fl providerConfig promptBuilder activeProfile])%list.
Proof.
  cbv zeta.
  destruct (fst ((if negb (cli.noCache fl)
                  then cache.Get (cache.mkCache (cacheDirEnv w) (config.CacheDays cfg))
                         command question (config.Model activeProfile)
                  else ret None) w)) as [cached|] eqn:Eh.
  - left. destruct (cli.noCache fl) eqn:En; cbn [negb] in Eh; [discriminate|].
    destruct (cache.Get _ _ _ _ w) as [hit w1] eqn:Eg. cbn [fst] in Eh. subst hit.
    destruct (queryWithCache_hit fl cfg providerConfig promptBuilder activeProfile
                command question w _ _ En Eg) as [Hq Hc].
    exists cached. split; [exact Hq|]. split; [|exact Hc].
    eapply Get_Cached. rewrite Eg. reflexivity.
  - right. eapply queryWithCache_ask; [exact Eh|reflexivity].
Qed.

(** X19. The queries of a run. From the prompt builder on
    ([queryWithCache], then [parseAndValidate]) the [Query] and
    [StreamQuery] requests sent to the provider are: none; or the
    query alone; or the query and then the retry. There is no second
    retry, and no retry without the query before it. Requests of
    another kind (the look-up of the context window that
    [CreateProvider] makes before) are not counted here. *)
Theorem run_queries fl cfg providerConfig activeProfile command manPageContent question
    explainFlag w :
  let promptBuilder := prompt.NewBuilder command manPageContent question explainFlag in
  let out := cli.run fl cfg providerConfig activeProfile command manPageContent
               question explainFlag w in
  let query := firstCall fl providerConfig promptBuilder activeProfile in
  let retry := llm.CallQuery (cli.retryRequest promptBuilder activeProfile) in
  calls (snd out) = calls w \/
  calls (snd out) = (calls w ++ [query])%list \/
  calls (snd out) = (calls w ++ [query; retry])%list.
Proof.
  cbv zeta. rewrite run_eq. cbv zeta.
  set (promptBuilder := prompt.NewBuilder command manPageContent question explainFlag).
  destruct (queryWithCache_calls fl cfg providerConfig promptBuilder activeProfile command
              question w) as [(cached & Hq & Hc & Hcalls)|Hcalls].
  - left. rewrite Hq, validate_cached by exact Hc. cbv zeta. cbn [fst snd].
    now destruct (parser.Valid _).
  - destruct (fst (cli.queryWithCache _ _ _ _ _ _ _ w)) as [resp|err];
      [|right; left; exact Hcalls].
    pose proof (validate_calls fl (cli.Provider providerConfig) promptBuilder resp command
                  explainFlag cfg activeProfile question
                  (snd (cli.queryWithCache fl cfg providerConfig promptBuilder activeProfile
                          command question w))) as Hv.
    cbv zeta in Hv.
    assert (Hs : forall (x : result parser.ParsedResponse) (w0 : World),
               calls (snd (match x with
                           | Ok parsed => (Ok (parsed, resp), w0)
                           | Err err0 => (Err err0, w0)
                           end)) = calls w0) by (now intros [|]).
    rewrite Hs. destruct Hv as [Hv|Hv]; rewrite Hv, Hcalls.
    + right; left; reflexivity.
    + right; right. now rewrite <- List.app_assoc.
Qed.

(** X20. A retry that validates replaces the entry. The response came
    from the provider and does not validate; the provider answers the
    retry with a response that does; the disk can be written. Then the
    validator returns the parse of the retry response, and the entry of
    the query holds the retry response (the response [queryWithCache]
    stored before is overwritten). *)
Theorem retry_success_cached fl provider promptBuilder resp command explainFlag cfg
    activeProfile question w retryResp :
  llm.QueryResponse.Cached resp = false ->
  parser.Valid (parser.Parse (parser.New command explainFlag)
                  (llm.QueryResponse.Content resp)) = false ->
  llm.Query provider (calls w) (cli.retryRequest promptBuilder activeProfile) = Ok retryResp ->
  parser.Valid (parser.Parse (parser.New command explainFlag)
                  (llm.QueryResponse.Content retryResp)) = true ->
  mkdirErr w = None -> writeErr w = None ->
  exists w' createdAt accessedAt,
    cli.parseAndValidate fl provider promptBuilder resp command explainFlag cfg
      activeProfile question w
    = (Ok (parser.Parse (parser.New command explainFlag)
             (llm.QueryResponse.Content retryResp)), w') /\
    files w'
    = <[entryPath (cache.mkCache (cacheDirEnv w) (config.CacheDays cfg))
                  command question (config.Model activeProfile)
        := json.MarshalIndent
             (cache.mkEntry
                (cache.GenerateKey command question (config.Model activeProfile))
                command question (config.Model activeProfile) (Some retryResp)
                createdAt accessedAt 1)]> (files w).
Proof.
  intros Hc Hv Hq Hr Hm Hw. unfold cli.parseAndValidate.
  rewrite Hc, Hv. cbn [negb andb]. rewrite bind_eq.
  set (w1 := snd (when _ _ w)).
  destruct (when_Printf_world (cli.verbose fl)
              ("Validation failed: "
               +:+ cli.showError
                     (parser.Error (parser.Parse (parser.New command explainFlag)
                                      (llm.QueryResponse.Content resp)))
               +:+ ", retrying with strict prompt") w) as (Hf1 & Hc1 & Hd1).
  fold w1 in Hf1, Hc1, Hd1.
  rewrite bind_eq, providerQuery_eq. cbn [fst snd]. rewrite Hc1, Hq, Hr. cbn [negb].
  rewrite bind_eq. cbn [fst snd cache.New cacheDirEnv withCalls].
  unfold disk in Hd1. injection Hd1 as Hm1 Hw1 Hdir. rewrite Hdir.
  rewrite bind_eq, Set_writes by (cbn [mkdirErr writeErr withCalls]; congruence).
  cbn [fst snd]. rewrite bind_eq. cbn [fst snd ret].
  eexists _, _, _. split; [reflexivity|].
  cbn [files withFiles withTicks withCalls]. now rewrite Hf1.
Qed.

Lemma retry_success_cached_witness :
  exists w' createdAt accessedAt,
    cli.parseAndValidate quietFlags oracle builder wrongAnswer "ls" false settings
      openaiProfile "how do I sort by size" emptyWorld
    = (Ok (parser.valid "ls -lhS" ""), w') /\
    files w'
    = <[entryPath store "ls" "how do I sort by size" "gpt-4o-mini"
        := json.MarshalIndent
             (cache.mkEntry (cache.GenerateKey "ls" "how do I sort by size" "gpt-4o-mini")
                "ls" "how do I sort by size" "gpt-4o-mini" (Some answer)
                createdAt accessedAt 1)]> (files emptyWorld).
Proof.
  destruct (retry_success_cached quietFlags oracle builder wrongAnswer "ls" false settings
              openaiProfile "how do I sort by size" emptyWorld answer)
    as (w' & t1 & t2 & H1 & H2); try (vm_compute; reflexivity).
  exists w', t1, t2. split; [|exact H2]. rewrite H1. vm_compute. reflexivity.
Defined.

(** X21. What a run returns. When the run returns a result, the parsed
    response is valid and its command starts with the tool name, in
    command-only mode and in explain mode, whether the response came
    from the cache, from the query or from the retry. *)
Theorem run_returns_command fl cfg providerConfig activeProfile command manPageContent
    question explainFlag w parsed resp w' :
  cli.run fl cfg providerConfig activeProfile command manPageContent question explainFlag w
    = (Ok (parsed, resp), w') ->
  parser.Valid parsed = true /\
  strings.HasPrefix (parser.Command parsed) command = true.
Proof.
  rewrite run_eq. cbv zeta.
  destruct (fst (cli.queryWithCache _ _ _ _ _ _ _ w)) as [resp0|]; [|discriminate].
  destruct (cli.parseAndValidate _ _ _ resp0 _ _ _ _ _ _) as [[p|] w2] eqn:Ev;
    cbn [fst snd]; [|discriminate].
  intros [= <- _ _]. apply validate_ok in Ev as [Hv (content & ->)].
  split; [exact Hv|]. now apply Parse_valid_prefix.
Qed.

Lemma run_returns_command_witness :
  parser.Valid (parser.valid "ls -lhS" "") = true /\
  strings.HasPrefix (parser.Command (parser.valid "ls -lhS" "")) "ls" = true.
Proof.
  apply (run_returns_command quietFlags settings (cli.mkProviderConfig stub 8192)
           openaiProfile "ls" manual "how do I sort by size" false stocked
           (parser.valid "ls -lhS" "") (llm.QueryResponse.setCached answer)
           (snd (cli.run quietFlags settings (cli.mkProviderConfig stub 8192) openaiProfile
                   "ls" manual "how do I sort by size" false stocked))).
  vm_compute. reflexivity.
Defined.

End Runs.

(** ** The prompt, and entries of other queries *)

Section PromptAndEntries.
Import os.

Lemma Contains_head x b : strings.Contains (x +:+ b) x = true.
Proof.
  destruct (x +:+ b) eqn:E; cbn [strings.Contains]; rewrite <- E, HasPrefix_append;
    reflexivity.
Qed.

Lemma Contains_skip a t x :
  strings.Contains t x = true -> strings.Contains (a +:+ t) x = true.
Proof.
  intros H. induction a as [|c a IH]; cbn [append]; [exact H|].
  cbn [strings.Contains]. rewrite IH. apply orb_true_r.
Qed.

(** X22. The user prompt carries the whole man page and the whole
    question: both occur in it as they are, whatever their size, and
    its length is theirs and the tool name's plus the 57 bytes of the
    frame. Nothing is cut to fit a context window. *)
Theorem UserPrompt_carries command manPage question explainMode :
  let p := prompt.UserPrompt (prompt.NewBuilder command manPage question explainMode) in
  strings.Contains p manPage = true /\
  strings.Contains p question = true /\
  strings.len p
  = (strings.len command + strings.len manPage + strings.len question + 57)%nat.
Proof.
  cbv zeta. unfold prompt.UserPrompt, prompt.NewBuilder, strings.len.
  cbn [prompt.command prompt.manPage prompt.question].
  split; [|split].
  - do 5 apply Contains_skip. apply Contains_head.
  - do 9 apply Contains_skip. apply Contains_head.
  - rewrite !len_append. simpl String.length. lia.
Qed.

Lemma append_inj_r (a b s : string) : a +:+ s = b +:+ s -> a = b.
Proof.
  intros H. apply (f_equal String.rev) in H. rewrite !rev_append in H.
  apply String.app_inj in H. apply (f_equal String.rev) in H.
  now rewrite !rev_involutive in H.
Qed.

Lemma Join_inj dir a b : os.Join dir a = os.Join dir b -> a = b.
Proof.
  unfold os.Join. destruct dir as [|c dir]; [auto|].
  intros H. apply String.app_inj in H. now apply String.app_inj in H.
Qed.

Lemma entryPath_inj c c1 q1 m1 c2 q2 m2 :
  entryPath c c1 q1 m1 = entryPath c c2 q2 m2 ->
  cache.GenerateKey c1 q1 m1 = cache.GenerateKey c2 q2 m2.
Proof. unfold entryPath. intros H. apply Join_inj in H. now apply append_inj_r in H. Qed.



(** X24. What [Get] throws away. An entry that has expired, and an
    entry that holds no response, are reported as a miss and their file
    is removed (when the file can be removed). *)
Theorem Get_discards c command question model e w :
  files w !! entryPath c command question model = Some (EntryJSON e) ->
  fst (cache.isExpired c (cache.CreatedAt e) w) = true \/ cache.Response e = None ->
  removeErr w = None ->
  exists w',
    cache.Get c command question model w = (None, w') /\
    files w' = delete (entryPath c command question model) (files w).
Proof.
  intros H Hwhy Hrm. unfold cache.Get. rewrite bind_eq.
  fold (entryPath c command question model). rewrite (ReadFile_found _ _ _ H).
  cbn [fst snd json.Unmarshal]. rewrite bind_eq.
  assert (Hw : files (snd (cache.isExpired c (cache.CreatedAt e) w)) = files w
               /\ removeErr (snd (cache.isExpired c (cache.CreatedAt e) w)) = removeErr w).
  { rewrite isExpired_world. destruct (cache.maxAgeDays c <=? 0); split; reflexivity. }
  destruct Hw as [Hf Hre].
  assert (Hremove : forall w0, files w0 = files w -> removeErr w0 = removeErr w ->
            files (snd (Remove (entryPath c command question model) w0))
            = delete (entryPath c command question model) (files w)).
  { intros w0 Hf0 Hr0. unfold Remove.
    rewrite Hf0, H, Hr0, Hrm. cbn [snd files withFiles]. now rewrite ?Hf0. }
  destruct (fst (cache.isExpired c (cache.CreatedAt e) w)) eqn:Ex.
  - eexists. split; [rewrite bind_eq; reflexivity|]. now apply Hremove.
  - destruct Hwhy as [Hwhy|Hwhy]; [discriminate|]. rewrite Hwhy.
    eexists. split; [rewrite bind_eq; reflexivity|]. now apply Hremove.
Qed.

Lemma Get_discards_witness :
  exists w',
    cache.Get (cache.mkCache home 30) "ls" "how do I sort by size" "gpt-4o-mini" later
      = (None, w') /\
    files w' = delete (entryPath store "ls" "how do I sort by size" "gpt-4o-mini")
                 (files later).
Proof.
  apply (Get_discards (cache.mkCache home 30) "ls" "how do I sort by size" "gpt-4o-mini"
           stockedEntry later).
  - vm_compute. reflexivity.
  - left. vm_compute. reflexivity.
  - reflexivity.
Defined.

End PromptAndEntries.

(** ** Clearing the cache *)

Section Housekeeping.
Import os osdir housekeeping.

Lemma Join_slash dir name : dir <> "" -> os.Join dir name = (dir +:+ "/") +:+ name.
Proof. destruct dir; [congruence|]. intros _. unfold os.Join. now rewrite append_assoc. Qed.

Lemma drop_append (a b : string) : strings.drop (strings.len a) (a +:+ b) = b.
Proof. induction a as [|c a IH]; [now destruct b|exact IH]. Qed.

Lemma firstElement_noSlash name : noSlash name = true -> firstElement name = (name, false).
Proof.
  induction name as [|c name IH]; [reflexivity|]. unfold noSlash. cbn [commands.allBytes].
  intros H. apply andb_true_iff in H as [Hc H]. apply negb_true_iff in Hc.
  cbn [firstElement]. now rewrite Hc, (IH H).
Qed.

Lemma entryOf_file dir name :
  noSlash name = true -> parser.nonEmpty name = true ->
  entryOf dir ((dir +:+ "/") +:+ name) = Some (mkDirEntry name false).
Proof.
  intros Hs Hn. unfold entryOf.
  now rewrite HasPrefix_append, drop_append, (firstElement_noSlash _ Hs), Hn.
Qed.

Lemma insertEntry_elem y e l : y ∈ insertEntry e l <-> y = e \/ y ∈ l.
Proof.
  induction l as [|x l IH]; cbn [insertEntry].
  - rewrite list_elem_of_singleton. split; [auto|]. intros [H|H]; [exact H|inversion H].
  - destruct (String.ltb (Name e) (Name x)); [apply elem_of_cons|].
    destruct (String.eqb (Name e) (Name x) && Bool.eqb (IsDir e) (IsDir x)) eqn:E.
    + apply andb_true_iff in E as [E1 E2].
      apply String.eqb_eq in E1. apply Bool.eqb_prop in E2.
      assert (e = x) as -> by (destruct e, x; cbn in *; congruence).
      split; [auto|]. intros [->|H]; [apply list_elem_of_here|exact H].
    + rewrite !elem_of_cons, IH. tauto.
Qed.

Lemma foldr_insertEntry_elem y l : y ∈ foldr insertEntry [] l <-> y ∈ l.
Proof.
  induction l as [|e l IH]; cbn [foldr]; [reflexivity|].
  rewrite insertEntry_elem, IH, elem_of_cons. reflexivity.
Qed.

(** A file in the directory is among the entries. *)
Lemma listed dir name d w :
  dir <> "" -> noSlash name = true -> parser.nonEmpty name = true ->
  files w !! os.Join dir name = Some d ->
  mkDirEntry name false
    ∈ foldr insertEntry [] (omap (entryOf dir) (map fst (map_to_list (files w)))).
Proof.
  intros Hd Hs Hn Hf. apply foldr_insertEntry_elem, list_elem_of_omap.
  exists (os.Join dir name). split.
  - apply list_elem_of_fmap. exists (os.Join dir name, d). split; [reflexivity|].
    now apply elem_of_map_to_list.
  - rewrite Join_slash by congruence. now apply entryOf_file.
Qed.

(** A file in a directory that can be read is listed. *)
Lemma ReadDir_lists dir name d w :
  dir <> "" -> readable dir w -> noSlash name = true -> parser.nonEmpty name = true ->
  files w !! os.Join dir name = Some d ->
  exists entries, ReadDir dir w = (Ok entries, w) /\ mkDirEntry name false ∈ entries.
Proof.
  intros Hd [Hfile Hread] Hs Hn Hf. pose proof (listed _ _ _ _ Hd Hs Hn Hf) as Hin.
  unfold ReadDir. destruct dir as [|c0 dir0] eqn:Ed; [congruence|].
  rewrite <- Ed in *. rewrite Hfile, Hread.
  destruct (foldr insertEntry [] _) as [|e es]; [inversion Hin|]. eauto.
Qed.

(** A directory that cannot be read. *)
Lemma ReadDir_unreadable dir w err :
  dir <> "" -> files w !! dir = None -> readDirErr w = Some err ->
  ReadDir dir w = (Err err, w).
Proof.
  intros Hd Hfile Hread.
  unfold ReadDir. destruct dir as [|c0 dir0] eqn:Ed; [congruence|].
  rewrite <- Ed in *. now rewrite Hfile, Hread.
Qed.

(** A path that names a file. *)
Lemma ReadDir_file dir w :
  dir <> "" -> files w !! dir <> None -> ReadDir dir w = (Err (notDirectory "open" dir), w).
Proof.
  intros Hd Hf. unfold ReadDir. destruct dir as [|c0 dir0] eqn:Ed; [congruence|].
  rewrite <- Ed in *. destruct (files w !! dir); [reflexivity|congruence].
Qed.

Lemma firstElement_fst rel : noSlash (fst (firstElement rel)) = true.
Proof.
  induction rel as [|c rel IH]; [reflexivity|]. cbn [firstElement].
  destruct (Ascii.eqb c "/") eqn:E; [reflexivity|].
  destruct (firstElement rel) as [name more]. cbn [fst] in *.
  unfold noSlash in *. cbn [commands.allBytes]. now rewrite E, IH.
Qed.

Lemma entryOf_noSlash dir path e : entryOf dir path = Some e -> noSlash (Name e) = true.
Proof.
  unfold entryOf. destruct (strings.HasPrefix path _); [|discriminate].
  pose proof (firstElement_fst (strings.drop (strings.len (dir +:+ "/")) path)) as H.
  destruct (firstElement _) as [name more]. cbn [fst] in H.
  destruct (parser.nonEmpty name); [|discriminate]. now intros [= <-].
Qed.

(** The names listed hold no separator. *)
Lemma ReadDir_noSlash dir w entries e :
  fst (ReadDir dir w) = Ok entries -> e ∈ entries -> noSlash (Name e) = true.
Proof.
  unfold ReadDir. destruct dir as [|c0 dir0] eqn:Ed; [discriminate|]. rewrite <- Ed.
  destruct (files w !! dir); [discriminate|].
  destruct (readDirErr w); [discriminate|].
  destruct (foldr insertEntry [] _) as [|x l] eqn:El; [discriminate|].
  cbn [fst]. intros [= <-] Hin. rewrite <- El in Hin.
  apply foldr_insertEntry_elem, list_elem_of_omap in Hin as (path & _ & Hp).
  exact (entryOf_noSlash _ _ _ Hp).
Qed.

Lemma ReadDir_world dir w : snd (ReadDir dir w) = w.
Proof.
  unfold ReadDir. destruct dir; [reflexivity|].
  destruct (files w !! _); [reflexivity|].
  destruct (readDirErr w); [reflexivity|].
  now destruct (foldr insertEntry [] _).
Qed.

Lemma IsNotExist_notExist op path : IsNotExist (notExist op path) = true.
Proof.
  unfold IsNotExist, notExist, strings.HasSuffix.
  change ": no such file or directory" with (": " +:+ "no such file or directory").
  rewrite <- !append_assoc, rev_append. apply HasPrefix_append.
Qed.

Lemma IsNotExist_notDirectory op path : IsNotExist (notDirectory op path) = false.
Proof.
  unfold IsNotExist, notDirectory, strings.HasSuffix.
  rewrite <- !append_assoc, rev_append.
  change (String.rev ": not a directory") with "yrotcerid a ton :".
  change (String.rev "no such file or directory") with "yrotcerid ro elif hcus on".
  reflexivity.
Qed.

(** In a directory that can be read the only failure is that the
    directory is not there. *)
Lemma ReadDir_error dir w err :
  readable dir w -> fst (ReadDir dir w) = Err err -> IsNotExist err = true.
Proof.
  intros [Hfile Hread]. unfold ReadDir. destruct dir as [|c0 dir0] eqn:Ed;
    [cbn [fst]; intros [= <-]; apply IsNotExist_notExist|].
  rewrite <- Ed in *. rewrite Hfile, Hread.
  destruct (foldr insertEntry [] _); cbn [fst];
    [intros [= <-]; apply IsNotExist_notExist|discriminate].
Qed.

(** What [os.Remove] does to the files. *)
Lemma Remove_removeErr p w : removeErr (snd (Remove p w)) = removeErr w.
Proof.
  unfold Remove. destruct (files w !! p); [|reflexivity].
  destruct (removeErr w) eqn:E; cbn [snd removeErr withFiles]; congruence.
Qed.

Lemma Remove_other p q w : q <> p -> files (snd (Remove p w)) !! q = files w !! q.
Proof.
  intros H. unfold Remove. destruct (files w !! p); [|reflexivity].
  destruct (removeErr w); [reflexivity|]. cbn [snd files withFiles].
  now apply lookup_delete_ne.
Qed.

Lemma Remove_none p q w : files w !! q = None -> files (snd (Remove p w)) !! q = None.
Proof.
  intros H. unfold Remove. destruct (files w !! p); [|exact H].
  destruct (removeErr w); [exact H|]. cbn [snd files withFiles].
  destruct (decide (p = q)) as [->|Hne]; [apply lookup_delete_eq|].
  now rewrite lookup_delete_ne.
Qed.

Lemma Remove_gone p w : removeErr w = None -> files (snd (Remove p w)) !! p = None.
Proof.
  intros H. unfold Remove. destruct (files w !! p) eqn:E; [|exact E].
  rewrite H. cbn [snd files withFiles]. apply lookup_delete_eq.
Qed.

Lemma clearLoop_cons c entry rest removed w :
  clearLoop c (entry :: rest) removed w
  = if isCacheFile entry
    then clearLoop c rest
           (match fst (Remove (os.Join (cache.cacheDir c) (Name entry)) w) with
            | None => wrap64 (removed + 1)
            | Some _ => removed
            end)
           (snd (Remove (os.Join (cache.cacheDir c) (Name entry)) w))
    else clearLoop c rest removed w.
Proof.
  cbn [clearLoop]. destruct (isCacheFile entry); [|reflexivity].
  rewrite bind_eq. now destruct (fst (Remove _ w)).
Qed.

Lemma clearLoop_removeErr c entries removed w :
  removeErr (snd (clearLoop c entries removed w)) = removeErr w.
Proof.
  revert removed w. induction entries as [|e es IH]; intros removed w; [reflexivity|].
  rewrite clearLoop_cons. destruct (isCacheFile e); [|apply IH].
  now rewrite IH, Remove_removeErr.
Qed.

Lemma clearLoop_none c entries removed w p :
  files w !! p = None -> files (snd (clearLoop c entries removed w)) !! p = None.
Proof.
  revert removed w. induction entries as [|e es IH]; intros removed w H; [exact H|].
  rewrite clearLoop_cons. destruct (isCacheFile e); [|now apply IH].
  apply IH. now apply Remove_none.
Qed.

Lemma clearLoop_removed c entries removed w e :
  removeErr w = None -> e ∈ entries -> isCacheFile e = true ->
  files (snd (clearLoop c entries removed w)) !! os.Join (cache.cacheDir c) (Name e) = None.
Proof.
  intros Hr Hin He. revert removed w Hr.
  induction entries as [|x es IH]; intros removed w Hr; [inversion Hin|].
  rewrite clearLoop_cons. apply elem_of_cons in Hin as [<-|Hin].
  - rewrite He. apply clearLoop_none. now apply Remove_gone.
  - destruct (isCacheFile x); [|now apply IH].
    apply IH; [exact Hin|]. now rewrite Remove_removeErr.
Qed.

Lemma clearLoop_other c entries removed w p :
  (forall e, e ∈ entries -> isCacheFile e = true -> p <> os.Join (cache.cacheDir c) (Name e)) ->
  files (snd (clearLoop c entries removed w)) !! p = files w !! p.
Proof.
  revert removed w. induction entries as [|x es IH]; intros removed w H; [reflexivity|].
  assert (Hes : forall e, e ∈ es -> isCacheFile e = true ->
                          p <> os.Join (cache.cacheDir c) (Name e))
    by (intros e Hin; apply H; now right).
  rewrite clearLoop_cons. destruct (isCacheFile x) eqn:Ex; [|now apply IH].
  rewrite IH by exact Hes. apply Remove_other. apply H; [now left|exact Ex].
Qed.

Lemma Ext_json name : filepath.Ext (name +:+ ".json") = ".json".
Proof. unfold filepath.Ext. rewrite rev_append. reflexivity. Qed.

Lemma allBytes_impl (p q : ascii -> bool) s :
  (forall c, p c = true -> q c = true) ->
  commands.allBytes p s = true -> commands.allBytes q s = true.
Proof.
  intros Hpq. induction s as [|c s IH]; [reflexivity|]. cbn [commands.allBytes].
  intros H. apply andb_true_iff in H as [Hc H]. now rewrite (Hpq _ Hc), IH.
Qed.

Lemma isHexLower_noSlash c : isHexLower c = true -> negb (Ascii.eqb c "/") = true.
Proof.
  intros H. apply negb_true_iff. destruct (Ascii.eqb c "/") eqn:E; [|reflexivity].
  apply Ascii.eqb_eq in E. subst c. discriminate.
Qed.

(** The file name of an entry: no separator, not empty, extension [.json]. *)
Lemma entry_file_name command question model :
  let name := cache.GenerateKey command question model +:+ ".json" in
  noSlash name = true /\ parser.nonEmpty name = true /\
  isCacheFile (mkDirEntry name false) = true.
Proof.
  cbv zeta. destruct (Sprintf_x_hex _ (Sum256_bytes (cache.keyData command question model)))
    as [Hl Hh].
  fold (cache.GenerateKey command question model) in Hl, Hh.
  split; [|split].
  - unfold noSlash. rewrite allBytes_append.
    rewrite (allBytes_impl _ _ _ isHexLower_noSlash Hh). reflexivity.
  - destruct (cache.GenerateKey command question model); reflexivity.
  - unfold isCacheFile. cbn [IsDir Name negb andb]. now rewrite Ext_json.
Qed.

(** [Clear], file by file. *)
Lemma Clear_files c w :
  cache.cacheDir c <> "" -> readable (cache.cacheDir c) w -> removeErr w = None ->
  exists removed w',
    Clear c w = ((removed, None), w') /\
    (forall name, noSlash name = true -> parser.nonEmpty name = true ->
                  filepath.Ext name = ".json" ->
                  files w' !! os.Join (cache.cacheDir c) name = None) /\
    (forall path,
        (forall name, noSlash name = true -> filepath.Ext name = ".json" ->
                      path <> os.Join (cache.cacheDir c) name) ->
        files w' !! path = files w !! path).
Proof.
  intros Hd Hrd Hr. unfold Clear. rewrite bind_eq, ReadDir_world.
  destruct (fst (ReadDir (cache.cacheDir c) w)) as [entries|err] eqn:Er.
  - rewrite bind_eq. cbn [ret]. eexists _, _. split; [reflexivity|]. split.
    + intros name Hs Hn He.
      destruct (files w !! os.Join (cache.cacheDir c) name) as [d|] eqn:Ef;
        [|now apply clearLoop_none].
      destruct (ReadDir_lists _ _ _ _ Hd Hrd Hs Hn Ef) as (entries' & Hl & Hin).
      rewrite Hl in Er. injection Er as ->.
      apply (clearLoop_removed c entries 0 w (mkDirEntry name false) Hr Hin).
      unfold isCacheFile. cbn [IsDir Name negb andb]. rewrite He. reflexivity.
    + intros path Hp. apply clearLoop_other. intros e Hin He.
      apply Hp; [exact (ReadDir_noSlash _ _ _ _ Er Hin)|].
      unfold isCacheFile in He. apply andb_true_iff in He as [_ He].
      now apply String.eqb_eq in He.
  - rewrite (ReadDir_error _ _ _ Hrd Er). cbn [ret]. eexists _, _. split; [reflexivity|].
    split; [|reflexivity].
    intros name Hs Hn He.
    destruct (files w !! os.Join (cache.cacheDir c) name) as [d|] eqn:Ef; [|reflexivity].
    destruct (ReadDir_lists _ _ _ _ Hd Hrd Hs Hn Ef) as (entries' & Hl & _).
    rewrite Hl in Er. discriminate.
Qed.

(** When [Clear] returns an error nothing has been removed. *)
Lemma Clear_error c w e :
  snd (fst (Clear c w)) = Some e ->
  (exists err, e = "failed to read cache directory: " +:+ err) /\
  fst (fst (Clear c w)) = 0 /\ snd (Clear c w) = w.
Proof.
  unfold Clear. rewrite bind_eq, ReadDir_world.
  destruct (fst (ReadDir (cache.cacheDir c) w)) as [entries|err].
  - rewrite bind_eq. cbn [ret fst snd]. discriminate.
  - destruct (IsNotExist err); cbn [ret fst snd]; [discriminate|].
    intros [= <-]. eauto.
Qed.

(** [Clear] when reading the directory fails with [err]. *)
Lemma Clear_fails c w err :
  ReadDir (cache.cacheDir c) w = (Err err, w) -> IsNotExist err = false ->
  Clear c w = ((0, Some ("failed to read cache directory: " +:+ err)), w).
Proof. intros Hr He. unfold Clear. rewrite bind_eq, Hr. cbn [fst snd]. now rewrite He. Qed.



Example Clear_examples :
  Clear store (withFiles emptyWorld {[ home := Garbage "a file, not a directory" ]})
  = ((0, Some ("failed to read cache directory: " +:+ notDirectory "open" home)),
     withFiles emptyWorld {[ home := Garbage "a file, not a directory" ]}) /\
  Clear store sealed
  = ((0, Some "failed to read cache directory: open /home/u/.cache/heyman: permission denied"),
     sealed) /\
  Clear store emptyWorld = ((0, None), emptyWorld).
Proof. vm_compute. repeat split. Qed.

(** One turn of the loop of [CleanExpired]. *)
Lemma cleanLoop_cons c x es n w :
  exists n1 w1,
    cleanLoop c (x :: es) n w = cleanLoop c es n1 w1 /\
    clock w1 = clock w /\ removeErr w1 = removeErr w /\
    (forall p, files w1 !! p = files w !! p \/
               (files w1 !! p = None /\ exists e, files w !! p = Some (EntryJSON e))) /\
    (isCacheFile x = true ->
     forall e, files w !! os.Join (cache.cacheDir c) (Name x) = Some (EntryJSON e) ->
               fst (cache.isExpired c (cache.CreatedAt e) w) = true ->
               removeErr w = None ->
               files w1 !! os.Join (cache.cacheDir c) (Name x) = None) /\
    (cache.maxAgeDays c <= 0 -> n1 = n /\ w1 = w).
Proof.
  cbn [cleanLoop]. destruct (isCacheFile x) eqn:Ex.
  2:{ exists n, w. repeat split; auto; discriminate. }
  set (q := os.Join (cache.cacheDir c) (Name x)).
  rewrite bind_eq. unfold ReadFile at 1 2.
  destruct (files w !! q) as [data|] eqn:Eq; cbn [fst snd].
  2:{ exists n, w. repeat split; auto; intros; discriminate. }
  destruct data as [bytes|entry]; cbn [json.Unmarshal].
  { exists n, w. repeat split; auto; intros; discriminate. }
  rewrite bind_eq.
  assert (Hw : let w0 := snd (cache.isExpired c (cache.CreatedAt entry) w) in
               files w0 = files w /\ clock w0 = clock w /\ removeErr w0 = removeErr w).
  { cbv zeta. rewrite isExpired_world. destruct (cache.maxAgeDays c <=? 0); repeat split. }
  cbv zeta in Hw. destruct Hw as (Hf & Hc & Hr).
  set (w0 := snd (cache.isExpired c (cache.CreatedAt entry) w)) in *.
  assert (Hidle : cache.maxAgeDays c <= 0 ->
                  fst (cache.isExpired c (cache.CreatedAt entry) w) = false /\ w0 = w).
  { intros Hle. subst w0. unfold cache.isExpired. apply Z.leb_le in Hle. now rewrite Hle. }
  destruct (fst (cache.isExpired c (cache.CreatedAt entry) w)) eqn:Ee.
  - rewrite bind_eq.
    exists (match fst (Remove q w0) with None => wrap64 (n + 1) | Some _ => n end),
           (snd (Remove q w0)).
    split; [now destruct (fst (Remove q w0))|].
    split; [unfold Remove; destruct (files w0 !! q); [destruct (removeErr w0)|];
            cbn [snd clock withFiles]; exact Hc|].
    split; [now rewrite Remove_removeErr|].
    split; [|split].
    + intros p. destruct (decide (p = q)) as [->|Hne].
      * unfold Remove. rewrite Hf, Eq.
        destruct (removeErr w0); cbn [snd files withFiles].
        -- left. now rewrite Hf.
        -- right. split; [apply lookup_delete_eq|]. eauto.
      * left. now rewrite Remove_other, Hf.
    + intros _ e He _ Hrm. apply Remove_gone. now rewrite Hr.
    + intros Hle. destruct (Hidle Hle). discriminate.
  - exists n, w0. split; [reflexivity|]. split; [exact Hc|]. split; [exact Hr|].
    split; [|split].
    + intros p. left. now rewrite Hf.
    + intros _ e He Hx. injection He as <-. congruence.
    + intros Hle. split; [reflexivity|]. now destruct (Hidle Hle).
Qed.

Lemma cleanLoop_idle c es n w :
  cache.maxAgeDays c <= 0 -> cleanLoop c es n w = (n, w).
Proof.
  intros Hle. revert n w. induction es as [|x es IH]; intros n w; [reflexivity|].
  destruct (cleanLoop_cons c x es n w) as (n1 & w1 & -> & _ & _ & _ & _ & Hi).
  destruct (Hi Hle) as [-> ->]. apply IH.
Qed.

Lemma cleanLoop_keeps c es n w p d :
  files w !! p = Some d -> (forall e, d <> EntryJSON e) ->
  files (snd (cleanLoop c es n w)) !! p = Some d.
Proof.
  intros Hp Hd. revert n w Hp. induction es as [|x es IH]; intros n w Hp; [exact Hp|].
  destruct (cleanLoop_cons c x es n w) as (n1 & w1 & -> & _ & _ & Hf & _ & _).
  apply IH. destruct (Hf p) as [->|(_ & e & He)]; [exact Hp|].
  rewrite Hp in He. injection He as ->. now destruct (Hd e).
Qed.

Lemma cleanLoop_none c es n w p :
  files w !! p = None -> files (snd (cleanLoop c es n w)) !! p = None.
Proof.
  revert n w. induction es as [|x es IH]; intros n w Hp; [exact Hp|].
  destruct (cleanLoop_cons c x es n w) as (n1 & w1 & -> & _ & _ & Hf & _ & _).
  apply IH. destruct (Hf p) as [->|[H _]]; [exact Hp|exact H].
Qed.

Lemma cleanLoop_expired c es n w x e :
  x ∈ es -> isCacheFile x = true -> removeErr w = None ->
  files w !! os.Join (cache.cacheDir c) (Name x) = Some (EntryJSON e) ->
  (forall w0, clock w0 = clock w -> fst (cache.isExpired c (cache.CreatedAt e) w0) = true) ->
  files (snd (cleanLoop c es n w)) !! os.Join (cache.cacheDir c) (Name x) = None.
Proof.
  intros Hin Hx. revert n w. induction es as [|y es IH]; intros n w Hr Hp He;
    [inversion Hin|].
  destruct (cleanLoop_cons c y es n w) as (n1 & w1 & -> & Hc & Hr1 & Hf & Hgo & _).
  apply elem_of_cons in Hin as [<-|Hin].
  - apply cleanLoop_none. apply (Hgo Hx e Hp); [now apply He|exact Hr].
  - destruct (Hf (os.Join (cache.cacheDir c) (Name x))) as [Hsame|[Hnone _]].
    + apply IH; [exact Hin|congruence|congruence|].
      intros w0 Hw0. apply He. congruence.
    + now apply cleanLoop_none.
Qed.

(** When [CleanExpired] returns an error nothing has been removed. *)
Lemma CleanExpired_error c w e :
  snd (fst (CleanExpired c w)) = Some e ->
  (exists err, e = "failed to read cache directory: " +:+ err) /\
  fst (fst (CleanExpired c w)) = 0 /\ snd (CleanExpired c w) = w.
Proof.
  unfold CleanExpired. rewrite bind_eq, ReadDir_world.
  destruct (fst (ReadDir (cache.cacheDir c) w)) as [entries|err].
  - rewrite bind_eq. cbn [ret fst snd]. discriminate.
  - destruct (IsNotExist err); cbn [ret fst snd]; [discriminate|].
    intros [= <-]. eauto.
Qed.


Example CleanExpired_examples :
  CleanExpired (cache.mkCache home 0) crowded = ((0, None), crowded) /\
  fst (CleanExpired store crowded) = (0, None) /\
  fst (CleanExpired store
         (mkWorld (files crowded) None None None (fun _ => 1703456000000000000) 0 [] [] []
                  false home None None)) = (1, None) /\
  CleanExpired store sealed
  = ((0, Some "failed to read cache directory: open /home/u/.cache/heyman: permission denied"),
     sealed).
Proof. vm_compute. repeat split. Qed.

End Housekeeping.

(** ** Code fences *)

Section Fences.
Import strings parser.

Lemma isLower_not_LF c : isLower c = true -> Ascii.eqb c LF = false.
Proof.
  intros H. destruct (Ascii.eqb c LF) eqn:E; [|reflexivity].
  apply Ascii.eqb_eq in E. subst c. discriminate.
Qed.

Lemma lowerThenLF_tag lang rest :
  commands.allBytes isLower lang = true ->
  lowerThenLF (lang +:+ String LF rest) = Some (S (String.length lang)).
Proof.
  induction lang as [|c lang IH]; cbn [append lowerThenLF commands.allBytes].
  - intros _. now rewrite Ascii.eqb_refl.
  - intros H. apply andb_true_iff in H as [Hc H].
    now rewrite (isLower_not_LF _ Hc), Hc, (IH H).
Qed.

(** Dropping a match that ends with a line feed leaves the scan at the
    beginning of a line. *)
Lemma removeOpen_skip a bol rest :
  removeOpen (S (String.length a)) bol (a +:+ String LF rest) = removeOpen 0 true rest.
Proof.
  revert bol. induction a as [|c a IH]; intros bol; cbn [append String.length removeOpen].
  - destruct rest; cbn [removeOpen]; now rewrite ?Ascii.eqb_refl.
  - apply IH.
Qed.

Lemma removeOpen_0_cons bol c s :
  removeOpen 0 bol (String c s)
  = match (if bol then matchOpen (String c s) else None) with
    | Some n => removeOpen (Nat.pred n) (Ascii.eqb c LF) s
    | None => String c (removeOpen 0 (Ascii.eqb c LF) s)
    end.
Proof. reflexivity. Qed.

Lemma removeOpen_fence lang rest :
  commands.allBytes isLower lang = true ->
  removeOpen 0 true (fence +:+ lang +:+ String LF rest) = removeOpen 0 true rest.
Proof.
  intros Hl. unfold fence. cbn [append]. rewrite removeOpen_0_cons.
  unfold matchOpen. cbn [HasPrefix fence drop len String.length].
  rewrite !Ascii.eqb_refl, HasPrefix_nil. cbn [andb].
  rewrite (lowerThenLF_tag _ _ Hl). cbn [option_map Nat.add Nat.pred].
  change (String "`" (String "`" (lang +:+ String LF rest)))
    with (("``" +:+ lang) +:+ String LF rest).
  replace (S (S (S (String.length lang)))) with (S (String.length ("``" +:+ lang)))
    by reflexivity.
  apply removeOpen_skip.
Qed.

(** A plain text followed by the closing fence: the first expression
    finds nothing in it. *)
Lemma removeOpen_close bol cmd :
  plain cmd = true ->
  removeOpen 0 bol (cmd +:+ String LF fence) = cmd +:+ String LF fence.
Proof.
  revert bol. induction cmd as [|c cmd IH]; intros bol H.
  - destruct bol; reflexivity.
  - rewrite plain_cons in H. apply andb_true_iff in H as [Hc H].
    cbn [append]. rewrite removeOpen_0_cons.
    assert (E : (if bol then matchOpen (String c (cmd +:+ String LF fence)) else None) = None).
    { destruct bol; [|reflexivity]. unfold matchOpen, fence. cbn [HasPrefix].
      apply negb_true_iff in Hc. now rewrite Hc. }
    rewrite E. f_equal. now apply IH.
Qed.

Lemma removeClose_close cmd :
  plain cmd = true -> removeClose 0 (cmd +:+ String LF fence) = cmd.
Proof.
  induction cmd as [|c cmd IH]; intros H; [reflexivity|].
  rewrite plain_cons in H. apply andb_true_iff in H as [Hc H].
  cbn [append removeClose].
  assert (E : matchClose (String c (cmd +:+ String LF fence)) = false).
  { unfold matchClose, fence. cbn [HasPrefix].
    destruct (Ascii.eqb c LF); [|reflexivity]. cbn [andb].
    destruct cmd as [|d cmd]; [reflexivity|].
    rewrite plain_cons in H. apply andb_true_iff in H as [Hd _].
    apply negb_true_iff in Hd. cbn [append HasPrefix]. now rewrite Hd. }
  rewrite E. f_equal. now apply IH.
Qed.

Lemma stripMarkdownCodeBlocks_fenced lang cmd :
  commands.allBytes isLower lang = true -> plain cmd = true ->
  stripMarkdownCodeBlocks (fenced lang cmd) = TrimSpace cmd.
Proof.
  intros Hl Hc. unfold stripMarkdownCodeBlocks, fenced, nl.
  change (String LF "" +:+ cmd +:+ String LF "" +:+ fence)
    with (String LF (cmd +:+ String LF fence)).
  rewrite (removeOpen_fence _ _ Hl), (removeOpen_close _ _ Hc), (removeClose_close _ Hc).
  unfold TrimSuffix, TrimPrefix at 2. rewrite (plain_HasPrefix _ _ Hc).
  unfold TrimPrefix.
  assert (Hr : plain (String.rev cmd) = true) by (unfold plain; now rewrite allBytes_rev).
  change (String.rev "`") with "`". rewrite (plain_HasPrefix _ _ Hr).
  now rewrite rev_involutive.
Qed.

(** A text that begins and ends with a backtick has no white space to trim. *)
Lemma TrimLeftSpace_backtick s : TrimLeftSpace (String "`" s) = String "`" s.
Proof. destruct s as [|c2 [|c3 s]]; reflexivity. Qed.

Lemma TrimLeftSpaceRev_backtick r : TrimLeftSpaceRev (String "`" r) = String "`" r.
Proof.
  destruct r as [|c2 [|c3 r]]; cbn [TrimLeftSpaceRev]; try reflexivity.
  - change (asciiSpace "`") with false. cbv iota.
    replace (space2 c2 "`") with false; [reflexivity|].
    unfold space2. now rewrite andb_false_r.
  - change (asciiSpace "`") with false. cbv iota.
    replace (space2 c2 "`") with false by (unfold space2; now rewrite andb_false_r).
    replace (space3 c3 c2 "`") with false; [reflexivity|].
    unfold space3. cbn. now rewrite !andb_false_r.
Qed.

Lemma TrimSpace_fenced lang cmd : TrimSpace (fenced lang cmd) = fenced lang cmd.
Proof.
  unfold TrimSpace, TrimRightSpace, fenced, fence. cbn [append].
  rewrite TrimLeftSpace_backtick.
  set (s := String "`" _).
  assert (E : exists r, String.rev s = String "`" r).
  { subst s.
    change (String "`" (String "`" (String "`" (lang +:+ nl +:+ cmd +:+ nl +:+ "```"))))
      with ("```" +:+ lang +:+ nl +:+ cmd +:+ nl +:+ "```").
    rewrite <- !append_assoc, rev_append. cbn. eauto. }
  destruct E as [r E]. rewrite E, TrimLeftSpaceRev_backtick, <- E. apply rev_involutive.
Qed.

Lemma SplitLines_oneLine s : oneLine s = true -> SplitLines s = [s].
Proof.
  induction s as [|c s IH]; [reflexivity|]. unfold oneLine. cbn [commands.allBytes].
  intros H. apply andb_true_iff in H as [Hc H]. apply negb_true_iff in Hc.
  cbn [SplitLines]. now rewrite Hc, (IH H).
Qed.

(** X27. A command in a code fence. For a language tag of lower-case
    letters (or none) and a command without backtick,
    [stripMarkdownCodeBlocks] gives back the command, trimmed. When the
    command is one line, trimmed, starts with the tool name, and the
    text holds no refusal, [Parse] accepts the fenced text as that
    command. *)
Theorem fenced_command name lang cmd :
  commands.allBytes isLower lang = true ->
  plain cmd = true ->
  stripMarkdownCodeBlocks (fenced lang cmd) = TrimSpace cmd /\
  (oneLine cmd = true -> TrimSpace cmd = cmd -> HasPrefix cmd name = true ->
   Contains (fenced lang cmd) refusal = false ->
   Parse (New name false) (fenced lang cmd) = valid cmd "").
Proof.
  intros Hl Hc. split; [now apply stripMarkdownCodeBlocks_fenced|].
  intros Ho Ht Hp Hr. unfold Parse. cbn [explainMode New].
  rewrite TrimSpace_fenced. unfold parseDefaultMode. cbn [commandName]. cbv zeta.
  rewrite Hr, (stripMarkdownCodeBlocks_fenced _ _ Hl Hc), !Ht.
  cbn [commandName New]. rewrite Hp. cbn [negb].
  now rewrite (SplitLines_oneLine _ Ho).
Qed.

Lemma fenced_command_witness :
  stripMarkdownCodeBlocks (fenced "bash" "ls -l") = "ls -l" /\
  Parse (New "ls" false) (fenced "bash" "ls -l") = valid "ls -l" "".
Proof.
  destruct (fenced_command "ls" "bash" "ls -l") as [Hs Hp]; [reflexivity|reflexivity|].
  split; [rewrite Hs; vm_compute; reflexivity|].
  apply Hp; vm_compute; reflexivity.
Defined.

End Fences.

(** ** A refusal anywhere in the response *)

Section Refusals.
Import strings parser.

Lemma HasPrefix_split s r : HasPrefix s r = true -> exists b, s = r +:+ b.
Proof.
  revert s. induction r as [|c r IH]; intros s H; [now exists s|].
  destruct s as [|d s]; [discriminate|]. cbn [HasPrefix] in H.
  apply andb_true_iff in H as [Hc H]. apply Ascii.eqb_eq in Hc. subst d.
  destruct (IH _ H) as [b ->]. now exists b.
Qed.

Lemma Contains_split s r : Contains s r = true <-> exists a b, s = a +:+ r +:+ b.
Proof.
  split.
  - induction s as [|c s IH]; cbn [Contains]; intros H.
    + rewrite orb_false_r in H. apply HasPrefix_split in H as [b ->]. now exists "", b.
    + apply orb_true_iff in H as [H|H].
      * apply HasPrefix_split in H as [b ->]. now exists "", b.
      * destruct (IH H) as (a & b & ->). now exists (String c a), b.
  - intros (a & b & ->). apply Contains_skip, Contains_head.
Qed.

Lemma Contains_rev s r : Contains s r = true -> Contains (String.rev s) (String.rev r) = true.
Proof.
  intros H. apply Contains_split in H as (a & b & ->). apply Contains_split.
  exists (String.rev b), (String.rev a). now rewrite !rev_append, append_assoc.
Qed.

Lemma Contains_cons_differs c s r0 r' :
  Ascii.eqb c r0 = false ->
  Contains (String c s) (String r0 r') = Contains s (String r0 r').
Proof. intros H. cbn [Contains HasPrefix]. now rewrite H. Qed.

Lemma plain_not_space c r0 :
  asciiSpace c = true -> plainByte r0 = true -> Ascii.eqb c r0 = false.
Proof.
  intros Hs Hp. destruct (Ascii.eqb c r0) eqn:E; [|reflexivity].
  apply Ascii.eqb_eq in E. subst c. unfold plainByte in Hp. rewrite Hs in Hp.
  now rewrite andb_false_r in Hp.
Qed.

Lemma plain_not_high c r0 :
  (128 <= byteval c)%N -> plainByte r0 = true -> Ascii.eqb c r0 = false.
Proof.
  intros Hh Hp. destruct (Ascii.eqb c r0) eqn:E; [|reflexivity].
  apply Ascii.eqb_eq in E. subst c. unfold plainByte in Hp.
  apply andb_true_iff in Hp as [Hp _]. apply N.ltb_lt in Hp. lia.
Qed.

Lemma space2_high c1 c2 :
  space2 c1 c2 = true -> (128 <= byteval c1)%N /\ (128 <= byteval c2)%N.
Proof.
  unfold space2. intros H. apply andb_true_iff in H as [H1 H2].
  apply N.eqb_eq in H1. apply orb_true_iff in H2 as [H2|H2]; apply N.eqb_eq in H2; lia.
Qed.

Lemma space3_high c1 c2 c3 :
  space3 c1 c2 c3 = true ->
  (128 <= byteval c1)%N /\ (128 <= byteval c2)%N /\ (128 <= byteval c3)%N.
Proof.
  unfold space3. cbv zeta. intros H.
  repeat match type of H with
         | (_ || _) = true => apply orb_true_iff in H as [H|H]
         end;
    repeat match goal with
           | H : (_ && _) = true |- _ => apply andb_true_iff in H as [? ?]
           | H : (_ || _) = true |- _ => apply orb_true_iff in H as [H|H]
           | H : (_ =? _)%N = true |- _ => apply N.eqb_eq in H
           | H : (_ <=? _)%N = true |- _ => apply N.leb_le in H
           end; lia.
Qed.

(** Trimming white-space runes from the left keeps an occurrence of a
    text that begins with a plain byte. *)
Lemma TrimLeftSpace_Contains r0 r' s :
  plainByte r0 = true ->
  Contains s (String r0 r') = true -> Contains (TrimLeftSpace s) (String r0 r') = true.
Proof.
  intros Hp. remember (String.length s) as n eqn:Hn.
  assert (Hle : (String.length s <= n)%nat) by lia. clear Hn.
  revert s Hle. induction n as [|n IH]; intros s Hle Hc.
  - destruct s; [exact Hc|simpl in Hle; lia].
  - destruct s as [|c1 s1]; [exact Hc|]. cbn [TrimLeftSpace]. simpl in Hle.
    destruct (asciiSpace c1) eqn:E1.
    + apply IH; [lia|]. now rewrite Contains_cons_differs in Hc by (eapply plain_not_space; eauto).
    + destruct s1 as [|c2 s2]; [exact Hc|]. simpl in Hle.
      destruct (space2 c1 c2) eqn:E2.
      * apply space2_high in E2 as [H1 H2]. apply IH; [lia|].
        rewrite !Contains_cons_differs in Hc by (eapply plain_not_high; eauto). exact Hc.
      * destruct s2 as [|c3 s3]; [exact Hc|]. simpl in Hle.
        destruct (space3 c1 c2 c3) eqn:E3; [|exact Hc].
        apply space3_high in E3 as (H1 & H2 & H3). apply IH; [lia|].
        rewrite !Contains_cons_differs in Hc by (eapply plain_not_high; eauto). exact Hc.
Qed.

Lemma TrimLeftSpaceRev_Contains r0 r' s :
  plainByte r0 = true ->
  Contains s (String r0 r') = true -> Contains (TrimLeftSpaceRev s) (String r0 r') = true.
Proof.
  intros Hp. remember (String.length s) as n eqn:Hn.
  assert (Hle : (String.length s <= n)%nat) by lia. clear Hn.
  revert s Hle. induction n as [|n IH]; intros s Hle Hc.
  - destruct s; [exact Hc|simpl in Hle; lia].
  - destruct s as [|c1 s1]; [exact Hc|]. cbn [TrimLeftSpaceRev]. simpl in Hle.
    destruct (asciiSpace c1) eqn:E1.
    + apply IH; [lia|]. now rewrite Contains_cons_differs in Hc by (eapply plain_not_space; eauto).
    + destruct s1 as [|c2 s2]; [exact Hc|]. simpl in Hle.
      destruct (space2 c2 c1) eqn:E2.
      * apply space2_high in E2 as [H1 H2]. apply IH; [lia|].
        rewrite !Contains_cons_differs in Hc by (eapply plain_not_high; eauto). exact Hc.
      * destruct s2 as [|c3 s3]; [exact Hc|]. simpl in Hle.
        destruct (space3 c3 c2 c1) eqn:E3; [|exact Hc].
        apply space3_high in E3 as (H1 & H2 & H3). apply IH; [lia|].
        rewrite !Contains_cons_differs in Hc by (eapply plain_not_high; eauto). exact Hc.
Qed.

(** [TrimSpace] keeps an occurrence of a text that begins and ends with
    a plain byte. *)
Lemma TrimSpace_Contains s r0 r' e0 e' :
  plainByte r0 = true -> plainByte e0 = true ->
  String.rev (String r0 r') = String e0 e' ->
  Contains s (String r0 r') = true -> Contains (TrimSpace s) (String r0 r') = true.
Proof.
  intros Hr He Erev Hc. unfold TrimSpace, TrimRightSpace.
  apply (TrimLeftSpace_Contains _ _ _ Hr) in Hc.
  apply Contains_rev in Hc. rewrite Erev in Hc.
  apply (TrimLeftSpaceRev_Contains _ _ _ He) in Hc.
  apply Contains_rev in Hc. now rewrite <- Erev, rev_involutive in Hc.
Qed.

Lemma TrimSpace_refusal s :
  Contains s refusal = true -> Contains (TrimSpace s) refusal = true.
Proof.
  apply (TrimSpace_Contains s "c" "annot find this information in the man page"
           "e" "gap nam eht ni noitamrofni siht dnif tonnac"); reflexivity.
Qed.

(** X28. A refusal anywhere. A response that holds the refusal phrase
    [cannot find this information in the man page] at any place is
    rejected with the error [information not found in man page], in
    either mode and for every tool name, even when it also holds a
    line that is a command of the tool. *)
Theorem refusal_anywhere p raw :
  Contains raw refusal = true ->
  Parse p raw = invalid "information not found in man page".
Proof.
  intros H. apply TrimSpace_refusal in H. unfold Parse, parseExplainMode, parseDefaultMode.
  rewrite H. now destruct (explainMode p).
Qed.

Lemma refusal_anywhere_witness :
  Parse (New "ls" false)
        ("ls -l" +:+ nl +:+ "Sorry, I cannot find this information in the man page.")
  = invalid "information not found in man page".
Proof.
  apply (refusal_anywhere (New "ls" false)
           ("ls -l" +:+ nl +:+ "Sorry, I cannot find this information in the man page.")).
  vm_compute. reflexivity.
Defined.

End Refusals.

(** ** What the cache stores is well-formed UTF-8 *)

Section StoredText.
Import os.

(** The length of a rune depends on its bytes only, and [coerceFrom]
    copies them. *)
Lemma runeLen_coerce c s n :
  json.runeLen (String c s) = S n ->
  json.runeLen (String c (json.coerceFrom n s)) = S n.
Proof.
  intros H. unfold json.runeLen in *.
  destruct (N_of_ascii c <? 128)%N eqn:E0; [injection H as <-; reflexivity|].
  destruct s as [|c1 s2]; [discriminate|].
  destruct (json.between 194 223 (N_of_ascii c)) eqn:E1.
  { destruct (json.between 128 191 (N_of_ascii c1)) eqn:E2; [|discriminate].
    injection H as <-. cbn [json.coerceFrom]. now rewrite E2. }
  destruct s2 as [|c2 s3]; [discriminate|]. cbv zeta in H.
  destruct (json.between 224 239 (N_of_ascii c)) eqn:E3.
  { match type of H with
    | (if ?cond then _ else _) = _ => destruct cond eqn:E4; [|discriminate]
    end.
    injection H as <-. cbn [json.coerceFrom]. cbv zeta. now rewrite E4. }
  destruct s3 as [|c3 s4]; [discriminate|]. cbv zeta in H.
  match type of H with
  | (if ?cond then _ else _) = _ => destruct cond eqn:E5; [|discriminate]
  end.
  injection H as <-. cbn [json.coerceFrom]. cbv zeta. now rewrite E5.
Qed.

Lemma validFrom_replacement s :
  json.validFrom 0 (json.replacement +:+ s) = json.validFrom 0 s.
Proof. reflexivity. Qed.

Lemma validFrom_coerceFrom_true k s : json.validFrom k (json.coerceFrom k s) = true.
Proof.
  revert k. induction s as [|c s IH]; intros k; [reflexivity|].
  destruct k as [|k]; cbn [json.coerceFrom].
  - destruct (json.runeLen (String c s)) as [|n] eqn:E.
    + rewrite validFrom_replacement. apply IH.
    + cbn [json.validFrom]. rewrite (runeLen_coerce _ _ _ E). apply IH.
  - cbn [json.validFrom]. apply IH.
Qed.

Lemma coerce_ValidString s : json.ValidString (json.coerce s) = true.
Proof. apply validFrom_coerceFrom_true. Qed.

Lemma coerceResponse_validText R : validText (json.coerceResponse R) = true.
Proof.
  unfold validText, json.coerceResponse.
  cbn [llm.QueryResponse.Content llm.QueryResponse.Model llm.QueryResponse.Provider].
  now rewrite !coerce_ValidString.
Qed.

(** X29. What the cache returns is well-formed UTF-8, and goes back in
    unchanged. The text the JSON encoder writes for any string is
    well-formed UTF-8, and writing it again changes nothing; so a
    response [Get] returns from an entry that [Set] wrote has
    well-formed content, model and provider, and storing it again
    keeps it as it is. *)
Theorem stored_text_valid c command question model R w w1 :
  (forall s, json.ValidString (json.coerce s) = true
             /\ json.coerce (json.coerce s) = json.coerce s) /\
  (cache.Set_ c command question model R w = (None, w1) ->
   fst (cache.isExpired c (clock w (ticks w)) w1) = false ->
   exists R' w2,
     cache.Get c command question model w1 = (Some R', w2) /\
     validText R' = true /\ json.coerceResponse R' = R').
Proof.
  split.
  - intros s. split; [apply coerce_ValidString|].
    apply ValidString_coerce, coerce_ValidString.
  - intros Hset Hfresh. apply Set_written in Hset. unfold json.MarshalIndent in Hset.
    eexists _, _. split.
    + eapply Get_hit_eq; [exact Hset|reflexivity|exact Hfresh].
    + assert (Hv : validText (llm.QueryResponse.setCached (json.coerceResponse R)) = true)
        by apply coerceResponse_validText.
      split; [exact Hv|]. now apply coerceResponse_valid.
Qed.

Example stored_text_valid_garbled :
  validText garbled = false /\
  option_map validText
    (fst (cache.Get store "ls" "how do I sort by size" "gpt-4o-mini"
            (snd (cache.Set_ store "ls" "how do I sort by size" "gpt-4o-mini" garbled
                    emptyWorld))))
  = Some true.
Proof. vm_compute. split; reflexivity. Qed.

End StoredText.

